(** * Credential lifecycle and sync orchestration of the Jira backend

    A shallow embedding of the JavaScript sources
      - database.js            (schema created by [initDatabase]),
      - auth-service.js        ([JiraAuthService]),
      - scheduler.js           ([TokenRefreshScheduler]),
      - web-server.js          (account, sync, refresh and OAuth routes),
      - jira-api.js            ([JiraApiService]),
      - comprehensive-sync.js  ([ComprehensiveJiraSync]),
      - delete-integration.js  ([deleteIntegration]),
    followed by the properties proved about them.

    Conventions of the embedding.
      - An [async] method is a computation in the monad [M]: it threads the
        [World] (database file, clock reads, HTTP trace, the scheduler's
        [isRunning] field) and ends either [Returned] or [Thrown].  Effects
        done before a throw persist, as in JavaScript.
      - Everything outside the process is an [Env]: the clock, the token
        endpoint, the Jira REST API and [Math.random].  A reply may depend
        on the number of calls made so far and on the request.
      - The SQLite file is reliable: a statement fails only for a reason
        that is visible in its own text against the schema (value count,
        unknown column, upsert target without a unique index, ...).
      - A method is run as a whole.  Its [await]s are where other
        handlers can run: where a property is about that, the statements
        awaited are run one by one ([WebServer.clearPrimary],
        [WebServer.markPrimary], module [Statements]).
      - Console output is not part of the state.
      - Instants are milliseconds since the epoch ([Z]); an ISO-8601 text
        produced by [toISOString] is represented by its instant. *)

From Stdlib Require Import ZArith List String Ascii Bool Lia DecimalString.
Import ListNotations.
#[local] Set Warnings "-register-all".
Local Open Scope string_scope.
Local Open Scope list_scope.
Local Open Scope Z_scope.

(* ====================================================================== *)
(** * JavaScript values *)
(* ====================================================================== *)

Module Js.

(** Values obtained from [response.json()], plus [undefined] for a member
    that is not there.  Numbers are integers. *)
Inductive Json : Type :=
| JUndefined
| JNull
| JBool (b : bool)
| JNum (n : Z)
| JStr (s : string)
| JArr (items : list Json)
| JObj (members : list (string * Json)).

Fixpoint Json_eqb (a b : Json) {struct a} : bool :=
  match a, b with
  | JUndefined, JUndefined => true
  | JNull, JNull => true
  | JBool x, JBool y => Bool.eqb x y
  | JNum x, JNum y => Z.eqb x y
  | JStr x, JStr y => String.eqb x y
  | JArr xs, JArr ys =>
      (fix all2 (l : list Json) (r : list Json) {struct l} : bool :=
         match l, r with
         | [], [] => true
         | x :: l', y :: r' => Json_eqb x y && all2 l' r'
         | _, _ => false
         end) xs ys
  | JObj xs, JObj ys =>
      (fix all2 (l : list (string * Json)) (r : list (string * Json)) {struct l} : bool :=
         match l, r with
         | [], [] => true
         | (k, x) :: l', (k', y) :: r' => String.eqb k k' && Json_eqb x y && all2 l' r'
         | _, _ => false
         end) xs ys
  | _, _ => false
  end.

(** [!!v] *)
Definition truthy (v : Json) : bool :=
  match v with
  | JUndefined | JNull => false
  | JBool b => b
  | JNum n => negb (n =? 0)
  | JStr s => negb (String.eqb s "")
  | JArr _ | JObj _ => true
  end.

(** [a || b] *)
Definition or_else (a b : Json) : Json := if truthy a then a else b.

(** [v == null] *)
Definition nullish (v : Json) : bool :=
  match v with JUndefined | JNull => true | _ => false end.

Fixpoint lookup_member (k : string) (ms : list (string * Json)) : Json :=
  match ms with
  | [] => JUndefined
  | (k', v) :: ms' => if String.eqb k k' then v else lookup_member k ms'
  end.

Fixpoint chars (s : string) : list Json :=
  match s with
  | EmptyString => []
  | String c s' => JStr (String c EmptyString) :: chars s'
  end.

(** [v.k] for a [v] that is neither [null] nor [undefined] *)
Definition prop (v : Json) (k : string) : Json :=
  match v with
  | JObj ms => lookup_member k ms
  | JArr items => if String.eqb k "length" then JNum (Z.of_nat (List.length items)) else JUndefined
  | JStr s => if String.eqb k "length" then JNum (Z.of_nat (String.length s)) else JUndefined
  | _ => JUndefined
  end.

(** [v?.k] *)
Definition opt_prop (v : Json) (k : string) : Json :=
  if nullish v then JUndefined else prop v k.

(** The values a [for ... of] loop visits, when [v] is iterable. *)
Definition iterable (v : Json) : option (list Json) :=
  match v with
  | JArr items => Some items
  | JStr s => Some (chars s)
  | _ => None
  end.

(** [Array.isArray(v)] *)
Definition isArray (v : Json) : bool :=
  match v with JArr _ => true | _ => false end.

(** [set.add(v)] on the insertion-ordered content of a [Set]: primitives
    are compared by value, arrays and objects by identity (each parsed one
    is a new object). *)
Definition set_add (v : Json) (content : list Json) : list Json :=
  match v with
  | JArr _ | JObj _ => content ++ [v]
  | _ => if existsb (Json_eqb v) content then content else content ++ [v]
  end.

(** Truthiness of a nullable text column or member. *)
Definition truthy_text (t : option string) : bool :=
  match t with
  | None => false
  | Some s => negb (String.eqb s "")
  end.

(** [a || b] on nullable texts *)
Definition text_or (a b : option string) : option string :=
  if truthy_text a then a else b.

(** Largest magnitude of a time value of a [Date] (ECMAScript TimeClip). *)
Definition maxTime : Z := 8640000000000000.

Definition validTime (t : Z) : bool := Z.abs t <=? maxTime.

End Js.
Import Js.

(* ====================================================================== *)
(** * SQLite tables *)
(* ====================================================================== *)

Module Sql.

(** What a cell holds.  [SqlIsoTime t] is the text [toISOString] gives for
    the instant [t]; [SqlJsonText j] is the text [JSON.stringify(j)];
    [SqlObjectText j] is the text the driver binds for a value that is an
    array or an object; [SqlGenerated t r] is the text
    [`workflow_${t}_${r}`]. *)
Inductive SqlValue : Type :=
| SqlNull
| SqlInt (n : Z)
| SqlText (s : string)
| SqlIsoTime (t : Z)
| SqlJsonText (j : Json)
| SqlObjectText (j : Json)
| SqlGenerated (t : Z) (r : Z).

Definition SqlValue_eqb (a b : SqlValue) : bool :=
  match a, b with
  | SqlNull, SqlNull => true
  | SqlInt x, SqlInt y => x =? y
  | SqlText x, SqlText y => String.eqb x y
  | SqlIsoTime x, SqlIsoTime y => x =? y
  | SqlJsonText x, SqlJsonText y => Json_eqb x y
  | SqlObjectText x, SqlObjectText y => Json_eqb x y
  | SqlGenerated t r, SqlGenerated t' r' => (t =? t') && (r =? r')
  | _, _ => false
  end.

(** How the driver binds a JavaScript value to a [?]. *)
Definition bindParam (v : Json) : SqlValue :=
  match v with
  | JUndefined | JNull => SqlNull
  | JBool b => SqlInt (if b then 1 else 0)
  | JNum n => SqlInt n
  | JStr s => SqlText s
  | JArr _ | JObj _ => SqlObjectText v
  end.

Record Row : Type := mkRow {
  rowid : Z;                            (* id INTEGER PRIMARY KEY AUTOINCREMENT *)
  cells : list (string * SqlValue)
}.

Record Table : Type := mkTable {
  columns : list (string * SqlValue);   (* column name and DEFAULT, [id] apart *)
  uniques : list (list string);         (* the UNIQUE constraints of CREATE TABLE *)
  rows : list Row;                      (* in rowid order *)
  seq : Z                               (* sqlite_sequence: largest rowid ever given *)
}.

Inductive SqlFault : Type :=
| NoSuchTable (name : string)
| NoSuchColumn (name : string)
| ValueCountMismatch (values : nat) (cols : nat)   (* "N values for M columns" *)
| BindRange                                        (* more arguments than [?] *)
| NoMatchingUniqueIndex                            (* ON CONFLICT target names no UNIQUE constraint *)
| ConstraintViolation.

Inductive ValueSpec : Type :=
| Placeholder                 (* ? *)
| Literal (v : SqlValue).

Inductive ConflictClause : Type :=
| Abort                                                          (* INSERT INTO *)
| OrReplace                                                      (* INSERT OR REPLACE INTO *)
| DoUpdate (target : list string) (assigned : list string).      (* ON CONFLICT(target) DO UPDATE SET c = excluded.c *)

Fixpoint assoc {A : Type} (k : string) (l : list (string * A)) : option A :=
  match l with
  | [] => None
  | (k', v) :: l' => if String.eqb k k' then Some v else assoc k l'
  end.

Definition cell (r : Row) (c : string) : SqlValue :=
  match assoc c (cells r) with Some v => v | None => SqlNull end.

Definition placeholders (n : nat) : list ValueSpec := repeat Placeholder n.

(** The values of a VALUES list once the arguments are bound: a [?] without
    an argument stays NULL, an argument without a [?] is refused. *)
Fixpoint bindValues (values : list ValueSpec) (args : list SqlValue) : option (list SqlValue) :=
  match values with
  | [] => match args with [] => Some [] | _ :: _ => None end
  | Literal v :: values' => option_map (cons v) (bindValues values' args)
  | Placeholder :: values' =>
      match args with
      | [] => option_map (cons SqlNull) (bindValues values' [])
      | a :: args' => option_map (cons a) (bindValues values' args')
      end
  end.

Definition list_eqb (a b : list string) : bool :=
  if list_eq_dec string_dec a b then true else false.

Definition mem (c : string) (l : list string) : bool := existsb (String.eqb c) l.

(** Two rows collide on a UNIQUE constraint when they agree on all of its
    columns and none of the values is NULL. *)
Definition collide (given : list (string * SqlValue)) (r : Row) (u : list string) : bool :=
  forallb (fun c =>
             match assoc c given with
             | Some SqlNull | None => false
             | Some v => SqlValue_eqb v (cell r c)
             end) u.

Definition violates (t : Table) (given : list (string * SqlValue)) (r : Row) : bool :=
  existsb (collide given r) (uniques t).

Definition next_rowid (t : Table) : Z :=
  1 + fold_right Z.max (seq t) (map rowid (rows t)).

(** The full row: every column of the table, given value or DEFAULT. *)
Definition fill (t : Table) (given : list (string * SqlValue)) : list (string * SqlValue) :=
  map (fun cd => (fst cd, match assoc (fst cd) given with Some v => v | None => snd cd end))
      (columns t).

Definition append_row (t : Table) (given : list (string * SqlValue)) (kept : list Row) : Table :=
  let id := next_rowid t in
  mkTable (columns t) (uniques t) (kept ++ [mkRow id (fill t given)]) id.

Definition overwrite (assigned : list string) (given : list (string * SqlValue)) (r : Row) : Row :=
  mkRow (rowid r)
        (map (fun kv => (fst kv,
                         if mem (fst kv) assigned
                         then match assoc (fst kv) given with Some v => v | None => SqlNull end
                         else snd kv))
             (cells r)).

Fixpoint update_first (p : Row -> bool) (f : Row -> Row) (l : list Row) : list Row :=
  match l with
  | [] => []
  | r :: l' => if p r then f r :: l' else r :: update_first p f l'
  end.

(** INSERT of one row, as SQLite runs it.
    Preparing the statement fails when the VALUES list and the column list
    differ in length ("N values for M columns"), when a column is not one
    of the table, and when an ON CONFLICT target is not the column list of
    a UNIQUE constraint of the table ("ON CONFLICT clause does not match
    any PRIMARY KEY or UNIQUE constraint").
    Running it builds the new row and looks for rows that collide with it
    on a UNIQUE constraint:
      - INSERT fails on a collision;
      - INSERT OR REPLACE deletes the colliding rows and adds the new row
        under a new rowid;
      - ON CONFLICT(target) DO UPDATE overwrites the assigned columns of
        the row colliding on [target] and adds nothing.
    Without a collision the row is added under the next rowid.  A table
    without UNIQUE constraint has no collisions.
    A value is stored as it was bound.  The conversion that the declared
    type of a column applies to it (a number bound to a TEXT column is
    stored as its text) is not represented; what is stated of stored
    values is stated for values that SQLite stores as they are bound. *)
Definition insert (how : ConflictClause) (cols : list string) (values : list ValueSpec)
           (args : list SqlValue) (t : Table) : Table + SqlFault :=
  if negb (Nat.eqb (List.length values) (List.length cols))
  then inr (ValueCountMismatch (List.length values) (List.length cols))
  else
    match find (fun c => negb (mem c (map fst (columns t)))) cols with
    | Some c => inr (NoSuchColumn c)
    | None =>
        match bindValues values args with
        | None => inr BindRange
        | Some vals =>
            let given := combine cols vals in
            match how with
            | Abort =>
                if existsb (violates t given) (rows t) then inr ConstraintViolation
                else inl (append_row t given (rows t))
            | OrReplace =>
                inl (append_row t given (filter (fun r => negb (violates t given r)) (rows t)))
            | DoUpdate target assigned =>
                if negb (existsb (list_eqb target) (uniques t)) then inr NoMatchingUniqueIndex
                else if existsb (fun r => collide given r target) (rows t)
                     then inl (mkTable (columns t) (uniques t)
                                       (update_first (fun r => collide given r target)
                                                     (overwrite assigned given) (rows t))
                                       (seq t))
                     else if existsb (violates t given) (rows t) then inr ConstraintViolation
                          else inl (append_row t given (rows t))
            end
        end
    end.

(** SELECT c FROM t WHERE k = v *)
Definition select_where (t : Table) (k : string) (v : SqlValue) (c : string) : list SqlValue :=
  map (fun r => cell r c) (filter (fun r => SqlValue_eqb (cell r k) v) (rows t)).

End Sql.
Import Sql.

(* ====================================================================== *)
(** * The database file (database.js) *)
(* ====================================================================== *)

Module Store.

(** A row of [integrations].  [expires_at] and [last_refresh_at] are TEXT
    columns holding NULL or an ISO-8601 text. *)
Record Integration : Type := mkIntegration {
  id : Z;
  account_name : option string;
  account_email : option string;
  jira_domain : option string;
  project_id : option string;
  access_token : option string;
  refresh_token : option string;
  expires_at : option Z;
  last_refresh_at : option Z;
  refresh_failures : Z;              (* INTEGER DEFAULT 0 *)
  is_active : bool;                  (* BOOLEAN DEFAULT 1 *)
  is_primary : bool;                 (* BOOLEAN DEFAULT 0 *)
  created_at : Z;                    (* DATETIME DEFAULT CURRENT_TIMESTAMP *)
  updated_at : Z                     (* DATETIME DEFAULT CURRENT_TIMESTAMP *)
}.

Record Database : Type := mkDatabase {
  integrations : list Integration;   (* in id order *)
  integrations_seq : Z;              (* sqlite_sequence of integrations *)
  tables : list (string * Table)     (* the jira_* tables *)
}.

Definition col (name : string) : string * SqlValue := (name, SqlNull).
Definition dflt (name : string) (n : Z) : string * SqlValue := (name, SqlInt n).

(** The column lists of the CREATE TABLE statements of [initDatabase]; none
    of them declares a UNIQUE constraint. *)
Definition schema : list (string * list (string * SqlValue)) :=
 [("jira_projects",
    [col "integration_id"; col "project_key"; col "project_name"; col "project_id";
     col "project_type"; col "description"; col "lead_account_id";
     col "lead_display_name"; col "url"; col "avatar_urls"; col "project_category";
     col "is_private"; dflt "is_active" 1; col "cloud_id"; col "raw_data";
     col "updated_at"]);
  ("jira_issue_types",
    [col "integration_id"; col "issue_type_id"; col "name"; col "description";
     col "icon_url"; col "subtask"; col "hierarchy_level"; col "raw_data";
     col "updated_at"]);
  ("jira_priorities",
    [col "integration_id"; col "priority_id"; col "name"; col "description";
     col "icon_url"; col "status_color"; col "raw_data"; col "updated_at"]);
  ("jira_statuses",
    [col "integration_id"; col "status_id"; col "name"; col "description";
     col "icon_url"; col "status_category"; col "raw_data"; col "updated_at"]);
  ("jira_resolutions",
    [col "integration_id"; col "resolution_id"; col "name"; col "description";
     col "raw_data"; col "updated_at"]);
  ("jira_users",
    [col "integration_id"; col "account_id"; col "display_name"; col "email_address";
     col "active"; col "time_zone"; col "locale"; col "avatar_urls"; col "raw_data";
     col "updated_at"]);
  ("jira_groups",
    [col "integration_id"; col "group_id"; col "name"; col "html"; col "raw_data";
     col "updated_at"]);
  ("jira_fields",
    [col "integration_id"; col "field_id"; col "name"; col "field_type";
     col "description"; col "is_custom"; col "is_system"; col "custom";
     col "orderable"; col "navigable"; col "searchable"; col "schema"; col "raw_data";
     col "updated_at"]);
  ("jira_labels",
    [col "integration_id"; col "label_name"; col "usage_count"; col "updated_at"]);
  ("jira_components",
    [col "integration_id"; col "component_id"; col "name"; col "description";
     col "project_key"; col "lead_account_id"; col "assignee_type"; col "raw_data";
     col "updated_at"]);
  ("jira_versions",
    [col "integration_id"; col "version_id"; col "name"; col "description";
     col "project_key"; col "archived"; col "released"; col "start_date";
     col "release_date"; col "raw_data"; col "updated_at"]);
  ("jira_workflows",
    [col "integration_id"; col "workflow_id"; col "name"; col "description";
     col "transitions"; col "statuses"; col "raw_data"; col "updated_at"]);
  ("jira_dashboards",
    [col "integration_id"; col "dashboard_id"; col "name"; col "description";
     col "owner_account_id"; col "view"; col "share_permissions"; col "raw_data";
     col "updated_at"]);
  ("jira_filters",
    [col "integration_id"; col "filter_id"; col "name"; col "description"; col "jql";
     col "owner_account_id"; col "view_url"; col "search_url"; col "raw_data";
     col "updated_at"]);
  ("jira_permissions",
    [col "integration_id"; col "permission_id"; col "name"; col "type";
     col "description"; col "have_permission"; col "raw_data"; col "updated_at"]);
  ("jira_issues",
    [col "integration_id"; col "project_id"; col "issue_key"; col "issue_id";
     col "summary"; col "description"; col "assignee_account_id";
     col "assignee_display_name"; col "assignee_email"; col "reporter_account_id";
     col "reporter_display_name"; col "reporter_email"; col "epic_key";
     col "epic_name"; col "story_points"; col "status_name"; col "status_id";
     col "priority_name"; col "priority_id"; col "issue_type_name";
     col "issue_type_id"; col "resolution_name"; col "resolution_id"; col "labels";
     col "components"; col "fix_versions"; col "versions"; col "parent_key";
     col "subtasks"; col "issuelinks"; col "worklog"; col "comments";
     col "attachments"; col "created"; col "updated"; col "raw_data"; col "updated_at"]);
  ("jira_comments",
    [col "integration_id"; col "comment_id"; col "issue_key"; col "author_account_id";
     col "author_display_name"; col "body"; col "created"; col "updated";
     col "raw_data"; col "updated_at"]);
  ("jira_worklogs",
    [col "integration_id"; col "worklog_id"; col "issue_key"; col "author_account_id";
     col "author_display_name"; col "comment"; col "time_spent";
     col "time_spent_seconds"; col "started"; col "created"; col "updated";
     col "raw_data"; col "updated_at"]);
  ("jira_attachments",
    [col "integration_id"; col "attachment_id"; col "issue_key"; col "filename";
     col "author_account_id"; col "author_display_name"; col "created"; col "size";
     col "mime_type"; col "content_url"; col "raw_data"; col "updated_at"]);
  ("jira_issue_links",
    [col "integration_id"; col "link_id"; col "issue_key"; col "outward_issue_key";
     col "inward_issue_key"; col "link_type_id"; col "link_type_name"; col "raw_data";
     col "updated_at"])].

(** The database [initDatabase] creates in a new file. *)
Definition initDatabase : Database :=
  mkDatabase [] 0 (map (fun nc => (fst nc, mkTable (snd nc) [] [] 0)) schema).

(** The table [name] as a statement finds it.  [getDatabase] runs the
    CREATE TABLE IF NOT EXISTS statements before the first use of the
    file, so a table of the schema that the file lacks is there, empty. *)
Definition table (d : Database) (name : string) : option Table :=
  match assoc name (tables d) with
  | Some t => Some t
  | None => option_map (fun cols => mkTable cols [] [] 0) (assoc name schema)
  end.

Fixpoint replace_table (name : string) (t : Table) (l : list (string * Table)) : list (string * Table) :=
  match l with
  | [] => [(name, t)]
  | (n, t0) :: l' => if String.eqb name n then (n, t) :: l' else (n, t0) :: replace_table name t l'
  end.

Definition set_table (d : Database) (name : string) (t : Table) : Database :=
  mkDatabase (integrations d) (integrations_seq d) (replace_table name t (tables d)).

Definition set_integrations (d : Database) (l : list Integration) : Database :=
  mkDatabase l (integrations_seq d) (tables d).

(** SELECT * FROM integrations WHERE is_active = 1 *)
Definition select_active (d : Database) : list Integration :=
  filter is_active (integrations d).

(** SELECT * FROM integrations WHERE id = ? AND is_active = 1 (first row) *)
Definition get_active (d : Database) (i : Z) : option Integration :=
  find (fun r => (id r =? i) && is_active r) (integrations d).

(** UPDATE integrations SET ... WHERE id = ? *)
Definition update_where_id (i : Z) (f : Integration -> Integration) (d : Database) : Database :=
  set_integrations d (map (fun r => if id r =? i then f r else r) (integrations d)).

(** UPDATE integrations SET ... (every row) *)
Definition update_all (f : Integration -> Integration) (d : Database) : Database :=
  set_integrations d (map f (integrations d)).

Definition next_integration_id (d : Database) : Z :=
  1 + fold_right Z.max (integrations_seq d) (map id (integrations d)).

(** The column assignments used by the UPDATE statements of the sources. *)
Definition set_refresh_failures (n : Z) (r : Integration) : Integration :=
  mkIntegration (id r) (account_name r) (account_email r) (jira_domain r) (project_id r)
    (access_token r) (refresh_token r) (expires_at r) (last_refresh_at r)
    n (is_active r) (is_primary r) (created_at r) (updated_at r).

Definition set_is_active (b : bool) (r : Integration) : Integration :=
  mkIntegration (id r) (account_name r) (account_email r) (jira_domain r) (project_id r)
    (access_token r) (refresh_token r) (expires_at r) (last_refresh_at r)
    (refresh_failures r) b (is_primary r) (created_at r) (updated_at r).

Definition set_is_primary (b : bool) (r : Integration) : Integration :=
  mkIntegration (id r) (account_name r) (account_email r) (jira_domain r) (project_id r)
    (access_token r) (refresh_token r) (expires_at r) (last_refresh_at r)
    (refresh_failures r) (is_active r) b (created_at r) (updated_at r).

Definition set_tokens (access refresh : option string) (expires refreshed : Z)
           (r : Integration) : Integration :=
  mkIntegration (id r) (account_name r) (account_email r) (jira_domain r) (project_id r)
    access refresh (Some expires) (Some refreshed)
    0 (is_active r) (is_primary r) (created_at r) (updated_at r).

End Store.
Import Store.

(* ====================================================================== *)
(** * World, environment and the monad of async methods *)
(* ====================================================================== *)

Module Runtime.

(** Body of a token-endpoint reply, read through the three members the
    code uses; a member that is missing is [None]. *)
Record TokenData : Type := mkTokenData {
  td_access_token : option string;
  td_refresh_token : option string;
  td_expires_in : option Z          (* seconds *)
}.

(** What [fetch] resolves to. *)
Record Response (B : Type) : Type := mkResponse {
  status : Z;
  text : string;                    (* response.text() *)
  json : option B                   (* response.json(); [None] when the body is not JSON *)
}.
Arguments mkResponse {B} _ _ _.
Arguments status {B} _.
Arguments text {B} _.
Arguments json {B} _.

(** [response.ok] *)
Definition ok {B : Type} (r : Response B) : bool := (200 <=? status r) && (status r <=? 299).

(** [None]: the promise of [fetch] rejects (no response). *)
Definition Reply (B : Type) : Type := option (Response B).

(** POST https://auth.atlassian.com/oauth/token with grant_type
    refresh_token; client id and secret are constants of the process. *)
Record TokenRequest : Type := mkTokenRequest { rq_refresh_token : option string }.

(** Paths below /rest/api/3 requested by [ComprehensiveJiraSync]. *)
Inductive Endpoint : Type :=
| EProject | EIssueType | EPriority | EStatus | EResolution
| EUsersSearch | EGroupsPicker | EField | ESearchUpdated
| EProjectComponents (project_key : SqlValue)
| EProjectVersions (project_key : SqlValue)
| EWorkflow | EDashboard | EFilterSearch | EPermissions
| ESearchProject (project_key : SqlValue)
| EIssueComment (issue_key : SqlValue)
| EIssueWorklog (issue_key : SqlValue)
| EIssueAttachment (issue_key : SqlValue)
| EIssueLinks (issue_key : SqlValue).

Inductive JiraRequest : Type :=
| Get (accessToken : option string) (cloudId : string) (endpoint : Endpoint)
| SearchJql (accessToken : option string) (cloudId : string)
            (projectKey : string) (maxResults : Z).
    (* POST /rest/api/3/search/jql with body {jql, maxResults, fields} *)

Inductive HttpCall : Type :=
| TokenCall (r : TokenRequest)
| JiraCall (r : JiraRequest).

Record Env : Type := mkEnv {
  clock : nat -> Z;                                        (* the k-th reading of the clock *)
  random : nat -> Z;                                       (* the k-th Math.random() *)
  token_endpoint : nat -> TokenRequest -> Reply TokenData; (* reply to HTTP call number k *)
  jira_api : nat -> JiraRequest -> Reply Json
}.

Record World : Type := mkWorld {
  db : Database;
  clock_reads : nat;
  random_reads : nat;
  http_log : list HttpCall;          (* requests sent, oldest first *)
  isRunning : bool                   (* TokenRefreshScheduler's this.isRunning *)
}.

Inductive JsError : Type :=
| IntegrationNotFound                             (* Error('Integration not found') *)
| NoRefreshToken                                  (* Error('No refresh token available - re-authentication required') *)
| TokenRefreshFailed (status : Z) (text : string) (* Error(`Token refresh failed: ${status} ${text}`) *)
| JiraApiError (status : Z) (text : string)       (* Error(`Jira API error ${status}: ${text}`) *)
| FetchFailed                                     (* fetch rejected *)
| InvalidJson                                     (* response.json() rejected *)
| InvalidTime                                     (* RangeError: Invalid time value *)
| TypeError                                       (* member of null or undefined, value not iterable *)
| SqliteError (fault : SqlFault).

Inductive Outcome (A : Type) : Type :=
| Returned (a : A)
| Thrown (e : JsError).
Arguments Returned {A} _.
Arguments Thrown {A} _.

Definition M (A : Type) : Type := World -> Outcome A * World.

Definition ret {A : Type} (a : A) : M A := fun w => (Returned a, w).

Definition throw {A : Type} (e : JsError) : M A := fun w => (Thrown e, w).

Definition bind {A B : Type} (m : M A) (k : A -> M B) : M B :=
  fun w => match m w with
           | (Returned a, w') => k a w'
           | (Thrown e, w') => (Thrown e, w')
           end.

(** try { m } catch (error) { handler error } *)
Definition try_catch {A : Type} (m : M A) (handler : JsError -> M A) : M A :=
  fun w => match m w with
           | (Returned a, w') => (Returned a, w')
           | (Thrown e, w') => handler e w'
           end.

(** try { m } finally { cleanup } *)
Definition try_finally {A : Type} (m : M A) (cleanup : M unit) : M A :=
  fun w => match m w with
           | (r, w') => match cleanup w' with
                        | (Returned _, w'') => (r, w'')
                        | (Thrown e, w'') => (Thrown e, w'')
                        end
           end.

Declare Scope js_scope.
Delimit Scope js_scope with js.
Notation "x <- m ;; k" := (bind m (fun x => k))
  (at level 61, m at next level, right associativity) : js_scope.
Notation "m ;; k" := (bind m (fun _ => k))
  (at level 61, right associativity) : js_scope.
Local Open Scope js_scope.

(** for (const x of items) { body x } *)
Fixpoint forEach {A : Type} (items : list A) (body : A -> M unit) : M unit :=
  match items with
  | [] => ret tt
  | x :: items' => body x ;; forEach items' body
  end.

(** for (const x of v) { body x } on a JavaScript value *)
Definition forOf (v : Json) (body : Json -> M unit) : M unit :=
  match iterable v with
  | Some items => forEach items body
  | None => throw TypeError
  end.

(** [v.k], which throws when [v] is [null] or [undefined] *)
Definition member (v : Json) (k : string) : M Json :=
  if nullish v then throw TypeError else ret (prop v k).

Definition getDatabase : M Database := fun w => (Returned (db w), w).

Definition setDatabase (d : Database) : M unit :=
  fun w => (Returned tt, mkWorld d (clock_reads w) (random_reads w) (http_log w) (isRunning w)).

Definition getRunning : M bool := fun w => (Returned (isRunning w), w).

Definition setRunning (b : bool) : M unit :=
  fun w => (Returned tt, mkWorld (db w) (clock_reads w) (random_reads w) (http_log w) b).

(** [d.toISOString()] for the date of time value [t] *)
Definition toISOString (t : Z) : M Z :=
  if validTime t then ret t else throw InvalidTime.

Section WithEnv.
Variable env : Env.

(** [Date.now()], [new Date().getTime()] *)
Definition dateNow : M Z :=
  fun w => (Returned (clock env (clock_reads w)),
            mkWorld (db w) (S (clock_reads w)) (random_reads w) (http_log w) (isRunning w)).

(** [Math.random()] *)
Definition mathRandom : M Z :=
  fun w => (Returned (random env (random_reads w)),
            mkWorld (db w) (clock_reads w) (S (random_reads w)) (http_log w) (isRunning w)).

Definition logCall (c : HttpCall) (w : World) : World :=
  mkWorld (db w) (clock_reads w) (random_reads w) (http_log w ++ [c]) (isRunning w).

(** [await fetch('https://auth.atlassian.com/oauth/token', ...)] *)
Definition fetchToken (rq : TokenRequest) : M (Response TokenData) :=
  fun w => match token_endpoint env (List.length (http_log w)) rq with
           | Some r => (Returned r, logCall (TokenCall rq) w)
           | None => (Thrown FetchFailed, logCall (TokenCall rq) w)
           end.

(** [await fetch(url, ...)] against the Jira REST API *)
Definition fetchJira (rq : JiraRequest) : M (Response Json) :=
  fun w => match jira_api env (List.length (http_log w)) rq with
           | Some r => (Returned r, logCall (JiraCall rq) w)
           | None => (Thrown FetchFailed, logCall (JiraCall rq) w)
           end.

(** [await response.json()] *)
Definition responseJson {B : Type} (r : Response B) : M B :=
  match json r with
  | Some b => ret b
  | None => throw InvalidJson
  end.

(** [new Date().toISOString()] as a statement argument *)
Definition isoNow : M SqlValue := t <- dateNow ;; ret (SqlIsoTime t).

End WithEnv.

(** [await db.run(INSERT ...)] on one of the jira_* tables *)
Definition dbInsert (how : ConflictClause) (name : string) (cols : list string)
           (values : list ValueSpec) (args : list SqlValue) : M unit :=
  d <- getDatabase ;;
  match table d name with
  | None => throw (SqliteError (NoSuchTable name))
  | Some t =>
      match insert how cols values args t with
      | inl t' => setDatabase (set_table d name t')
      | inr fault => throw (SqliteError fault)
      end
  end.

(** [await db.all('SELECT c FROM name WHERE integration_id = ?', [i])] *)
Definition dbSelectColumn (name : string) (c : string) (integrationId : Z) : M (list SqlValue) :=
  d <- getDatabase ;;
  match table d name with
  | None => throw (SqliteError (NoSuchTable name))
  | Some t => ret (select_where t "integration_id" (SqlInt integrationId) c)
  end.

End Runtime.
Import Runtime.
Local Open Scope js_scope.

(* ====================================================================== *)
(** * auth-service.js *)
(* ====================================================================== *)

Module JiraAuthService.

(** The object [refreshAccessToken] returns, and [storeTokens] receives. *)
Record Tokens : Type := mkTokens {
  accessToken : option string;
  refreshToken : option string;
  expiresAt : Z
}.

Record AccountInfo : Type := mkAccountInfo {
  accountName : option string;
  accountEmail : option string;
  jiraDomain : option string
}.

Definition bufferTime : Z := 5 * 60 * 1000.

Section WithEnv.
Variable env : Env.

(** needsRefresh(integration) *)
Definition needsRefresh (integration : Integration) : M bool :=
  match expires_at integration with
  | None => ret true                                (* if (!integration.expires_at) return true *)
  | Some expiresAt =>
      now <- dateNow env ;;
      ret (expiresAt <=? now + bufferTime)
  end.

(** storeTokens(projectId, tokens, accountInfo = {}) *)
Definition storeTokens (projectId : string) (tokens : Tokens) (accountInfo : AccountInfo) : M Z :=
  d <- getDatabase ;;
  let count := Z.of_nat (List.length (select_active d)) in
  let isFirstIntegration := count =? 0 in
  refreshed <- dateNow env ;;
  d <- getDatabase ;;
  created <- dateNow env ;;                        (* CURRENT_TIMESTAMP of the two DATETIME defaults *)
  let lastID := next_integration_id d in
  setDatabase
    (mkDatabase
       (integrations d ++
        [mkIntegration lastID
           (text_or (accountName accountInfo) (Some "New Account"))
           (text_or (accountEmail accountInfo) (Some "user@example.com"))
           (text_or (jiraDomain accountInfo) (Some "your-domain.atlassian.net"))
           (Some projectId)
           (accessToken tokens)
           (refreshToken tokens)
           (Some (expiresAt tokens))
           (Some refreshed)
           0
           true
           isFirstIntegration
           created created])
       lastID
       (tables d)) ;;
  ret lastID.

(** refreshAccessToken(integrationId) *)
Definition refreshAccessToken (integrationId : Z) : M Tokens :=
  d <- getDatabase ;;
  match get_active d integrationId with
  | None => throw IntegrationNotFound
  | Some integration =>
      if negb (truthy_text (refresh_token integration)) then throw NoRefreshToken
      else
        response <- fetchToken env (mkTokenRequest (refresh_token integration)) ;;
        if negb (ok response) then
          let errorText := text response in
          d <- getDatabase ;;
          setDatabase
            (update_where_id integrationId
               (fun r => set_refresh_failures (refresh_failures r + 1) r) d) ;;
          throw (TokenRefreshFailed (status response) errorText)
        else
          tokenData <- responseJson response ;;
          match td_expires_in tokenData with
          | None =>                                 (* Date.now() + NaN, then *)
              now1 <- dateNow env ;;
              throw InvalidTime                     (* new Date(NaN).toISOString() *)
          | Some expires_in =>
              let new_refresh := text_or (td_refresh_token tokenData) (refresh_token integration) in
              now1 <- dateNow env ;;
              expires <- toISOString (now1 + expires_in * 1000) ;;
              refreshed <- dateNow env ;;
              d <- getDatabase ;;
              setDatabase
                (update_where_id integrationId
                   (set_tokens (td_access_token tokenData) new_refresh expires refreshed) d) ;;
              now2 <- dateNow env ;;
              expires' <- toISOString (now2 + expires_in * 1000) ;;
              ret (mkTokens (td_access_token tokenData) new_refresh expires')
          end
  end.

(** getActiveIntegrations() *)
Definition getActiveIntegrations : M (list Integration) :=
  d <- getDatabase ;; ret (select_active d).

End WithEnv.

End JiraAuthService.

(* ====================================================================== *)
(** * scheduler.js *)
(* ====================================================================== *)

Module TokenRefreshScheduler.

Section WithEnv.
Variable env : Env.

(** One turn of the [for (const integration of integrations)] loop of
    [refreshAllTokens]; [integration] is the row as the SELECT before the
    loop returned it. *)
Definition refreshOne (integration : Integration) : M unit :=
  try_catch
    (needs <- JiraAuthService.needsRefresh env integration ;;
     if needs
     then (newTokens <- JiraAuthService.refreshAccessToken env (id integration) ;; ret tt)
     else ret tt)
    (fun error =>
       if 3 <=? refresh_failures integration
       then (d <- getDatabase ;;
             setDatabase (update_where_id (id integration) (set_is_active false) d))
       else ret tt).

(** The part of [refreshAllTokens] inside [try { ... }]. *)
Definition refreshCycle : M unit :=
  d <- getDatabase ;;
  let integrations := select_active d in
  forEach integrations refreshOne.

(** The guard around a cycle: [if (this.isRunning) return;
    this.isRunning = true; try { cycle } catch (error) { log }
    finally { this.isRunning = false }]. *)
Definition guarded (cycle : M unit) : M unit :=
  running <- getRunning ;;
  if running then ret tt
  else
    setRunning true ;;
    try_finally (try_catch cycle (fun error => ret tt)) (setRunning false).

(** refreshAllTokens() *)
Definition refreshAllTokens : M unit := guarded refreshCycle.

End WithEnv.

End TokenRefreshScheduler.

(* ====================================================================== *)
(** * web-server.js: the account routes *)
(* ====================================================================== *)

Module WebServer.

(** POST /api/accounts/:id/set-primary, first statement:
    UPDATE integrations SET is_primary = 0 *)
Definition clearPrimary : M unit :=
  d <- getDatabase ;; setDatabase (update_all (set_is_primary false) d).

(** second statement: UPDATE integrations SET is_primary = 1 WHERE id = ? *)
Definition markPrimary (i : Z) : M unit :=
  d <- getDatabase ;; setDatabase (update_where_id i (set_is_primary true) d).

(** POST /api/accounts/:id/set-primary *)
Definition setPrimary (i : Z) : M unit := clearPrimary ;; markPrimary i.

(** DELETE /api/accounts/:id: UPDATE integrations SET is_active = 0 WHERE id = ? *)
Definition deactivateAccount (i : Z) : M unit :=
  d <- getDatabase ;; setDatabase (update_where_id i (set_is_active false) d).

End WebServer.

(* ====================================================================== *)
(** * jira-api.js *)
(* ====================================================================== *)

Module JiraApiService.

(** [issues.length], when it is a number *)
Definition js_length (v : Json) : option Z :=
  match v with
  | JArr items => Some (Z.of_nat (List.length items))
  | JStr s => Some (Z.of_nat (String.length s))
  | _ => None
  end.

(** [c ? v.k : null] *)
Definition member_or_null (c : Json) (k : string) : Json :=
  if truthy c then prop c k else JNull.

Section WithEnv.
Variable env : Env.
Variable accessToken : option string.       (* this.accessToken *)

(** getIssues(cloudId, projectKey, startAt = 0, maxResults = 50): the body
    posted is {jql, maxResults, fields}. *)
Definition getIssues (cloudId projectKey : string) (startAt maxResults : Z) : M Json :=
  response <- fetchJira env (SearchJql accessToken cloudId projectKey maxResults) ;;
  if negb (ok response)
  then throw (JiraApiError (status response) (text response))
  else responseJson response.

(** The body of [for (const issue of issues)] in [syncIssuesToDatabase]. *)
Definition storeIssue (integrationId projectId : Z) (issue : Json) : M unit :=
  fields <- member issue "fields" ;;
  assignee <- member fields "assignee" ;;
  let assigneeName := member_or_null assignee "displayName" in
  let assigneeEmail := member_or_null assignee "emailAddress" in
  let epicLink := prop fields "customfield_10014" in
  let epicKey := or_else epicLink JNull in
  let epicName := JNull in
  let storyPoints := or_else (prop fields "customfield_10016") JNull in
  let status := member_or_null (prop fields "status") "name" in
  let issueType := member_or_null (prop fields "issuetype") "name" in
  now <- isoNow env ;;
  dbInsert
    (DoUpdate ["integration_id"; "issue_key"]
              ["project_id"; "issue_id"; "summary"; "assignee_account_id";
               "assignee_display_name"; "assignee_email"; "epic_key"; "epic_name";
               "story_points"; "status_name"; "issue_type_name"; "updated_at"])
    "jira_issues"
    ["integration_id"; "project_id"; "issue_key"; "issue_id"; "summary";
     "assignee_account_id"; "assignee_display_name"; "assignee_email";
     "epic_key"; "epic_name"; "story_points"; "status_name"; "issue_type_name";
     "updated_at"]
    (placeholders 14)
    [SqlInt integrationId;
     SqlInt projectId;
     bindParam (prop issue "key");
     bindParam (prop issue "id");
     bindParam (prop fields "summary");
     bindParam (or_else (opt_prop assignee "accountId") JNull);
     bindParam assigneeName;
     bindParam assigneeEmail;
     bindParam epicKey;
     bindParam epicName;
     bindParam storyPoints;
     bindParam status;
     bindParam issueType;
     now].

Definition maxResults : Z := 100.

(** The [while (true)] loop of [syncIssuesToDatabase], at most [fuel]
    turns of it: [Some total] when the loop was left by a [break], [None]
    when it was still going after [fuel] turns. *)
Fixpoint syncLoop (fuel : nat) (integrationId projectId : Z) (cloudId projectKey : string)
         (startAt totalIssues : Z) : M (option Z) :=
  match fuel with
  | O => ret None
  | S fuel' =>
      issuesData <- getIssues cloudId projectKey startAt maxResults ;;
      found <- member issuesData "issues" ;;
      let issues := or_else found (JArr []) in
      match js_length issues with
      | Some 0 => ret (Some totalIssues)                       (* if (issues.length === 0) break *)
      | _ =>
          forOf issues (storeIssue integrationId projectId) ;;
          match js_length issues with
          | None => throw TypeError                            (* not reached: the loop above threw *)
          | Some n =>
              let totalIssues := totalIssues + n in
              let startAt := startAt + maxResults in
              if n <? maxResults then ret (Some totalIssues)   (* if (issues.length < maxResults) break *)
              else syncLoop fuel' integrationId projectId cloudId projectKey startAt totalIssues
          end
      end
  end.

(** syncIssuesToDatabase(integrationId, projectId, cloudId, projectKey) *)
Definition syncIssuesToDatabase (fuel : nat) (integrationId projectId : Z)
           (cloudId projectKey : string) : M (option Z) :=
  syncLoop fuel integrationId projectId cloudId projectKey 0 0.

End WithEnv.

End JiraApiService.

(* ====================================================================== *)
(** * comprehensive-sync.js *)
(* ====================================================================== *)

Module ComprehensiveJiraSync.

(** [JSON.stringify(v)] as a statement argument *)
Definition stringify (v : Json) : SqlValue := SqlJsonText v.

(** [v || null], [v || false], [v || {}], [v || []] *)
Definition orNull (v : Json) : Json := or_else v JNull.
Definition orFalse (v : Json) : Json := or_else v (JBool false).
Definition orObject (v : Json) : Json := or_else v (JObj []).
Definition orArray (v : Json) : Json := or_else v (JArr []).

Section WithEnv.
Variable env : Env.
Variable accessToken : option string.       (* this.accessToken *)
Variable cloudId : string.                  (* this.cloudId *)

(** makeRequest(endpoint) *)
Definition makeRequest (endpoint : Endpoint) : M Json :=
  response <- fetchJira env (Get accessToken cloudId endpoint) ;;
  if negb (ok response)
  then throw (JiraApiError (status response) (text response))
  else responseJson response.

(** INSERT OR REPLACE INTO name (cols) VALUES (?, ..., ?) *)
Definition insertOrReplace (name : string) (cols : list string) (n : nat)
           (args : list SqlValue) : M unit :=
  dbInsert OrReplace name cols (placeholders n) args.

Definition syncProjects (integrationId : Z) : M unit :=
  projects <- makeRequest EProject ;;
  forOf projects (fun project =>
    key <- member project "key" ;;
    now <- isoNow env ;;
    insertOrReplace "jira_projects"
      ["integration_id"; "project_key"; "project_name"; "project_id"; "project_type";
       "description"; "lead_account_id"; "lead_display_name"; "url"; "avatar_urls";
       "project_category"; "is_private"; "raw_data"; "updated_at"]
      14
      [SqlInt integrationId;
       bindParam key;
       bindParam (prop project "name");
       bindParam (prop project "id");
       bindParam (prop project "projectTypeKey");
       bindParam (orNull (prop project "description"));
       bindParam (orNull (opt_prop (prop project "lead") "accountId"));
       bindParam (orNull (opt_prop (prop project "lead") "displayName"));
       bindParam (prop project "self");
       stringify (orObject (prop project "avatarUrls"));
       stringify (orObject (prop project "projectCategory"));
       bindParam (orFalse (prop project "isPrivate"));
       stringify project;
       now]).

Definition syncIssueTypes (integrationId : Z) : M unit :=
  issueTypes <- makeRequest EIssueType ;;
  forOf issueTypes (fun issueType =>
    i <- member issueType "id" ;;
    now <- isoNow env ;;
    insertOrReplace "jira_issue_types"
      ["integration_id"; "issue_type_id"; "name"; "description"; "icon_url";
       "subtask"; "raw_data"; "updated_at"]
      8
      [SqlInt integrationId;
       bindParam i;
       bindParam (prop issueType "name");
       bindParam (orNull (prop issueType "description"));
       bindParam (orNull (prop issueType "iconUrl"));
       bindParam (orFalse (prop issueType "subtask"));
       stringify issueType;
       now]).

Definition syncPriorities (integrationId : Z) : M unit :=
  priorities <- makeRequest EPriority ;;
  forOf priorities (fun priority =>
    i <- member priority "id" ;;
    now <- isoNow env ;;
    insertOrReplace "jira_priorities"
      ["integration_id"; "priority_id"; "name"; "description"; "icon_url";
       "status_color"; "raw_data"; "updated_at"]
      8
      [SqlInt integrationId;
       bindParam i;
       bindParam (prop priority "name");
       bindParam (orNull (prop priority "description"));
       bindParam (orNull (prop priority "iconUrl"));
       bindParam (orNull (prop priority "statusColor"));
       stringify priority;
       now]).

Definition syncStatuses (integrationId : Z) : M unit :=
  statuses <- makeRequest EStatus ;;
  forOf statuses (fun status =>
    i <- member status "id" ;;
    now <- isoNow env ;;
    insertOrReplace "jira_statuses"
      ["integration_id"; "status_id"; "name"; "description"; "icon_url";
       "status_category"; "raw_data"; "updated_at"]
      8
      [SqlInt integrationId;
       bindParam i;
       bindParam (prop status "name");
       bindParam (orNull (prop status "description"));
       bindParam (orNull (prop status "iconUrl"));
       stringify (orObject (prop status "statusCategory"));
       stringify status;
       now]).

Definition syncResolutions (integrationId : Z) : M unit :=
  resolutions <- makeRequest EResolution ;;
  forOf resolutions (fun resolution =>
    i <- member resolution "id" ;;
    now <- isoNow env ;;
    insertOrReplace "jira_resolutions"
      ["integration_id"; "resolution_id"; "name"; "description"; "raw_data"; "updated_at"]
      6
      [SqlInt integrationId;
       bindParam i;
       bindParam (prop resolution "name");
       bindParam (orNull (prop resolution "description"));
       stringify resolution;
       now]).

Definition syncUsers (integrationId : Z) : M unit :=
  try_catch
    (users <- makeRequest EUsersSearch ;;
     forOf users (fun user =>
       i <- member user "accountId" ;;
       now <- isoNow env ;;
       insertOrReplace "jira_users"
         ["integration_id"; "account_id"; "display_name"; "email_address"; "active";
          "time_zone"; "locale"; "avatar_urls"; "raw_data"; "updated_at"]
         10
         [SqlInt integrationId;
          bindParam i;
          bindParam (prop user "displayName");
          bindParam (orNull (prop user "emailAddress"));
          bindParam (orFalse (prop user "active"));
          bindParam (orNull (prop user "timeZone"));
          bindParam (orNull (prop user "locale"));
          stringify (orObject (prop user "avatarUrls"));
          stringify user;
          now]))
    (fun error => ret tt).

Definition syncGroups (integrationId : Z) : M unit :=
  try_catch
    (groups <- makeRequest EGroupsPicker ;;
     found <- member groups "groups" ;;
     forOf (orArray found) (fun group =>
       i <- member group "groupId" ;;
       now <- isoNow env ;;
       insertOrReplace "jira_groups"
         ["integration_id"; "group_id"; "name"; "raw_data"; "updated_at"]
         5
         [SqlInt integrationId;
          bindParam i;
          bindParam (prop group "name");
          stringify group;
          now]))
    (fun error => ret tt).

Definition syncIssueFields (integrationId : Z) : M unit :=
  fields <- makeRequest EField ;;
  forOf fields (fun field =>
    i <- member field "id" ;;
    now <- isoNow env ;;
    insertOrReplace "jira_fields"
      ["integration_id"; "field_id"; "name"; "field_type"; "description";
       "is_custom"; "is_system"; "raw_data"; "updated_at"]
      9
      [SqlInt integrationId;
       bindParam i;
       bindParam (prop field "name");
       bindParam (or_else (opt_prop (prop field "schema") "type") (JStr "unknown"));
       bindParam (orNull (prop field "description"));
       bindParam (orFalse (prop field "custom"));
       bindParam (orFalse (JBool (negb (truthy (prop field "custom")))));
       stringify field;
       now]).

(** The two nested loops of [syncLabels] that fill [labelSet]. *)
Fixpoint addLabels (labels : list Json) (labelSet : list Json) : list Json :=
  match labels with
  | [] => labelSet
  | label :: labels' => addLabels labels' (set_add label labelSet)
  end.

Fixpoint collectLabels (issues : list Json) (labelSet : list Json) : M (list Json) :=
  match issues with
  | [] => ret labelSet
  | issue :: issues' =>
      fields <- member issue "fields" ;;
      if truthy (opt_prop fields "labels")
      then match iterable (prop fields "labels") with
           | Some labels => collectLabels issues' (addLabels labels labelSet)
           | None => throw TypeError
           end
      else collectLabels issues' labelSet
  end.

Definition syncLabels (integrationId : Z) : M unit :=
  try_catch
    (issues <- makeRequest ESearchUpdated ;;
     found <- member issues "issues" ;;
     match iterable (orArray found) with
     | None => throw TypeError
     | Some list =>
         labelSet <- collectLabels list [] ;;
         forEach labelSet (fun label =>
           now <- isoNow env ;;
           dbInsert OrReplace "jira_labels"
             ["integration_id"; "label_name"; "usage_count"; "updated_at"]
             [Placeholder; Placeholder; Literal (SqlInt 1); Placeholder]
             [SqlInt integrationId; bindParam label; now])
     end)
    (fun error => ret tt).

Definition syncComponents (integrationId : Z) : M unit :=
  projects <- dbSelectColumn "jira_projects" "project_key" integrationId ;;
  forEach projects (fun project_key =>
    try_catch
      (components <- makeRequest (EProjectComponents project_key) ;;
       forOf components (fun component =>
         i <- member component "id" ;;
         now <- isoNow env ;;
         insertOrReplace "jira_components"
           ["integration_id"; "component_id"; "name"; "description"; "project_key";
            "lead_account_id"; "assignee_type"; "raw_data"; "updated_at"]
           9
           [SqlInt integrationId;
            bindParam i;
            bindParam (prop component "name");
            bindParam (orNull (prop component "description"));
            project_key;
            bindParam (orNull (opt_prop (prop component "lead") "accountId"));
            bindParam (orNull (prop component "assigneeType"));
            stringify component;
            now]))
      (fun error => ret tt)).

Definition syncVersions (integrationId : Z) : M unit :=
  projects <- dbSelectColumn "jira_projects" "project_key" integrationId ;;
  forEach projects (fun project_key =>
    try_catch
      (versions <- makeRequest (EProjectVersions project_key) ;;
       forOf versions (fun version =>
         i <- member version "id" ;;
         now <- isoNow env ;;
         insertOrReplace "jira_versions"
           ["integration_id"; "version_id"; "name"; "description"; "project_key";
            "archived"; "released"; "release_date"; "raw_data"; "updated_at"]
           10
           [SqlInt integrationId;
            bindParam i;
            bindParam (prop version "name");
            bindParam (orNull (prop version "description"));
            project_key;
            bindParam (orFalse (prop version "archived"));
            bindParam (orFalse (prop version "released"));
            bindParam (orNull (prop version "releaseDate"));
            stringify version;
            now]))
      (fun error => ret tt)).

Definition syncWorkflows (integrationId : Z) : M unit :=
  try_catch
    (workflows <- makeRequest EWorkflow ;;
     forOf (orArray workflows) (fun workflow =>
       i <- member workflow "id" ;;
       workflowId <- (if truthy i then ret (bindParam i)
                      else (t <- dateNow env ;; r <- mathRandom env ;; ret (SqlGenerated t r))) ;;
       now <- isoNow env ;;
       insertOrReplace "jira_workflows"
         ["integration_id"; "workflow_id"; "name"; "description"; "raw_data"; "updated_at"]
         6
         [SqlInt integrationId;
          workflowId;
          bindParam (or_else (prop workflow "name") (JStr "Unknown Workflow"));
          bindParam (orNull (prop workflow "description"));
          stringify workflow;
          now]))
    (fun error => ret tt).

Definition syncDashboards (integrationId : Z) : M unit :=
  try_catch
    (dashboards <- makeRequest EDashboard ;;
     found <- member dashboards "dashboards" ;;
     forOf (orArray found) (fun dashboard =>
       i <- member dashboard "id" ;;
       now <- isoNow env ;;
       insertOrReplace "jira_dashboards"
         ["integration_id"; "dashboard_id"; "name"; "description"; "owner_account_id";
          "share_permissions"; "raw_data"; "updated_at"]
         8
         [SqlInt integrationId;
          bindParam i;
          bindParam (prop dashboard "name");
          bindParam (orNull (prop dashboard "description"));
          bindParam (orNull (opt_prop (prop dashboard "owner") "accountId"));
          stringify (orArray (prop dashboard "sharePermissions"));
          stringify dashboard;
          now]))
    (fun error => ret tt).

Definition syncFilters (integrationId : Z) : M unit :=
  try_catch
    (filters <- makeRequest EFilterSearch ;;
     filterList <- (if isArray filters then ret filters
                    else (found <- member filters "filters" ;; ret (orArray found))) ;;
     forOf filterList (fun filter =>
       i <- member filter "id" ;;
       now <- isoNow env ;;
       insertOrReplace "jira_filters"
         ["integration_id"; "filter_id"; "name"; "description"; "jql"; "owner_account_id";
          "view_url"; "search_url"; "raw_data"; "updated_at"]
         10
         [SqlInt integrationId;
          bindParam i;
          bindParam (prop filter "name");
          bindParam (orNull (prop filter "description"));
          bindParam (orNull (prop filter "jql"));
          bindParam (orNull (opt_prop (prop filter "owner") "accountId"));
          bindParam (orNull (prop filter "viewUrl"));
          bindParam (orNull (prop filter "searchUrl"));
          stringify filter;
          now]))
    (fun error => ret tt).

Definition syncPermissions (integrationId : Z) : M unit :=
  try_catch
    (permissions <- makeRequest EPermissions ;;
     permissionList <- (if isArray permissions then ret permissions
                        else (found <- member permissions "permissions" ;;
                              ret (orArray found))) ;;
     forOf permissionList (fun permission =>
       i <- member permission "id" ;;
       now <- isoNow env ;;
       insertOrReplace "jira_permissions"
         ["integration_id"; "permission_id"; "name"; "type"; "description";
          "have_permission"; "raw_data"; "updated_at"]
         8
         [SqlInt integrationId;
          bindParam i;
          bindParam (prop permission "name");
          bindParam (orNull (prop permission "type"));
          bindParam (orNull (prop permission "description"));
          bindParam (orFalse (prop permission "havePermission"));
          stringify permission;
          now]))
    (fun error => ret tt).

(** The body of [for (const issue of issues.issues || [])] in
    [syncIssuesComprehensive]. *)
Definition storeIssueComprehensive (integrationId : Z) (project_key : SqlValue)
           (issue : Json) : M unit :=
  fields <- member issue "fields" ;;
  assignee0 <- member fields "assignee" ;;
  let assignee := orNull assignee0 in
  let reporter := orNull (prop fields "reporter") in
  let epicLink := prop fields "customfield_10014" in
  let storyPoints := prop fields "customfield_10016" in
  let status := prop fields "status" in
  let priority := prop fields "priority" in
  let issueType := prop fields "issuetype" in
  let resolution := prop fields "resolution" in
  let labels := orArray (prop fields "labels") in
  let components := orArray (prop fields "components") in
  let fixVersions := orArray (prop fields "fixVersions") in
  let versions := orArray (prop fields "versions") in
  let parent := prop fields "parent" in
  let subtasks := orArray (prop fields "subtasks") in
  let issuelinks := orArray (prop fields "issuelinks") in
  let worklog := prop fields "worklog" in
  let comments := prop fields "comment" in
  let attachments := orArray (prop fields "attachment") in
  now <- isoNow env ;;
  insertOrReplace "jira_issues"
    ["integration_id"; "project_id"; "issue_key"; "issue_id"; "summary";
     "description"; "assignee_account_id"; "assignee_display_name"; "assignee_email";
     "reporter_account_id"; "reporter_display_name"; "reporter_email";
     "epic_key"; "epic_name"; "story_points"; "status_name"; "status_id";
     "priority_name"; "priority_id"; "issue_type_name"; "issue_type_id";
     "resolution_name"; "resolution_id"; "labels"; "components"; "fix_versions";
     "versions"; "parent_key"; "subtasks"; "issuelinks"; "worklog"; "comments";
     "attachments"; "created"; "updated"; "raw_data"; "updated_at"]
    38                                   (* the VALUES list has 38 question marks *)
    [SqlInt integrationId;
     project_key;
     bindParam (prop issue "key");
     bindParam (prop issue "id");
     bindParam (prop fields "summary");
     stringify (orObject (prop fields "description"));
     bindParam (orNull (opt_prop assignee "accountId"));
     bindParam (orNull (opt_prop assignee "displayName"));
     bindParam (orNull (opt_prop assignee "emailAddress"));
     bindParam (orNull (opt_prop reporter "accountId"));
     bindParam (orNull (opt_prop reporter "displayName"));
     bindParam (orNull (opt_prop reporter "emailAddress"));
     bindParam (orNull epicLink);
     SqlNull;
     bindParam (orNull storyPoints);
     bindParam (orNull (opt_prop status "name"));
     bindParam (orNull (opt_prop status "id"));
     bindParam (orNull (opt_prop priority "name"));
     bindParam (orNull (opt_prop priority "id"));
     bindParam (orNull (opt_prop issueType "name"));
     bindParam (orNull (opt_prop issueType "id"));
     bindParam (orNull (opt_prop resolution "name"));
     bindParam (orNull (opt_prop resolution "id"));
     stringify labels;
     stringify components;
     stringify fixVersions;
     stringify versions;
     bindParam (orNull (opt_prop parent "key"));
     stringify subtasks;
     stringify issuelinks;
     stringify (orObject worklog);
     stringify (orObject comments);
     stringify attachments;
     bindParam (orNull (prop fields "created"));
     bindParam (orNull (prop fields "updated"));
     stringify issue;
     now].

Definition syncIssuesComprehensive (integrationId : Z) : M unit :=
  projects <- dbSelectColumn "jira_projects" "project_key" integrationId ;;
  forEach projects (fun project_key =>
    try_catch
      (issues <- makeRequest (ESearchProject project_key) ;;
       found <- member issues "issues" ;;
       forOf (orArray found) (storeIssueComprehensive integrationId project_key))
      (fun error => ret tt)).

Definition syncIssueComments (integrationId : Z) : M unit :=
  issues <- dbSelectColumn "jira_issues" "issue_key" integrationId ;;
  forEach issues (fun issue_key =>
    try_catch
      (comments <- makeRequest (EIssueComment issue_key) ;;
       found <- member comments "comments" ;;
       forOf (orArray found) (fun comment =>
         i <- member comment "id" ;;
         now <- isoNow env ;;
         insertOrReplace "jira_comments"
           ["integration_id"; "comment_id"; "issue_key"; "author_account_id";
            "author_display_name"; "body"; "created"; "updated"; "raw_data"; "updated_at"]
           10
           [SqlInt integrationId;
            bindParam i;
            issue_key;
            bindParam (orNull (opt_prop (prop comment "author") "accountId"));
            bindParam (orNull (opt_prop (prop comment "author") "displayName"));
            stringify (orObject (prop comment "body"));
            bindParam (orNull (prop comment "created"));
            bindParam (orNull (prop comment "updated"));
            stringify comment;
            now]))
      (fun error => ret tt)).

Definition syncIssueWorklogs (integrationId : Z) : M unit :=
  issues <- dbSelectColumn "jira_issues" "issue_key" integrationId ;;
  forEach issues (fun issue_key =>
    try_catch
      (worklogs <- makeRequest (EIssueWorklog issue_key) ;;
       found <- member worklogs "worklogs" ;;
       forOf (orArray found) (fun worklog =>
         i <- member worklog "id" ;;
         now <- isoNow env ;;
         insertOrReplace "jira_worklogs"
           ["integration_id"; "worklog_id"; "issue_key"; "author_account_id";
            "author_display_name"; "comment"; "time_spent"; "time_spent_seconds";
            "started"; "created"; "updated"; "raw_data"; "updated_at"]
           13
           [SqlInt integrationId;
            bindParam i;
            issue_key;
            bindParam (orNull (opt_prop (prop worklog "author") "accountId"));
            bindParam (orNull (opt_prop (prop worklog "author") "displayName"));
            stringify (orObject (prop worklog "comment"));
            bindParam (orNull (prop worklog "timeSpent"));
            bindParam (orNull (prop worklog "timeSpentSeconds"));
            bindParam (orNull (prop worklog "started"));
            bindParam (orNull (prop worklog "created"));
            bindParam (orNull (prop worklog "updated"));
            stringify worklog;
            now]))
      (fun error => ret tt)).

Definition syncIssueAttachments (integrationId : Z) : M unit :=
  issues <- dbSelectColumn "jira_issues" "issue_key" integrationId ;;
  forEach issues (fun issue_key =>
    try_catch
      (attachments <- makeRequest (EIssueAttachment issue_key) ;;
       fields <- member attachments "fields" ;;
       forOf (orArray (opt_prop fields "attachment")) (fun attachment =>
         i <- member attachment "id" ;;
         now <- isoNow env ;;
         insertOrReplace "jira_attachments"
           ["integration_id"; "attachment_id"; "issue_key"; "filename";
            "author_account_id"; "author_display_name"; "created"; "size";
            "mime_type"; "content_url"; "raw_data"; "updated_at"]
           12
           [SqlInt integrationId;
            bindParam i;
            issue_key;
            bindParam (prop attachment "filename");
            bindParam (orNull (opt_prop (prop attachment "author") "accountId"));
            bindParam (orNull (opt_prop (prop attachment "author") "displayName"));
            bindParam (orNull (prop attachment "created"));
            bindParam (orNull (prop attachment "size"));
            bindParam (orNull (prop attachment "mimeType"));
            bindParam (orNull (prop attachment "content"));
            stringify attachment;
            now]))
      (fun error => ret tt)).

Definition syncIssueLinks (integrationId : Z) : M unit :=
  issues <- dbSelectColumn "jira_issues" "issue_key" integrationId ;;
  forEach issues (fun issue_key =>
    try_catch
      (links <- makeRequest (EIssueLinks issue_key) ;;
       fields <- member links "fields" ;;
       forOf (orArray (opt_prop fields "issuelinks")) (fun link =>
         i <- member link "id" ;;
         now <- isoNow env ;;
         insertOrReplace "jira_issue_links"
           ["integration_id"; "link_id"; "issue_key"; "outward_issue_key";
            "inward_issue_key"; "link_type_id"; "link_type_name"; "raw_data"; "updated_at"]
           9
           [SqlInt integrationId;
            bindParam i;
            issue_key;
            bindParam (orNull (opt_prop (prop link "outwardIssue") "key"));
            bindParam (orNull (opt_prop (prop link "inwardIssue") "key"));
            bindParam (orNull (opt_prop (prop link "type") "id"));
            bindParam (orNull (opt_prop (prop link "type") "name"));
            stringify link;
            now]))
      (fun error => ret tt)).

(** syncAllData(integrationId) *)
Definition syncAllData (integrationId : Z) : M unit :=
  try_catch
    (syncProjects integrationId ;;
     syncIssueTypes integrationId ;;
     syncPriorities integrationId ;;
     syncStatuses integrationId ;;
     syncResolutions integrationId ;;
     syncUsers integrationId ;;
     syncGroups integrationId ;;
     syncIssueFields integrationId ;;
     syncLabels integrationId ;;
     syncComponents integrationId ;;
     syncVersions integrationId ;;
     syncWorkflows integrationId ;;
     syncDashboards integrationId ;;
     syncFilters integrationId ;;
     syncPermissions integrationId ;;
     syncIssuesComprehensive integrationId ;;
     syncIssueComments integrationId ;;
     syncIssueWorklogs integrationId ;;
     syncIssueAttachments integrationId ;;
     syncIssueLinks integrationId)
    (fun error => throw error).

End WithEnv.

End ComprehensiveJiraSync.

(* ====================================================================== *)
(** * Concrete scenarios used by the examples below *)
(* ====================================================================== *)

Module Scenario.

(** 2025-01-01T00:00:00.000Z *)
Definition t0 : Z := 1735689600000.

(** An account as [storeTokens] leaves it, with the given id, refresh
    token, expiry, failure counter and flags. *)
Definition account (i : Z) (refresh : option string) (expires : option Z)
           (failures : Z) (active primary : bool) : Integration :=
  mkIntegration i (Some "New Jira Account") (Some "user@example.com")
    (Some "your-domain.atlassian.net") (Some "web-auth")
    (Some "access-0") refresh expires (Some t0) failures active primary t0 t0.

(** The primary account [i], holding a refresh token and an access token
    that expires one minute after [t0]. *)
Definition due (i : Z) (failures : Z) (active : bool) : Integration :=
  account i (Some "refresh-0") (Some (t0 + 60000)) failures active true.

Definition world_of (l : list Integration) : World :=
  mkWorld (mkDatabase l (Z.of_nat (List.length l)) (tables initDatabase)) 0 0 [] false.

(** The clock stands at [t0]; the token endpoint answers every request
    with the given reply; the Jira API is unreachable. *)
Definition env_of (reply : Reply TokenData) : Env :=
  mkEnv (fun _ => t0) (fun _ => 0) (fun _ _ => reply) (fun _ _ => None).

Definition unauthorized : Reply TokenData :=
  Some (mkResponse 401 "unauthorized_client" None).

Definition granted (refresh : option string) : Reply TokenData :=
  Some (mkResponse 200 "" (Some (mkTokenData (Some "access-1") refresh (Some 3600)))).

(** The clock stands at [t0]; the Jira API answers a request by [api],
    whatever was asked before; no token is ever granted. *)
Definition jira_env (api : JiraRequest -> Reply Json) : Env :=
  mkEnv (fun _ => t0) (fun _ => 0) (fun _ _ => None) (fun _ => api).

Definition endpoint_of (rq : JiraRequest) : option Endpoint :=
  match rq with
  | Get _ _ e => Some e
  | SearchJql _ _ _ _ => None
  end.

Definition found (body : Json) : Reply Json := Some (mkResponse 200 "" (Some body)).

Definition forbidden : Reply Json := Some (mkResponse 403 "Forbidden" None).

Definition high : Json := JObj [("id", JStr "1"); ("name", JStr "High")].

(** A Jira site with no data at all, except one priority, whose
    /priority endpoint is forbidden or not. *)
Definition site (priority_allowed : bool) (rq : JiraRequest) : Reply Json :=
  match endpoint_of rq with
  | Some EPriority => if priority_allowed then found (JArr [high]) else forbidden
  | Some EGroupsPicker => forbidden
  | _ => found (JArr [])
  end.

(** [d], its table [name] declared with UNIQUE(cols). *)
Definition with_unique (name : string) (cols : list string) (d : Database) : Database :=
  match table d name with
  | Some t => set_table d name (mkTable (columns t) (cols :: uniques t) (rows t) (seq t))
  | None => d
  end.

Definition new_world (d : Database) : World := mkWorld d 0 0 [] false.

Definition issue_no (k : nat) : Json :=
  JObj [("key", JStr ("P-" ++ NilEmpty.string_of_uint (Nat.to_uint k)));
        ("id", JNum (Z.of_nat k));
        ("fields", JObj [("summary", JStr "s"); ("assignee", JNull)])].

Definition page (first count : nat) : Json :=
  JObj [("issues", JArr (map issue_no (List.seq first count)))].

(** An issue search that answers the first request with 100 issues, the
    second with 37 and any later one with none. *)
Definition two_pages : Env :=
  mkEnv (fun _ => t0) (fun _ => 0) (fun _ _ => None)
        (fun k _ => match k with
                    | O => found (page 0 100)
                    | S O => found (page 100 37)
                    | _ => found (page 0 0)
                    end).

(** An issue search that answers by the request alone: every request for
    the project gets its first 100 issues. *)
Definition by_request : Env := jira_env (fun _ => found (page 0 100)).

(** The database [initDatabase] creates, with the unique index that the
    upsert of [syncIssuesToDatabase] names. *)
Definition indexed : Database :=
  with_unique "jira_issues" ["integration_id"; "issue_key"] initDatabase.

(** [indexed] after the first 100 issues of project P were stored for
    integration 1 at [t0]. *)
Definition indexed_full : Database :=
  db (snd (forOf (JArr (map issue_no (List.seq 0 100)))
                 (JiraApiService.storeIssue by_request 1 1)
                 (new_world indexed))).

(** A site with one project, P, that has one issue. *)
Definition one_issue (rq : JiraRequest) : Reply Json :=
  match endpoint_of rq with
  | Some EProject => found (JArr [JObj [("key", JStr "P"); ("name", JStr "Project")]])
  | Some (ESearchProject _) => found (page 1 1)
  | _ => found (JArr [])
  end.

End Scenario.

(* ====================================================================== *)
(** * Vocabulary of the statements *)
(* ====================================================================== *)

Module Vocabulary.

(** The request [refreshAccessToken] sends for the row [integration]. *)
Definition refresh_call (integration : Integration) : HttpCall :=
  TokenCall (mkTokenRequest (refresh_token integration)).

(** The failure-counter statement of the [!response.ok] branch:
    UPDATE integrations SET refresh_failures = refresh_failures + 1 WHERE id = ? *)
Definition count_failure (i : Z) (d : Database) : Database :=
  update_where_id i (fun r => set_refresh_failures (refresh_failures r + 1) r) d.

(** The world in which a granted refresh ends: the UPDATE of the success
    branch done with the first two clock readings, a third reading taken
    for the returned object, the request appended to the trace. *)
Definition refreshed_world (env : Env) (w : World) (integrationId : Z)
           (integration : Integration) (tokenData : TokenData) (expires_in : Z) : World :=
  mkWorld
    (update_where_id integrationId
       (set_tokens (td_access_token tokenData)
                   (text_or (td_refresh_token tokenData) (refresh_token integration))
                   (clock env (clock_reads w) + expires_in * 1000)
                   (clock env (S (clock_reads w))))
       (db w))
    (S (S (S (clock_reads w)))) (random_reads w)
    (http_log w ++ [refresh_call integration]) (isRunning w).

(** The first row of [integrations] with the given id. *)
Definition row_of (d : Database) (i : Z) : option Integration :=
  find (fun r => id r =? i) (integrations d).

(** [new] is [old] with [delta] added to [refresh_failures] and every
    other column as it was. *)
Definition same_but_failures (delta : Z) (old new : Integration) : Prop :=
  refresh_failures new = refresh_failures old + delta /\
  id new = id old /\
  account_name new = account_name old /\
  account_email new = account_email old /\
  jira_domain new = jira_domain old /\
  project_id new = project_id old /\
  access_token new = access_token old /\
  refresh_token new = refresh_token old /\
  expires_at new = expires_at old /\
  last_refresh_at new = last_refresh_at old /\
  is_active new = is_active old /\
  is_primary new = is_primary old /\
  created_at new = created_at old /\
  updated_at new = updated_at old.

(** [w] with the scheduler's flag set to [b]. *)
Definition with_running (b : bool) (w : World) : World :=
  mkWorld (db w) (clock_reads w) (random_reads w) (http_log w) b.

(** Every row of the account [i] has its active flag cleared. *)
Definition deactivated (i : Z) (d : Database) : Prop :=
  forall r, In r (integrations d) -> id r = i -> is_active r = false.

(** The token endpoint grants nothing: whatever it answers is not ok. *)
Definition never_granted (env : Env) : Prop :=
  forall k rq response, token_endpoint env k rq = Some response -> ok response = false.

(** [needsRefresh] holds for the row at every reading of the clock. *)
Definition always_due (env : Env) (r : Integration) : Prop :=
  match expires_at r with
  | None => True
  | Some e => forall k, e <= clock env k + JiraAuthService.bufferTime
  end.

(** [n] refresh cycles, one after the other. *)
Fixpoint cycles (env : Env) (n : nat) (w : World) : World :=
  match n with
  | O => w
  | S n' => cycles env n' (snd (TokenRefreshScheduler.refreshAllTokens env w))
  end.

(** An account that is both active and primary. *)
Definition active_primary (r : Integration) : bool := is_active r && is_primary r.

(** At most one account is primary among the active ones. *)
Definition at_most_one_primary (d : Database) : Prop :=
  (List.length (filter active_primary (integrations d)) <= 1)%nat.

(** [id] is the PRIMARY KEY of [integrations]. *)
Definition unique_ids (d : Database) : Prop := NoDup (map id (integrations d)).

(** The operations of the sources that write [integrations]. *)
Inductive Operation : Type :=
| StoreTokens (projectId : string) (tokens : JiraAuthService.Tokens)
              (accountInfo : JiraAuthService.AccountInfo)
| SetPrimary (i : Z)
| DeactivateAccount (i : Z)
| RefreshAccessToken (i : Z)
| RefreshAllTokens.

Definition perform (env : Env) (op : Operation) (w : World) : World :=
  match op with
  | StoreTokens projectId tokens accountInfo =>
      snd (JiraAuthService.storeTokens env projectId tokens accountInfo w)
  | SetPrimary i => snd (WebServer.setPrimary i w)
  | DeactivateAccount i => snd (WebServer.deactivateAccount i w)
  | RefreshAccessToken i => snd (JiraAuthService.refreshAccessToken env i w)
  | RefreshAllTokens => snd (TokenRefreshScheduler.refreshAllTokens env w)
  end.

(** The worlds reached from a new database file by these operations, run
    one after the other. *)
Inductive reachable (env : Env) : World -> Prop :=
| reach_new (w : World) : db w = initDatabase -> reachable env w
| reach_step (w : World) (op : Operation) : reachable env w -> reachable env (perform env op w).

(** The steps of [syncAllData], in the order it runs them. *)
Definition steps (env : Env) (accessToken : option string) (cloudId : string)
           (integrationId : Z) : list (M unit) :=
  [ComprehensiveJiraSync.syncProjects env accessToken cloudId integrationId;
   ComprehensiveJiraSync.syncIssueTypes env accessToken cloudId integrationId;
   ComprehensiveJiraSync.syncPriorities env accessToken cloudId integrationId;
   ComprehensiveJiraSync.syncStatuses env accessToken cloudId integrationId;
   ComprehensiveJiraSync.syncResolutions env accessToken cloudId integrationId;
   ComprehensiveJiraSync.syncUsers env accessToken cloudId integrationId;
   ComprehensiveJiraSync.syncGroups env accessToken cloudId integrationId;
   ComprehensiveJiraSync.syncIssueFields env accessToken cloudId integrationId;
   ComprehensiveJiraSync.syncLabels env accessToken cloudId integrationId;
   ComprehensiveJiraSync.syncComponents env accessToken cloudId integrationId;
   ComprehensiveJiraSync.syncVersions env accessToken cloudId integrationId;
   ComprehensiveJiraSync.syncWorkflows env accessToken cloudId integrationId;
   ComprehensiveJiraSync.syncDashboards env accessToken cloudId integrationId;
   ComprehensiveJiraSync.syncFilters env accessToken cloudId integrationId;
   ComprehensiveJiraSync.syncPermissions env accessToken cloudId integrationId;
   ComprehensiveJiraSync.syncIssuesComprehensive env accessToken cloudId integrationId;
   ComprehensiveJiraSync.syncIssueComments env accessToken cloudId integrationId;
   ComprehensiveJiraSync.syncIssueWorklogs env accessToken cloudId integrationId;
   ComprehensiveJiraSync.syncIssueAttachments env accessToken cloudId integrationId;
   ComprehensiveJiraSync.syncIssueLinks env accessToken cloudId integrationId].

(** The steps whose body stands in a try/catch of its own (around the
    whole step, or around the work done for one project or issue). *)
Definition isolated_steps (env : Env) (accessToken : option string) (cloudId : string)
           (integrationId : Z) : list (M unit) :=
  [ComprehensiveJiraSync.syncUsers env accessToken cloudId integrationId;
   ComprehensiveJiraSync.syncGroups env accessToken cloudId integrationId;
   ComprehensiveJiraSync.syncLabels env accessToken cloudId integrationId;
   ComprehensiveJiraSync.syncComponents env accessToken cloudId integrationId;
   ComprehensiveJiraSync.syncVersions env accessToken cloudId integrationId;
   ComprehensiveJiraSync.syncWorkflows env accessToken cloudId integrationId;
   ComprehensiveJiraSync.syncDashboards env accessToken cloudId integrationId;
   ComprehensiveJiraSync.syncFilters env accessToken cloudId integrationId;
   ComprehensiveJiraSync.syncPermissions env accessToken cloudId integrationId;
   ComprehensiveJiraSync.syncIssuesComprehensive env accessToken cloudId integrationId;
   ComprehensiveJiraSync.syncIssueComments env accessToken cloudId integrationId;
   ComprehensiveJiraSync.syncIssueWorklogs env accessToken cloudId integrationId;
   ComprehensiveJiraSync.syncIssueAttachments env accessToken cloudId integrationId;
   ComprehensiveJiraSync.syncIssueLinks env accessToken cloudId integrationId].

(** The steps without one. *)
Definition exposed_steps (env : Env) (accessToken : option string) (cloudId : string)
           (integrationId : Z) : list (M unit) :=
  [ComprehensiveJiraSync.syncProjects env accessToken cloudId integrationId;
   ComprehensiveJiraSync.syncIssueTypes env accessToken cloudId integrationId;
   ComprehensiveJiraSync.syncPriorities env accessToken cloudId integrationId;
   ComprehensiveJiraSync.syncStatuses env accessToken cloudId integrationId;
   ComprehensiveJiraSync.syncResolutions env accessToken cloudId integrationId;
   ComprehensiveJiraSync.syncIssueFields env accessToken cloudId integrationId].

(** Running steps one after the other, stopping at the first that throws. *)
Definition in_turn (l : list (M unit)) : M unit := forEach l (fun step => step).

(** The pair (integration_id, c) of each row of a jira_* table. *)
Definition keys_of (d : Database) (name c : string) : list (SqlValue * SqlValue) :=
  match table d name with
  | Some t => map (fun r => (cell r "integration_id", cell r c)) (rows t)
  | None => []
  end.

End Vocabulary.
Import Vocabulary.

(* ====================================================================== *)
(** * Texts *)
(* ====================================================================== *)

Module Text.

(** [`${n}`] for an integer *)
Definition decimal (n : Z) : string := NilZero.string_of_int (Z.to_int n).

(** [hay.includes(needle)] *)
Fixpoint includes (needle hay : string) : bool :=
  String.prefix needle hay ||
  match hay with
  | EmptyString => false
  | String _ hay' => includes needle hay'
  end.

Fixpoint join (texts : list string) : string :=
  match texts with
  | [] => EmptyString
  | [t] => t
  | t :: texts' => String.append t (String.append "," (join texts'))
  end.

(** [`${v}`]: the text of a value in a template literal *)
Fixpoint template (v : Json) : string :=
  match v with
  | JUndefined => "undefined"
  | JNull => "null"
  | JBool b => if b then "true" else "false"
  | JNum n => decimal n
  | JStr s => s
  | JArr items =>
      join ((fix each (l : list Json) : list string :=
               match l with
               | [] => []
               | x :: l' => (if nullish x then EmptyString else template x) :: each l'
               end) items)
  | JObj _ => "[object Object]"
  end.

(** [v[0]] for a [v] that is neither [null] nor [undefined] *)
Definition item0 (v : Json) : Json :=
  match v with
  | JArr (x :: _) => x
  | JStr (String c _) => JStr (String c EmptyString)
  | JObj ms => lookup_member "0" ms
  | _ => JUndefined
  end.

End Text.
Import Text.

(* ====================================================================== *)
(** * The process at large *)
(* ====================================================================== *)

(** The scheduler's other jobs and the routes of the web server make
    requests and raise errors that the refresh and the REST calls do not
    know.  They run in the monad [P], over a [State] that holds the
    [World] and what these add to it; a computation of [M] runs inside
    one of [P] by [lift]. *)
Module Process.

(** Requests to Atlassian that are neither a refresh nor a REST call. *)
Inductive SiteRequest : Type :=
| AccessibleResources (accessToken : option string)
    (* GET https://api.atlassian.com/oauth/token/accessible-resources *)
| ExchangeCode (code : string).
    (* POST https://auth.atlassian.com/oauth/token, grant_type authorization_code *)

Record State : Type := mkState {
  world : World;
  site_log : list (nat * SiteRequest);
      (* requests sent, oldest first, each with the length of [http_log] when it went out *)
  tempAccountInfo : option JiraAuthService.AccountInfo
      (* WebServer's this.tempAccountInfo; [None]: undefined or null *)
}.

Inductive Failure : Type :=
| Inner (e : JsError)
| NotFoundOrInactive                               (* Error('Integration not found or inactive') *)
| NoAccessibleResources                            (* Error('No accessible Jira resources found') *)
| ResourcesFailed (status : Z) (text : string)
    (* Error(`Failed to fetch accessible resources: ${status} ${text}`) *)
| TokenExchangeFailed (status : Z) (text : string)
    (* Error(`Token exchange failed: ${status} ${text}`) *)
| NotAFunction (callee : string).                  (* TypeError: callee is not a function *)

Inductive Result (A : Type) : Type :=
| Done (a : A)
| Failed (f : Failure)
| Running.               (* a loop of the sources that was still going when its fuel ran out *)
Arguments Done {A} _.
Arguments Failed {A} _.
Arguments Running {A}.

(** Everything outside the process: the [Env] of the refresh and REST
    calls, the two further endpoints (the reply may depend on the number
    of requests sent so far and on the request), and the text that the
    JavaScript runtime and the SQLite driver give to the errors they
    raise themselves. *)
Record Site : Type := mkSite {
  base : Env;
  accessible_resources : nat -> option string -> Reply Json;
  token_exchange : nat -> string -> Reply TokenData;
  runtime_text : State -> Failure -> string
}.

Definition P (A : Type) : Type := State -> Result A * State.

Definition retP {A : Type} (a : A) : P A := fun p => (Done a, p).

Definition failP {A : Type} (f : Failure) : P A := fun p => (Failed f, p).

Definition bindP {A B : Type} (m : P A) (k : A -> P B) : P B :=
  fun p => match m p with
           | (Done a, p') => k a p'
           | (Failed f, p') => (Failed f, p')
           | (Running, p') => (Running, p')
           end.

(** try { m } catch (error) { handler error } *)
Definition catchP {A : Type} (m : P A) (handler : Failure -> P A) : P A :=
  fun p => match m p with
           | (Done a, p') => (Done a, p')
           | (Failed f, p') => handler f p'
           | (Running, p') => (Running, p')
           end.

Definition with_world (w : World) (p : State) : State :=
  mkState w (site_log p) (tempAccountInfo p).

(** A computation of [M], run on the world of the process. *)
Definition lift {A : Type} (m : M A) : P A :=
  fun p => match m (world p) with
           | (Returned a, w) => (Done a, with_world w p)
           | (Thrown e, w) => (Failed (Inner e), with_world w p)
           end.

(** The same for a loop with fuel. *)
Definition loop {A : Type} (m : M (option A)) : P A :=
  fun p => match m (world p) with
           | (Returned (Some a), w) => (Done a, with_world w p)
           | (Returned None, w) => (Running, with_world w p)
           | (Thrown e, w) => (Failed (Inner e), with_world w p)
           end.

Declare Scope proc_scope.
Delimit Scope proc_scope with proc.
Notation "x <- m ;; k" := (bindP m (fun x => k))
  (at level 61, m at next level, right associativity) : proc_scope.
Notation "m ;; k" := (bindP m (fun _ => k))
  (at level 61, right associativity) : proc_scope.
Local Open Scope proc_scope.

Fixpoint forEachP {A : Type} (items : list A) (body : A -> P unit) : P unit :=
  match items with
  | [] => retP tt
  | x :: items' => body x ;; forEachP items' body
  end.

Definition forOfP (v : Json) (body : Json -> P unit) : P unit :=
  match iterable v with
  | Some items => forEachP items body
  | None => failP (Inner TypeError)
  end.

Definition memberP (v : Json) (k : string) : P Json := lift (member v k).

(** The number of requests the process has sent. *)
Definition requests (p : State) : nat :=
  (List.length (http_log (world p)) + List.length (site_log p))%nat.

Definition logged (rq : SiteRequest) (p : State) : State :=
  mkState (world p) (site_log p ++ [(List.length (http_log (world p)), rq)]) (tempAccountInfo p).

Definition getTemp : P (option JiraAuthService.AccountInfo) :=
  fun p => (Done (tempAccountInfo p), p).

Definition setTemp (info : option JiraAuthService.AccountInfo) : P unit :=
  fun p => (Done tt, mkState (world p) (site_log p) info).

Section WithSite.
Variable site : Site.

(** [await fetch('https://api.atlassian.com/oauth/token/accessible-resources', ...)] *)
Definition fetchResources (accessToken : option string) : P (Response Json) :=
  fun p => match accessible_resources site (requests p) accessToken with
           | Some r => (Done r, logged (AccessibleResources accessToken) p)
           | None => (Failed (Inner FetchFailed), logged (AccessibleResources accessToken) p)
           end.

(** [await fetch('https://auth.atlassian.com/oauth/token', ...)] with an
    authorization code *)
Definition fetchExchange (code : string) : P (Response TokenData) :=
  fun p => match token_exchange site (requests p) code with
           | Some r => (Done r, logged (ExchangeCode code) p)
           | None => (Failed (Inner FetchFailed), logged (ExchangeCode code) p)
           end.

(** [error.message]: the text is in the sources for the errors they
    raise, and the runtime's for the others. *)
Definition message (p : State) (f : Failure) : string :=
  match f with
  | Inner IntegrationNotFound => "Integration not found"
  | Inner NoRefreshToken => "No refresh token available - re-authentication required"
  | Inner (TokenRefreshFailed status text) =>
      String.append "Token refresh failed: "
                    (String.append (decimal status) (String.append " " text))
  | Inner (JiraApiError status text) =>
      String.append "Jira API error "
                    (String.append (decimal status) (String.append ": " text))
  | NotFoundOrInactive => "Integration not found or inactive"
  | NoAccessibleResources => "No accessible Jira resources found"
  | ResourcesFailed status text =>
      String.append "Failed to fetch accessible resources: "
                    (String.append (decimal status) (String.append " " text))
  | TokenExchangeFailed status text =>
      String.append "Token exchange failed: "
                    (String.append (decimal status) (String.append " " text))
  | _ => runtime_text site p f
  end.

Definition messageOf (f : Failure) : P string := fun p => (Done (message p f), p).

End WithSite.

End Process.
Import Process.

(* ====================================================================== *)
(** * jira-api.js: the requests the scheduler and the routes make *)
(* ====================================================================== *)

Module JiraApi.

Local Open Scope proc_scope.

Section WithSite.
Variable site : Site.
Variable accessToken : option string.       (* this.accessToken *)

(** getAccessibleResources() *)
Definition getAccessibleResources : P Json :=
  response <- fetchResources site accessToken ;;
  if negb (ok response)
  then failP (ResourcesFailed (status response) (text response))
  else lift (responseJson response).

(** getProjects(cloudId): GET
    https://api.atlassian.com/ex/jira/${cloudId}/rest/api/3/project *)
Definition getProjects (cloudId : Json) : M Json :=
  (response <- fetchJira (base site) (Get accessToken (template cloudId) EProject) ;;
   if negb (ok response)
   then throw (JiraApiError (status response) (text response))
   else responseJson response)%js.

End WithSite.

End JiraApi.

(* ====================================================================== *)
(** * auth-service.js: the authorization code *)
(* ====================================================================== *)

Module OAuth.

Local Open Scope proc_scope.

Section WithSite.
Variable site : Site.

(** exchangeCodeForTokens(code).  The object returned also has
    [expiresIn], which no caller reads. *)
Definition exchangeCodeForTokens (code : string) : P JiraAuthService.Tokens :=
  response <- fetchExchange site code ;;
  if negb (ok response)
  then failP (TokenExchangeFailed (status response) (text response))
  else
    tokenData <- lift (responseJson response) ;;
    now <- lift (dateNow (base site)) ;;
    match td_expires_in tokenData with
    | None => failP (Inner InvalidTime)                 (* new Date(NaN).toISOString() *)
    | Some expires_in =>
        expires <- lift (toISOString (now + expires_in * 1000)) ;;
        retP (JiraAuthService.mkTokens
                (td_access_token tokenData)
                (text_or (td_refresh_token tokenData) None)   (* refresh_token || null *)
                expires)
    end.

End WithSite.

End OAuth.

(* ====================================================================== *)
(** * scheduler.js: the data sync, the health check and the manual sync *)
(* ====================================================================== *)

Module Scheduler.

Local Open Scope proc_scope.

(** { success: true } or { success: false, error: message } *)
Inductive SyncResult : Type :=
| Success
| Failure (error : string).

(** SELECT id FROM jira_projects WHERE integration_id = ? AND
    project_key = ? (first row); a NULL key matches no row. *)
Definition find_project (t : Table) (integrationId : Z) (key : SqlValue) : option Z :=
  option_map rowid
    (find (fun r => SqlValue_eqb (cell r "integration_id") (SqlInt integrationId)
                    && SqlValue_eqb (cell r "project_key") key
                    && negb (SqlValue_eqb key SqlNull))
          (rows t)).

Definition dbFindProject (integrationId : Z) (key : SqlValue) : M (option Z) :=
  (d <- getDatabase ;;
   match table d "jira_projects" with
   | None => throw (SqliteError (NoSuchTable "jira_projects"))
   | Some t => ret (find_project t integrationId key)
   end)%js.

Section WithSite.
Variable site : Site.

(** The body of [for (const project of projects)] in [syncAllData]. *)
Definition syncProject (fuel : nat) (integration : Integration) (cloudId : Json)
           (project : Json) : P unit :=
  key <- memberP project "key" ;;
  lift (dbInsert OrReplace "jira_projects"
          ["integration_id"; "project_key"; "project_name"; "cloud_id"; "is_active"]
          (placeholders 5)
          [SqlInt (id integration);
           bindParam key;
           bindParam (prop project "name");
           bindParam cloudId;
           SqlInt 1]) ;;
  projectId <- lift (dbFindProject (id integration) (bindParam key)) ;;
  match projectId with
  | None => retP tt                                 (* if (projectId) *)
  | Some rowid =>
      total <- loop (JiraApiService.syncIssuesToDatabase
                       (base site) (access_token integration) fuel
                       (id integration) rowid (template cloudId) (template key)) ;;
      retP tt
  end.

(** One turn of [for (const integration of integrations)] in
    [syncAllData]; a [while] loop inside gets [fuel] turns. *)
Definition syncAccount (fuel : nat) (integration : Integration) : P unit :=
  catchP
    (resources <- JiraApi.getAccessibleResources site (access_token integration) ;;
     forOfP resources (fun resource =>
       cloudId <- memberP resource "id" ;;
       projects <- lift (JiraApi.getProjects site (access_token integration) cloudId) ;;
       forOfP projects (syncProject fuel integration cloudId)))
    (fun error => retP tt).

(** syncAllData() *)
Definition syncAllData (fuel : nat) : P unit :=
  catchP
    (d <- lift getDatabase ;;
     forEachP (select_active d) (syncAccount fuel))
    (fun error => retP tt).

(** One turn of [for (const integration of integrations)] in
    [healthCheck]. *)
Definition checkAccount (integration : Integration) : P unit :=
  catchP
    (resources <- JiraApi.getAccessibleResources site (access_token integration) ;;
     retP tt)
    (fun error =>
       text <- messageOf site error ;;
       if includes "401" text
       then catchP
              (tokens <- lift (JiraAuthService.refreshAccessToken (base site) (id integration)) ;;
               retP tt)
              (fun refreshError => retP tt)
       else retP tt).

(** healthCheck() *)
Definition healthCheck : P unit :=
  catchP
    (d <- lift getDatabase ;;
     forEachP (select_active d) checkAccount)
    (fun error => retP tt).

(** manualSync(integrationId) *)
Definition manualSync (integrationId : Z) : P SyncResult :=
  catchP
    (d <- lift getDatabase ;;
     match get_active d integrationId with
     | None => failP NotFoundOrInactive
     | Some integration =>
         resources <- JiraApi.getAccessibleResources site (access_token integration) ;;
         len <- memberP resources "length" ;;
         if Json_eqb len (JNum 0) then failP NoAccessibleResources          (* resources.length === 0 *)
         else
           cloudId <- memberP (item0 resources) "id" ;;
           lift (ComprehensiveJiraSync.syncAllData
                   (base site) (access_token integration) (template cloudId) integrationId) ;;
           retP Success
     end)
    (fun error => text <- messageOf site error ;; retP (Failure text)).

End WithSite.

End Scheduler.

(* ====================================================================== *)
(** * web-server.js: the sync routes and the refresh route *)
(* ====================================================================== *)

Module Server.

Local Open Scope proc_scope.

(** What a route sends: [res.status(code).json(body)]. *)
Record Answer : Type := mkAnswer {
  code : Z;
  body : Json
}.

(** { error: text } *)
Definition failure (text : string) : Json := JObj [("error", JStr text)].

(** { success: false, error: text } *)
Definition refusal (text : string) : Json :=
  JObj [("success", JBool false); ("error", JStr text)].

(** { success: true, message: text, count: 0 } *)
Definition synced (text : string) : Json :=
  JObj [("success", JBool true); ("message", JStr text); ("count", JNum 0)].

(** { success: true, message: text } *)
Definition completed (text : string) : Json :=
  JObj [("success", JBool true); ("message", JStr text)].

(** { success: true, message: 'Authentication completed successfully!',
      integrationId, redirectUrl: '/dashboard' } *)
Definition authenticated (integrationId : Z) : Json :=
  JObj [("success", JBool true);
        ("message", JStr "Authentication completed successfully!");
        ("integrationId", JNum integrationId);
        ("redirectUrl", JStr "/dashboard")].

(** The account info of a callback that finds [tempAccountInfo] unset. *)
Definition defaultAccount : JiraAuthService.AccountInfo :=
  JiraAuthService.mkAccountInfo (Some "New Jira Account") (Some "user@example.com")
                                (Some "your-domain.atlassian.net").

(** A case of the switch of [syncIndividualData]: the method it calls and
    the message it sets, or the method it names where the class has
    none. *)
Inductive Case : Type :=
| Calls (step : M unit) (text : string)
| Lacks (callee : string).

Section WithSite.
Variable site : Site.

(** GET /auth/callback.  [code] is [req.query.code]: a text when the
    query names it once, [None] when it does not; [req.query.state] is
    read and not used. *)
Definition authCallback (code : option string) : P Answer :=
  catchP
    (match code with
     | None => retP (mkAnswer 400 (failure "No authorization code provided"))
     | Some c =>
         if negb (truthy_text code)                                    (* if (!code) *)
         then retP (mkAnswer 400 (failure "No authorization code provided"))
         else
           tokens <- OAuth.exchangeCodeForTokens site c ;;
           temp <- getTemp ;;
           let accountInfo := match temp with
                              | Some info => info           (* this.tempAccountInfo || { ... } *)
                              | None => defaultAccount
                              end in
           integrationId <- lift (JiraAuthService.storeTokens (base site) "web-auth"
                                                              tokens accountInfo) ;;
           setTemp None ;;                                  (* this.tempAccountInfo = null *)
           retP (mkAnswer 200 (authenticated integrationId))
     end)
    (fun error => text <- messageOf site error ;; retP (mkAnswer 500 (failure text))).

(** The cases of [switch (dataType)], for a [syncService] made with the
    given access token and cloud id.  [ComprehensiveJiraSync] has no
    method [syncFields]. *)
Definition cases (accessToken : option string) (cloudId : string) (integrationId : Z)
  : list (string * Case) :=
  [("projects",
    Calls (ComprehensiveJiraSync.syncProjects (base site) accessToken cloudId integrationId)
          "Projects synced successfully");
   ("issue-types",
    Calls (ComprehensiveJiraSync.syncIssueTypes (base site) accessToken cloudId integrationId)
          "Issue types synced successfully");
   ("priorities",
    Calls (ComprehensiveJiraSync.syncPriorities (base site) accessToken cloudId integrationId)
          "Priorities synced successfully");
   ("statuses",
    Calls (ComprehensiveJiraSync.syncStatuses (base site) accessToken cloudId integrationId)
          "Statuses synced successfully");
   ("resolutions",
    Calls (ComprehensiveJiraSync.syncResolutions (base site) accessToken cloudId integrationId)
          "Resolutions synced successfully");
   ("users",
    Calls (ComprehensiveJiraSync.syncUsers (base site) accessToken cloudId integrationId)
          "Users synced successfully");
   ("groups",
    Calls (ComprehensiveJiraSync.syncGroups (base site) accessToken cloudId integrationId)
          "Groups synced successfully");
   ("fields", Lacks "syncService.syncFields");
   ("labels",
    Calls (ComprehensiveJiraSync.syncLabels (base site) accessToken cloudId integrationId)
          "Labels synced successfully");
   ("components",
    Calls (ComprehensiveJiraSync.syncComponents (base site) accessToken cloudId integrationId)
          "Components synced successfully");
   ("versions",
    Calls (ComprehensiveJiraSync.syncVersions (base site) accessToken cloudId integrationId)
          "Versions synced successfully");
   ("workflows",
    Calls (ComprehensiveJiraSync.syncWorkflows (base site) accessToken cloudId integrationId)
          "Workflows synced successfully");
   ("dashboards",
    Calls (ComprehensiveJiraSync.syncDashboards (base site) accessToken cloudId integrationId)
          "Dashboards synced successfully");
   ("filters",
    Calls (ComprehensiveJiraSync.syncFilters (base site) accessToken cloudId integrationId)
          "Filters synced successfully");
   ("permissions",
    Calls (ComprehensiveJiraSync.syncPermissions (base site) accessToken cloudId integrationId)
          "Permissions synced successfully");
   ("issues",
    Calls (ComprehensiveJiraSync.syncIssuesComprehensive
             (base site) accessToken cloudId integrationId)
          "Issues synced successfully");
   ("comments",
    Calls (ComprehensiveJiraSync.syncIssueComments (base site) accessToken cloudId integrationId)
          "Comments synced successfully");
   ("worklogs",
    Calls (ComprehensiveJiraSync.syncIssueWorklogs (base site) accessToken cloudId integrationId)
          "Worklogs synced successfully");
   ("attachments",
    Calls (ComprehensiveJiraSync.syncIssueAttachments
             (base site) accessToken cloudId integrationId)
          "Attachments synced successfully");
   ("issue-links",
    Calls (ComprehensiveJiraSync.syncIssueLinks (base site) accessToken cloudId integrationId)
          "Issue links synced successfully")].

(** syncIndividualData(integrationId, dataType) *)
Definition syncIndividualData (integrationId : Z) (dataType : string) : P Json :=
  catchP
    (d <- lift getDatabase ;;
     match row_of d integrationId with
     | None => retP (refusal "Integration not found")
     | Some integration =>
         resources <- JiraApi.getAccessibleResources site (access_token integration) ;;
         len <- memberP resources "length" ;;
         if Json_eqb len (JNum 0)                                     (* resources.length === 0 *)
         then retP (refusal "No accessible Jira resources found")
         else
           cloudId <- memberP (item0 resources) "id" ;;
           match assoc dataType (cases (access_token integration) (template cloudId)
                                       integrationId) with
           | Some (Calls step text) => lift step ;; retP (synced text)
           | Some (Lacks callee) => failP (NotAFunction callee)
           | None => retP (refusal "Unknown data type")
           end
     end)
    (fun error => text <- messageOf site error ;; retP (refusal text)).

(** POST /api/integrations/:id/sync/<dataType> *)
Definition individualRoute (integrationId : Z) (dataType : string) : P Answer :=
  catchP
    (result <- syncIndividualData integrationId dataType ;;
     retP (mkAnswer 200 result))
    (fun error => text <- messageOf site error ;; retP (mkAnswer 500 (failure text))).

(** POST /api/integrations/:id/sync *)
Definition syncRoute (integrationId : Z) : P Answer :=
  catchP
    (result <- Scheduler.manualSync site integrationId ;;
     match result with
     | Scheduler.Success => retP (mkAnswer 200 (completed "Sync completed successfully"))
     | Scheduler.Failure error => retP (mkAnswer 500 (failure error))
     end)
    (fun error => text <- messageOf site error ;; retP (mkAnswer 500 (failure text))).

(** POST /api/integrations/:id/comprehensive-sync *)
Definition comprehensiveSyncRoute (integrationId : Z) : P Answer :=
  catchP
    (d <- lift getDatabase ;;
     match row_of d integrationId with
     | None => retP (mkAnswer 404 (failure "Integration not found"))
     | Some integration =>
         resources <- JiraApi.getAccessibleResources site (access_token integration) ;;
         len <- memberP resources "length" ;;
         if Json_eqb len (JNum 0)
         then retP (mkAnswer 400 (failure "No accessible Jira resources found"))
         else
           cloudId <- memberP (item0 resources) "id" ;;
           lift (ComprehensiveJiraSync.syncAllData
                   (base site) (access_token integration) (template cloudId) integrationId) ;;
           retP (mkAnswer 200 (completed "Comprehensive sync completed successfully"))
     end)
    (fun error => text <- messageOf site error ;; retP (mkAnswer 500 (failure text))).

(** What the refresh route sends. *)
Inductive RefreshAnswer : Type :=
| NotFound                               (* 404 { error: 'Integration not found or inactive' } *)
| Refreshed (expiresAt lastRefresh : option Z) (hoursUntilExpiry : Z)
    (* 200 { success: true, message: 'Token refreshed successfully', ... } *)
| NotRefreshed (error : string) (requiresReauth : bool) (refreshFailures : Z)
    (* 500 { success: false, error, requiresReauth, message, refreshFailures } *)
| Crashed (error : string).              (* 500 { error } *)

(** [new Date(expires_at) - now], for a column that holds NULL or an
    ISO-8601 text ([new Date(null)] is the epoch). *)
Definition untilExpiry (expires_at : option Z) (now : Z) : Z :=
  match expires_at with
  | Some t => t - now
  | None => 0 - now
  end.

(** [Math.round(ms / (1000 * 60 * 60))] *)
Definition roundHours (ms : Z) : Z := (2 * ms + 3600000) / (2 * 3600000).

(** SELECT * FROM integrations WHERE id = ?, then a member of the row *)
Definition updatedRow (integrationId : Z) : P Integration :=
  d <- lift getDatabase ;;
  match row_of d integrationId with
  | Some row => retP row
  | None => failP (Inner TypeError)
  end.

(** POST /api/integrations/:id/refresh-token *)
Definition refreshTokenRoute (integrationId : Z) : P RefreshAnswer :=
  catchP
    (d <- lift getDatabase ;;
     match get_active d integrationId with
     | None => retP NotFound
     | Some integration =>
         now <- lift (dateNow (base site)) ;;
         catchP
           (newTokens <- lift (JiraAuthService.refreshAccessToken (base site) integrationId) ;;
            updated <- updatedRow integrationId ;;
            now' <- lift (dateNow (base site)) ;;
            retP (Refreshed (expires_at updated) (last_refresh_at updated)
                            (roundHours (untilExpiry (expires_at updated) now'))))
           (fun refreshError =>
              text <- messageOf site refreshError ;;
              updated <- updatedRow integrationId ;;
              retP (NotRefreshed text (includes "No refresh token available" text)
                                 (refresh_failures updated)))
     end)
    (fun error => text <- messageOf site error ;; retP (Crashed text)).

End WithSite.

End Server.

(* ====================================================================== *)
(** * web-server.js: routes that read the tables *)
(* ====================================================================== *)

Module Routes.

(** ORDER BY created_at DESC LIMIT 1 on the rows selected: a row of the
    largest [created_at]; among several of them the one that comes first
    in id order (SQLite leaves that choice open). *)
Fixpoint newest_from (best : Integration) (l : list Integration) : Integration :=
  match l with
  | [] => best
  | r :: l' => newest_from (if created_at best <? created_at r then r else best) l'
  end.

Definition newest (l : list Integration) : option Integration :=
  match l with
  | [] => None
  | r :: l' => Some (newest_from r l')
  end.

(** GET /api/current-account: SELECT * FROM integrations WHERE
    is_primary = 1 AND is_active = 1 ORDER BY created_at DESC LIMIT 1.
    [None] is the answer { account: null, message: 'No primary account
    found' }. *)
Definition currentAccount : M (option Integration) :=
  d <- getDatabase ;;
  ret (newest (filter (fun r => is_primary r && is_active r) (integrations d))).

(** The count of SELECT COUNT ... FROM name WHERE integration_id = ? *)
Definition dbCount (name : string) (integrationId : Z) : M Z :=
  rows <- dbSelectColumn name "integration_id" integrationId ;;
  ret (Z.of_nat (List.length rows)).

(** The tables the stats route goes through, in its order. *)
Definition stats_tables : list string :=
  ["jira_projects"; "jira_issue_types"; "jira_priorities"; "jira_statuses";
   "jira_resolutions"; "jira_users"; "jira_groups"; "jira_fields";
   "jira_labels"; "jira_components"; "jira_versions"; "jira_workflows";
   "jira_dashboards"; "jira_filters"; "jira_permissions"; "jira_issues";
   "jira_comments"; "jira_worklogs"; "jira_attachments"; "jira_issue_links"].

(** The loop of the stats route: for each table, try { stats[table] =
    count } catch { stats[table] = 0 }. *)
Fixpoint countEach (names : list string) (integrationId : Z) (stats : list (string * Z))
  : M (list (string * Z)) :=
  match names with
  | [] => ret stats
  | name :: names' =>
      count <- try_catch (dbCount name integrationId) (fun error => ret 0) ;;
      countEach names' integrationId (stats ++ [(name, count)])
  end.

(** GET /api/integrations/:id/stats, for the id [integrationId] *)
Definition stats (integrationId : Z) : M (list (string * Z)) :=
  countEach stats_tables integrationId [].

End Routes.

(* ====================================================================== *)
(** * delete-integration.js *)
(* ====================================================================== *)

Module Maintenance.

(** DELETE FROM t WHERE k = v *)
Definition delete_where (t : Table) (k : string) (v : SqlValue) : Table :=
  mkTable (columns t) (uniques t)
          (filter (fun r => negb (SqlValue_eqb (cell r k) v)) (rows t)) (seq t).

(** [await db.run('DELETE FROM name WHERE integration_id = ?', [i])] *)
Definition dbDelete (name : string) (integrationId : Z) : M unit :=
  d <- getDatabase ;;
  match table d name with
  | None => throw (SqliteError (NoSuchTable name))
  | Some t =>
      setDatabase (set_table d name (delete_where t "integration_id" (SqlInt integrationId)))
  end.

(** DELETE FROM integrations WHERE id = ? *)
Definition delete_account (i : Z) (d : Database) : Database :=
  set_integrations d (filter (fun r => negb (id r =? i)) (integrations d)).

Section WithEnv.
Variable env : Env.

(** deleteIntegration(integrationId), what it prints apart: the two
    counts it prints are read, and the clock is read once for each active
    account listed at the end. *)
Definition deleteIntegration (integrationId : Z) : M unit :=
  try_catch
    (d <- getDatabase ;;
     match row_of d integrationId with
     | None => ret tt                               (* if (!integration) return *)
     | Some integration =>
         projects <- Routes.dbCount "jira_projects" integrationId ;;
         issues <- Routes.dbCount "jira_issues" integrationId ;;
         dbDelete "jira_issue_links" integrationId ;;
         dbDelete "jira_attachments" integrationId ;;
         dbDelete "jira_worklogs" integrationId ;;
         dbDelete "jira_comments" integrationId ;;
         dbDelete "jira_issues" integrationId ;;
         dbDelete "jira_projects" integrationId ;;
         dbDelete "jira_permissions" integrationId ;;
         dbDelete "jira_filters" integrationId ;;
         dbDelete "jira_dashboards" integrationId ;;
         dbDelete "jira_workflows" integrationId ;;
         dbDelete "jira_versions" integrationId ;;
         dbDelete "jira_components" integrationId ;;
         dbDelete "jira_labels" integrationId ;;
         dbDelete "jira_fields" integrationId ;;
         dbDelete "jira_groups" integrationId ;;
         dbDelete "jira_users" integrationId ;;
         dbDelete "jira_resolutions" integrationId ;;
         dbDelete "jira_statuses" integrationId ;;
         dbDelete "jira_priorities" integrationId ;;
         dbDelete "jira_issue_types" integrationId ;;
         d <- getDatabase ;;
         setDatabase (delete_account integrationId d) ;;
         d <- getDatabase ;;
         forEach (select_active d) (fun integration => now <- dateNow env ;; ret tt)
     end)
    (fun error => ret tt).

End WithEnv.

End Maintenance.

(* ====================================================================== *)
(** * auth-service.js: the two statements of storeTokens *)
(* ====================================================================== *)

(** A handler runs up to its next [await] and then lets other handlers
    run.  [storeTokens] awaits its SELECT COUNT and then its INSERT, the
    set-primary route its two UPDATEs ([WebServer.clearPrimary],
    [WebServer.markPrimary]). *)
Module Statements.

Section WithEnv.
Variable env : Env.

(** [await db.all('SELECT COUNT ... WHERE is_active = 1')] and the test
    on its answer *)
Definition isFirstIntegration : M bool :=
  d <- getDatabase ;;
  let count := Z.of_nat (List.length (select_active d)) in
  ret (count =? 0).

(** [await db.run('INSERT INTO integrations ...')], with the flag
    computed before *)
Definition insertIntegration (projectId : string) (tokens : JiraAuthService.Tokens)
           (accountInfo : JiraAuthService.AccountInfo) (isFirstIntegration : bool) : M Z :=
  refreshed <- dateNow env ;;
  d <- getDatabase ;;
  created <- dateNow env ;;
  let lastID := next_integration_id d in
  setDatabase
    (mkDatabase
       (integrations d ++
        [mkIntegration lastID
           (text_or (JiraAuthService.accountName accountInfo) (Some "New Account"))
           (text_or (JiraAuthService.accountEmail accountInfo) (Some "user@example.com"))
           (text_or (JiraAuthService.jiraDomain accountInfo) (Some "your-domain.atlassian.net"))
           (Some projectId)
           (JiraAuthService.accessToken tokens)
           (JiraAuthService.refreshToken tokens)
           (Some (JiraAuthService.expiresAt tokens))
           (Some refreshed)
           0
           true
           isFirstIntegration
           created created])
       lastID
       (tables d)) ;;
  ret lastID.

End WithEnv.

End Statements.

(* ====================================================================== *)
(** * Further scenarios *)
(* ====================================================================== *)

Module Cases.

(** Atlassian as one process sees it: the Jira site of
    [Scenario.one_issue] behind one cloud id, an authorization server
    that is not reachable, runtime errors without a text. *)
Definition one_cloud : Site :=
  mkSite (Scenario.jira_env Scenario.one_issue)
         (fun _ _ => Scenario.found (JArr [JObj [("id", JStr "cloud")]]))
         (fun _ _ => None)
         (fun _ _ => EmptyString).


(** The same behind a Jira site that answers every request, a search
    included, with the first 100 issues of a project. *)
Definition busy : Site :=
  mkSite Scenario.by_request
         (fun _ _ => Scenario.found (JArr [JObj [("id", JStr "cloud")]]))
         (fun _ _ => None)
         (fun _ _ => EmptyString).

(** An authorization server that grants every code and every refresh
    token an access token for one hour, the code without a refresh
    token; the resources endpoint answers 401. *)
Definition granting : Site :=
  mkSite (Scenario.env_of (Scenario.granted (Some "refresh-1")))
         (fun _ _ => Some (mkResponse 401 "Unauthorized" None))
         (fun _ _ => Some (mkResponse 200 EmptyString
                             (Some (mkTokenData (Some "access-1") None (Some 3600)))))
         (fun _ _ => EmptyString).

Definition project (key : string) : Json :=
  JObj [("key", JStr key); ("name", JStr "Project")].

(** Two accounts authorised one after the other on a new database file:
    account 1 is primary, both are active. *)
Definition two_accounts : World :=
  perform (Scenario.env_of Scenario.unauthorized)
    (StoreTokens "web-auth" (JiraAuthService.mkTokens (Some "a2") (Some "r2") Scenario.t0)
                 (JiraAuthService.mkAccountInfo None None None))
    (perform (Scenario.env_of Scenario.unauthorized)
       (StoreTokens "web-auth" (JiraAuthService.mkTokens (Some "a1") (Some "r1") Scenario.t0)
                    (JiraAuthService.mkAccountInfo None None None))
       (Scenario.new_world initDatabase)).

(** One cloud whose Jira site lists the projects P and Q and answers
    every issue search with the first 100 issues of the project. *)
Definition with_issues (rq : JiraRequest) : Reply Json :=
  match rq with
  | Get _ _ EProject => Scenario.found (JArr [project "P"; project "Q"])
  | SearchJql _ _ _ _ => Scenario.found (Scenario.page 0 100)
  | Get _ _ _ => Scenario.found (JArr [])
  end.

Definition searched : Site :=
  mkSite (Scenario.jira_env with_issues)
         (fun _ _ => Scenario.found (JArr [JObj [("id", JStr "cloud")]]))
         (fun _ _ => None)
         (fun _ _ => EmptyString).

(** A process that has just started on the accounts [l]. *)
Definition started (l : list Integration) : State := mkState (Scenario.world_of l) [] None.

End Cases.

(* ====================================================================== *)
(** * Further vocabulary *)
(* ====================================================================== *)

Module Notions.

(** [needsRefresh] answers false for the row at every reading of the
    clock. *)
Definition never_due (env : Env) (r : Integration) : Prop :=
  exists e, expires_at r = Some e /\
            forall k, clock env k + JiraAuthService.bufferTime < e.

(** An account for which a refresh pass has nothing to do: its token is
    not due, or it holds no refresh token and its failure counter, as the
    pass reads it, is below 3. *)
Definition idle (env : Env) (r : Integration) : Prop :=
  never_due env r \/
  (truthy_text (refresh_token r) = false /\ refresh_failures r < 3).

(** What an UPDATE of the refresh code may do to a row: [new] has the id,
    the primary flag, the account texts, the project and the two
    timestamps of [old], and is active only if [old] is. *)
Definition updated_row (old new : Integration) : Prop :=
  id new = id old /\
  is_primary new = is_primary old /\
  account_name new = account_name old /\
  account_email new = account_email old /\
  jira_domain new = jira_domain old /\
  project_id new = project_id old /\
  created_at new = created_at old /\
  updated_at new = updated_at old /\
  (is_active new = true -> is_active old = true).

(** What a statement that does not write the primary flag does to
    [integrations] (the UPDATEs of the DELETE route, of a refresh and of
    a refresh pass): no row is added or removed, every row keeps its id
    and its primary flag, and none becomes active. *)
Definition flag_neutral (d d' : Database) : Prop :=
  Forall2 updated_row (integrations d) (integrations d').

(** The same, for a refresh pass: a row that was not active is left as it
    was. *)
Definition passed_row (old new : Integration) : Prop :=
  updated_row old new /\ (is_active old = false -> new = old).

(** A computation keeps the relation [R] between the world it starts in
    and the world it ends in, however it ends. *)
Definition keeps (R : World -> World -> Prop) {A : Type} (m : M A) : Prop :=
  forall w, R w (snd (m w)).

(** The steps of [syncAllData] that have no try/catch, each with the
    endpoint its one request goes to. *)
Definition exposed_requests (env : Env) (accessToken : option string) (cloudId : string)
           (integrationId : Z) : list (M unit * Endpoint) :=
  [(ComprehensiveJiraSync.syncProjects env accessToken cloudId integrationId, EProject);
   (ComprehensiveJiraSync.syncIssueTypes env accessToken cloudId integrationId, EIssueType);
   (ComprehensiveJiraSync.syncPriorities env accessToken cloudId integrationId, EPriority);
   (ComprehensiveJiraSync.syncStatuses env accessToken cloudId integrationId, EStatus);
   (ComprehensiveJiraSync.syncResolutions env accessToken cloudId integrationId, EResolution);
   (ComprehensiveJiraSync.syncIssueFields env accessToken cloudId integrationId, EField)].

(** A request of the Jira REST API made with the given access token for
    the given cloud id. *)
Definition rest_call (accessToken : option string) (cloudId : string) (c : HttpCall) : Prop :=
  exists endpoint, c = JiraCall (Get accessToken cloudId endpoint).

(** What a run of the comprehensive sync leaves alone: the accounts, the
    scheduler's flag, and the trace but for REST calls of its own. *)
Definition sync_frame (accessToken : option string) (cloudId : string) (w w' : World) : Prop :=
  integrations (db w') = integrations (db w) /\
  integrations_seq (db w') = integrations_seq (db w) /\
  isRunning w' = isRunning w /\
  exists calls, http_log w' = http_log w ++ calls /\
                Forall (rest_call accessToken cloudId) calls.

(** The values of column [c] in the rows of table [name] that belong to
    the integration, in row order. *)
Definition stored (d : Database) (name c : string) (integrationId : Z) : list SqlValue :=
  match table d name with
  | Some t => select_where t "integration_id" (SqlInt integrationId) c
  | None => []
  end.

(** The REST calls for the given endpoints, one after the other. *)
Definition rest_calls (accessToken : option string) (cloudId : string)
           (endpoints : list Endpoint) : list HttpCall :=
  map (fun endpoint => JiraCall (Get accessToken cloudId endpoint)) endpoints.

(** The trace is as it was. *)
Definition same_trace (w w' : World) : Prop := http_log w' = http_log w.

(** The tables that hold issues and what hangs on them. *)
Definition issue_tables : list string :=
  ["jira_issues"; "jira_comments"; "jira_worklogs"; "jira_attachments"; "jira_issue_links"].

(** A request for the comments, worklogs, attachments or links of an
    issue. *)
Definition detail_call (c : HttpCall) : bool :=
  match c with
  | JiraCall (Get _ _ (EIssueComment _ | EIssueWorklog _ | EIssueAttachment _ | EIssueLinks _)) =>
      true
  | _ => false
  end.

(** The issue tables are as they were and no detail of an issue was
    requested. *)
Definition issues_untouched (w w' : World) : Prop :=
  (forall name, In name issue_tables -> table (db w') name = table (db w) name) /\
  exists calls, http_log w' = http_log w ++ calls /\
                Forall (fun c => detail_call c = false) calls.

(** The same, for a start without stored issues of the integration. *)
Definition issues_stay_out (integrationId : Z) (w w' : World) : Prop :=
  stored (db w) "jira_issues" "issue_key" integrationId = [] -> issues_untouched w w'.

(** The tables [deleteIntegration] clears, in its order. *)
Definition cleared_tables : list string :=
  ["jira_issue_links"; "jira_attachments"; "jira_worklogs"; "jira_comments"; "jira_issues";
   "jira_projects"; "jira_permissions"; "jira_filters"; "jira_dashboards"; "jira_workflows";
   "jira_versions"; "jira_components"; "jira_labels"; "jira_fields"; "jira_groups";
   "jira_users"; "jira_resolutions"; "jira_statuses"; "jira_priorities"; "jira_issue_types"].

(** The operations on the accounts, with the deletion script. *)
Inductive Upkeep : Type :=
| Account (op : Operation)
| DeleteIntegration (i : Z).

Definition upkeep (env : Env) (u : Upkeep) (w : World) : World :=
  match u with
  | Account op => perform env op w
  | DeleteIntegration i => snd (Maintenance.deleteIntegration env i w)
  end.

(** Operations run one after the other. *)
Definition upkeeps (env : Env) (us : list Upkeep) (w : World) : World :=
  fold_left (fun w0 u => upkeep env u w0) us w.

(** An UPDATE of the refresh code that leaves the active flag alone. *)
Definition kept_active (old new : Integration) : Prop :=
  updated_row old new /\ is_active new = is_active old.

(** The accounts are the same, each with its flags, and the other
    tables are as they were. *)
Definition flags_kept (w w' : World) : Prop :=
  Forall2 kept_active (integrations (db w)) (integrations (db w')) /\
  integrations_seq (db w') = integrations_seq (db w) /\
  tables (db w') = tables (db w).

(** The accounts are as they were. *)
Definition same_accounts (w w' : World) : Prop :=
  integrations (db w') = integrations (db w) /\
  integrations_seq (db w') = integrations_seq (db w).

(** The same for a computation of the process. *)
Definition keepsP (R : State -> State -> Prop) {A : Type} (m : P A) : Prop :=
  forall p, R p (snd (m p)).

(** A relation between worlds, as one between states of the process
    that leaves [tempAccountInfo] alone. *)
Definition lifted (R : World -> World -> Prop) (p p' : State) : Prop :=
  R (world p) (world p') /\ tempAccountInfo p' = tempAccountInfo p.

(** A computation that does not end inside a loop out of fuel. *)
Definition halts {A : Type} (m : P A) : Prop :=
  forall p, fst (m p) <> Running.

(** The texts among the values of a column. *)
Fixpoint texts (l : list SqlValue) : list string :=
  match l with
  | [] => []
  | SqlText s :: l' => s :: texts l'
  | _ :: l' => texts l'
  end.



(** The table has the columns that [initDatabase] gives the table
    [name], and no UNIQUE constraint. *)
Definition as_created (name : string) (t : Table) : Prop :=
  assoc name schema = Some (columns t) /\ uniques t = [].

(** Only jira_projects may have changed. *)
Definition only_projects (w w' : World) : Prop :=
  (forall name, name <> "jira_projects" -> table (db w') name = table (db w) name) /\
  same_accounts w w'.

(** [jira_issues] has no unique index on (integration_id, issue_key),
    the one the ON CONFLICT clause of [storeIssue] names. *)
Definition no_issue_index (w : World) : Prop :=
  forall t, table (db w) "jira_issues" = Some t ->
            existsb (list_eqb ["integration_id"; "issue_key"]) (uniques t) = false.

(** From a state whose world is in [I] the computation ends, not inside
    a loop out of fuel, and in a world in [I]. *)
Definition ends_within (I : World -> Prop) {A : Type} (m : P A) : Prop :=
  forall p, I (world p) -> I (world (snd (m p))) /\ fst (m p) <> Running.

(** The log of the further requests is as it was. *)
Definition same_log (p p' : State) : Prop := site_log p' = site_log p.

(** The entry a request for the accessible resources leaves in the log. *)
Definition resources_call (p : State) (accessToken : option string) : nat * SiteRequest :=
  (List.length (http_log (world p)), AccessibleResources accessToken).

End Notions.
Import Notions.

(* ====================================================================== *)
(** * Properties *)
(* ====================================================================== *)

Import JiraAuthService.

(** ** needsRefresh *)

(** C5.  [needsRefresh] answers true exactly when [expires_at] is absent or
    not later than the clock reading plus 300 seconds; in particular it
    answers false for an expiry 301 seconds ahead.  It returns normally and
    leaves the database, the HTTP trace and the scheduler flag as they
    were (the record itself is an immutable value). *)
Theorem needsRefresh_buffer (env : Env) (integration : Integration) (w : World) :
  let now := clock env (clock_reads w) in
  let run := needsRefresh env integration w in
  (exists b : bool,
      fst run = Returned b /\
      (b = true <->
       expires_at integration = None \/
       exists e, expires_at integration = Some e /\ e <= now + 300 * 1000)) /\
  (expires_at integration = Some (now + 301 * 1000) -> fst run = Returned false) /\
  db (snd run) = db w /\
  http_log (snd run) = http_log w /\
  isRunning (snd run) = isRunning w.
Proof.
  unfold needsRefresh, bufferTime.
  destruct (expires_at integration) as [e|] eqn:He; cbn.
  - repeat split.
    + exists (e <=? clock env (clock_reads w) + 300000). split; [reflexivity|].
      rewrite Z.leb_le. split.
      * intros Hle. right. exists e. split; [reflexivity | lia].
      * intros [Hnone | [e' [Hsome Hle]]]; [discriminate | injection Hsome as <-; lia].
    + intros Heq. injection Heq as ->. f_equal. apply Z.leb_gt. lia.
  - repeat split.
    + exists true. split; [reflexivity|]. split; auto.
    + intros Heq. discriminate.
Qed.

(** ** refreshAccessToken: the run, case by case *)

Section RefreshRuns.
Variable env : Env.
Variable w : World.
Variable integrationId : Z.

Lemma refresh_not_found :
  get_active (db w) integrationId = None ->
  refreshAccessToken env integrationId w = (Thrown IntegrationNotFound, w).
Proof.
  intros H. unfold refreshAccessToken, bind, getDatabase. rewrite H. reflexivity.
Qed.

Lemma refresh_no_token (integration : Integration) :
  get_active (db w) integrationId = Some integration ->
  truthy_text (refresh_token integration) = false ->
  refreshAccessToken env integrationId w = (Thrown NoRefreshToken, w).
Proof.
  intros H Ht. unfold refreshAccessToken, bind, getDatabase. rewrite H, Ht. reflexivity.
Qed.

Lemma refresh_rejected (integration : Integration) :
  get_active (db w) integrationId = Some integration ->
  truthy_text (refresh_token integration) = true ->
  token_endpoint env (List.length (http_log w)) (mkTokenRequest (refresh_token integration)) = None ->
  refreshAccessToken env integrationId w
  = (Thrown FetchFailed, logCall (refresh_call integration) w).
Proof.
  intros H Ht Hr. unfold refreshAccessToken, bind, getDatabase, fetchToken.
  rewrite H, Ht. cbn. rewrite Hr. reflexivity.
Qed.

Lemma refresh_failed (integration : Integration) (response : Response TokenData) :
  get_active (db w) integrationId = Some integration ->
  truthy_text (refresh_token integration) = true ->
  token_endpoint env (List.length (http_log w)) (mkTokenRequest (refresh_token integration))
  = Some response ->
  ok response = false ->
  refreshAccessToken env integrationId w
  = (Thrown (TokenRefreshFailed (status response) (text response)),
     mkWorld (count_failure integrationId (db w)) (clock_reads w) (random_reads w)
             (http_log w ++ [refresh_call integration]) (isRunning w)).
Proof.
  intros H Ht Hr Hok. unfold refreshAccessToken, bind, getDatabase, fetchToken.
  rewrite H, Ht. cbn. rewrite Hr. cbn. rewrite Hok. reflexivity.
Qed.

Lemma refresh_bad_body (integration : Integration) (response : Response TokenData) :
  get_active (db w) integrationId = Some integration ->
  truthy_text (refresh_token integration) = true ->
  token_endpoint env (List.length (http_log w)) (mkTokenRequest (refresh_token integration))
  = Some response ->
  ok response = true ->
  json response = None ->
  refreshAccessToken env integrationId w
  = (Thrown InvalidJson, logCall (refresh_call integration) w).
Proof.
  intros H Ht Hr Hok Hj. unfold refreshAccessToken, bind, getDatabase, fetchToken, responseJson.
  rewrite H, Ht. cbn. rewrite Hr. cbn. rewrite Hok, Hj. reflexivity.
Qed.

Lemma refresh_granted (integration : Integration) (response : Response TokenData)
      (tokenData : TokenData) (expires_in : Z) :
  get_active (db w) integrationId = Some integration ->
  truthy_text (refresh_token integration) = true ->
  token_endpoint env (List.length (http_log w)) (mkTokenRequest (refresh_token integration))
  = Some response ->
  ok response = true ->
  json response = Some tokenData ->
  td_expires_in tokenData = Some expires_in ->
  validTime (clock env (clock_reads w) + expires_in * 1000) = true ->
  refreshAccessToken env integrationId w
  = (if validTime (clock env (S (S (clock_reads w))) + expires_in * 1000)
     then Returned (mkTokens (td_access_token tokenData)
                             (text_or (td_refresh_token tokenData) (refresh_token integration))
                             (clock env (S (S (clock_reads w))) + expires_in * 1000))
     else Thrown InvalidTime,
     refreshed_world env w integrationId integration tokenData expires_in).
Proof.
  intros H Ht Hr Hok Hj He Hv.
  unfold refreshAccessToken, bind, getDatabase, fetchToken, responseJson, toISOString.
  rewrite H, Ht. cbn. rewrite Hr. cbn. rewrite Hok, Hj. cbn. rewrite He. cbn.
  rewrite Hv. cbn.
  destruct (validTime (clock env (S (S (clock_reads w))) + expires_in * 1000)); reflexivity.
Qed.

(** Whenever the call returns, it went through the success branch. *)
Lemma refresh_returned_inv (tokens : Tokens) (w' : World) :
  refreshAccessToken env integrationId w = (Returned tokens, w') ->
  exists integration response tokenData expires_in,
    get_active (db w) integrationId = Some integration /\
    truthy_text (refresh_token integration) = true /\
    token_endpoint env (List.length (http_log w)) (mkTokenRequest (refresh_token integration))
    = Some response /\
    ok response = true /\
    json response = Some tokenData /\
    td_expires_in tokenData = Some expires_in /\
    tokens = mkTokens (td_access_token tokenData)
                      (text_or (td_refresh_token tokenData) (refresh_token integration))
                      (clock env (S (S (clock_reads w))) + expires_in * 1000) /\
    w' = refreshed_world env w integrationId integration tokenData expires_in.
Proof.
  intros Hrun.
  destruct (get_active (db w) integrationId) as [integration|] eqn:H;
    [| rewrite (refresh_not_found H) in Hrun; discriminate].
  destruct (truthy_text (refresh_token integration)) eqn:Ht;
    [| rewrite (refresh_no_token _ H Ht) in Hrun; discriminate].
  destruct (token_endpoint env (List.length (http_log w))
                           (mkTokenRequest (refresh_token integration))) as [response|] eqn:Hr;
    [| rewrite (refresh_rejected _ H Ht Hr) in Hrun; discriminate].
  destruct (ok response) eqn:Hok;
    [| rewrite (refresh_failed _ _ H Ht Hr Hok) in Hrun; discriminate].
  destruct (json response) as [tokenData|] eqn:Hj;
    [| rewrite (refresh_bad_body _ _ H Ht Hr Hok Hj) in Hrun; discriminate].
  destruct (td_expires_in tokenData) as [expires_in|] eqn:He.
  - destruct (validTime (clock env (clock_reads w) + expires_in * 1000)) eqn:Hv.
    + rewrite (refresh_granted _ _ _ _ H Ht Hr Hok Hj He Hv) in Hrun.
      destruct (validTime (clock env (S (S (clock_reads w))) + expires_in * 1000));
        [| discriminate].
      injection Hrun as <- <-.
      exists integration, response, tokenData, expires_in. repeat split; assumption.
    + exfalso. revert Hrun.
      unfold refreshAccessToken, bind, getDatabase, fetchToken, responseJson, toISOString.
      rewrite H, Ht. cbn. rewrite Hr. cbn. rewrite Hok, Hj. cbn. rewrite He. cbn.
      rewrite Hv. cbn. discriminate.
  - exfalso. revert Hrun.
    unfold refreshAccessToken, bind, getDatabase, fetchToken, responseJson.
    rewrite H, Ht. cbn. rewrite Hr. cbn. rewrite Hok, Hj. cbn. rewrite He. cbn. discriminate.
Qed.

End RefreshRuns.

(** ** Rows under the UPDATE statements *)

Lemma row_of_update (i : Z) (f : Integration -> Integration) (d : Database) :
  (forall r, id (f r) = id r) ->
  row_of (update_where_id i f d) i = option_map f (row_of d i).
Proof.
  intros Hid. unfold row_of, update_where_id. cbn.
  induction (integrations d) as [|x l IH]; cbn; [reflexivity|].
  destruct (id x =? i) eqn:E.
  - rewrite Hid, E. reflexivity.
  - rewrite E. exact IH.
Qed.

Lemma get_active_update (i : Z) (f : Integration -> Integration) (d : Database) :
  (forall r, id (f r) = id r) ->
  (forall r, is_active (f r) = is_active r) ->
  get_active (update_where_id i f d) i = option_map f (get_active d i).
Proof.
  intros Hid Hact. unfold get_active, update_where_id. cbn.
  induction (integrations d) as [|x l IH]; cbn; [reflexivity|].
  destruct (id x =? i) eqn:E.
  - rewrite Hid, Hact, E. cbn. destruct (is_active x); [reflexivity | exact IH].
  - rewrite E. cbn. exact IH.
Qed.

Lemma get_active_row (d : Database) (i : Z) (r : Integration) :
  get_active d i = Some r -> In r (integrations d) /\ id r = i /\ is_active r = true.
Proof.
  unfold get_active. intros H. apply find_some in H. destruct H as [Hin Hp].
  apply andb_true_iff in Hp. destruct Hp as [Hid Hact].
  apply Z.eqb_eq in Hid. auto.
Qed.

Lemma get_active_has_row (d : Database) (i : Z) (r : Integration) :
  get_active d i = Some r -> exists r0, row_of d i = Some r0.
Proof.
  intros H. apply get_active_row in H. destruct H as [Hin [Hid _]].
  unfold row_of. destruct (find (fun r1 => id r1 =? i) (integrations d)) as [r0|] eqn:F.
  - exists r0. reflexivity.
  - exfalso. apply (find_none _ _ F) in Hin. rewrite Hid, Z.eqb_refl in Hin. discriminate.
Qed.

(** ** refreshAccessToken: contract *)

(** C4, as the code has it.  For an account that is missing or not
    active the call fails with [IntegrationNotFound] and nothing at all
    happens.  For an account that is found active:
    without a refresh token the call fails with [NoRefreshToken] and
    nothing at all happens (no request);
    otherwise exactly one request goes to the token endpoint, and
      - a response that is not ok makes the call fail with
        [TokenRefreshFailed], the only write being the failure counter
        plus one;
      - an ok response with a token body whose expiry is a valid date
        makes the row hold the new access token, the new (or retained)
        refresh token and expiry, the clock reading as [last_refresh_at]
        and a failure counter of 0. *)
Theorem refresh_contract_active (env : Env) (w : World) (integrationId : Z) :
  let run := refreshAccessToken env integrationId w in
  (get_active (db w) integrationId = None -> run = (Thrown IntegrationNotFound, w)) /\
  (forall integration,
      get_active (db w) integrationId = Some integration ->
      let request := mkTokenRequest (refresh_token integration) in
      (truthy_text (refresh_token integration) = false ->
       run = (Thrown NoRefreshToken, w)) /\
      (truthy_text (refresh_token integration) = true ->
       http_log (snd run) = http_log w ++ [TokenCall request] /\
       forall response,
         token_endpoint env (List.length (http_log w)) request = Some response ->
         (ok response = false ->
          fst run = Thrown (TokenRefreshFailed (status response) (text response)) /\
          db (snd run) = count_failure integrationId (db w) /\
          option_map refresh_failures (row_of (db (snd run)) integrationId)
          = option_map (fun r => refresh_failures r + 1) (row_of (db w) integrationId)) /\
         (ok response = true ->
          forall tokenData expires_in,
            json response = Some tokenData ->
            td_expires_in tokenData = Some expires_in ->
            validTime (clock env (clock_reads w) + expires_in * 1000) = true ->
            exists row,
              row_of (db (snd run)) integrationId = Some row /\
              access_token row = td_access_token tokenData /\
              refresh_token row
              = text_or (td_refresh_token tokenData) (refresh_token integration) /\
              expires_at row = Some (clock env (clock_reads w) + expires_in * 1000) /\
              last_refresh_at row = Some (clock env (S (clock_reads w))) /\
              refresh_failures row = 0))).
Proof.
  intros run. subst run. split.
  { intros Hnone. exact (refresh_not_found env w integrationId Hnone). }
  intros integration Hget request. subst request. split.
  - intros Ht. exact (refresh_no_token env w integrationId integration Hget Ht).
  - intros Ht. split.
    + destruct (token_endpoint env (List.length (http_log w))
                               (mkTokenRequest (refresh_token integration)))
        as [response|] eqn:Hr.
      * unfold refreshAccessToken, bind, getDatabase, fetchToken, responseJson, toISOString.
        rewrite Hget, Ht. cbn. rewrite Hr. cbn.
        destruct (ok response); cbn; [| reflexivity].
        destruct (json response) as [td|]; cbn; [| reflexivity].
        destruct (td_expires_in td) as [e|]; cbn; [| reflexivity].
        destruct (validTime (clock env (clock_reads w) + e * 1000)); cbn; [| reflexivity].
        destruct (validTime (clock env (S (S (clock_reads w))) + e * 1000)); reflexivity.
      * rewrite (refresh_rejected env w integrationId integration Hget Ht Hr). reflexivity.
    + intros response Hr. split.
      * intros Hok.
        rewrite (refresh_failed env w integrationId integration response Hget Ht Hr Hok).
        cbn [fst snd db]. repeat split.
        unfold count_failure. rewrite row_of_update by reflexivity.
        destruct (row_of (db w) integrationId); reflexivity.
      * intros Hok tokenData expires_in Hj He Hv.
        rewrite (refresh_granted env w integrationId integration response tokenData
                                 expires_in Hget Ht Hr Hok Hj He Hv).
        unfold refreshed_world. cbn [fst snd db]. rewrite row_of_update by reflexivity.
        destruct (get_active_has_row _ _ _ Hget) as [r0 Hr0]. rewrite Hr0. cbn.
        eexists. split; [reflexivity|]. cbn. repeat split.
Qed.

(** The contract at work on the account of [Scenario]: one active account
    with a refresh token, and a token endpoint that answers 401. *)
Lemma refresh_contract_active_witness :
  get_active (db (Scenario.world_of [Scenario.account 1 (Some "refresh-0") None 0 true true])) 1
  = Some (Scenario.account 1 (Some "refresh-0") None 0 true true) /\
  fst (refreshAccessToken (Scenario.env_of Scenario.unauthorized)
         1 (Scenario.world_of [Scenario.account 1 (Some "refresh-0") None 0 true true]))
  = Thrown (TokenRefreshFailed 401 "unauthorized_client").
Proof.
  split; [reflexivity|].
  pose proof (refresh_contract_active (Scenario.env_of Scenario.unauthorized)
                (Scenario.world_of [Scenario.account 1 (Some "refresh-0") None 0 true true])
                1) as H.
  cbv zeta in H. destruct H as [_ H].
  destruct (H (Scenario.account 1 (Some "refresh-0") None 0 true true) eq_refl) as [_ H1].
  destruct (H1 eq_refl) as [_ H2].
  destruct (H2 _ eq_refl) as [Hfail _]. destruct (Hfail eq_refl) as [Hthrown _].
  exact Hthrown.
Defined.

(** C4 as stated fails for an account that is not active: a deactivated
    account without a refresh token gets [IntegrationNotFound], not
    [NoRefreshToken]; a deactivated account with a refresh token gets the
    same error and no request is made. *)
Lemma refresh_inactive_counterexample :
  fst (refreshAccessToken (Scenario.env_of (Scenario.granted None))
         7 (Scenario.world_of [Scenario.account 7 None None 0 false false]))
  = Thrown IntegrationNotFound /\
  refreshAccessToken (Scenario.env_of (Scenario.granted None))
    7 (Scenario.world_of [Scenario.account 7 (Some "refresh-0") None 0 false false])
  = (Thrown IntegrationNotFound,
     Scenario.world_of [Scenario.account 7 (Some "refresh-0") None 0 false false]).
Proof. split; reflexivity. Qed.

(** C9.  When a call of [refreshAccessToken] returns and the body of the
    token endpoint's response carries no refresh token, the refresh token
    returned is the one the account's row held before the call, and the
    row still holds it afterwards. *)
Theorem refresh_retains_refresh_token
        (env : Env) (w w' : World) (integrationId : Z) (integration : Integration)
        (response : Response TokenData) (tokenData : TokenData) (tokens : Tokens) :
  get_active (db w) integrationId = Some integration ->
  token_endpoint env (List.length (http_log w)) (mkTokenRequest (refresh_token integration))
  = Some response ->
  json response = Some tokenData ->
  td_refresh_token tokenData = None ->
  refreshAccessToken env integrationId w = (Returned tokens, w') ->
  refreshToken tokens = refresh_token integration /\
  option_map refresh_token (get_active (db w') integrationId)
  = Some (refresh_token integration) /\
  (forall row, In row (integrations (db w')) -> id row = integrationId ->
               refresh_token row = refresh_token integration).
Proof.
  intros Hget Hr Hj Hnone Hrun.
  destruct (refresh_returned_inv env w integrationId tokens w' Hrun)
    as (integration0 & response0 & tokenData0 & expires_in & Hget0 & Ht & Hr0 & Hok & Hj0
        & He & Htokens & Hw').
  rewrite Hget in Hget0. injection Hget0 as <-.
  rewrite Hr in Hr0. injection Hr0 as <-.
  rewrite Hj in Hj0. injection Hj0 as <-.
  subst tokens w'. unfold refreshed_world. cbn [refreshToken db].
  rewrite Hnone. cbn [text_or truthy_text]. split; [reflexivity|]. split.
  - rewrite get_active_update by reflexivity. rewrite Hget. reflexivity.
  - intros row Hin Hid. unfold update_where_id in Hin. cbn in Hin.
    apply in_map_iff in Hin. destruct Hin as [old [Hrow Hold]].
    destruct (id old =? integrationId) eqn:E.
    + subst row. reflexivity.
    + subst row. apply Z.eqb_neq in E. contradiction.
Qed.

Lemma refresh_retains_refresh_token_witness :
  refreshToken
    (mkTokens (Some "access-1") (Some "refresh-0") (Scenario.t0 + 3600 * 1000))
  = refresh_token (Scenario.account 1 (Some "refresh-0") None 2 true true) /\
  option_map refresh_token
    (get_active
       (db (snd (refreshAccessToken (Scenario.env_of (Scenario.granted None)) 1
                   (Scenario.world_of [Scenario.account 1 (Some "refresh-0") None 2 true true]))))
       1)
  = Some (Some "refresh-0").
Proof.
  pose proof (refresh_retains_refresh_token
                (Scenario.env_of (Scenario.granted None))
                (Scenario.world_of [Scenario.account 1 (Some "refresh-0") None 2 true true])
                (snd (refreshAccessToken (Scenario.env_of (Scenario.granted None)) 1
                        (Scenario.world_of
                           [Scenario.account 1 (Some "refresh-0") None 2 true true])))
                1 (Scenario.account 1 (Some "refresh-0") None 2 true true)
                (mkResponse 200 "" (Some (mkTokenData (Some "access-1") None (Some 3600))))
                (mkTokenData (Some "access-1") None (Some 3600))
                (mkTokens (Some "access-1") (Some "refresh-0") (Scenario.t0 + 3600 * 1000))
                eq_refl eq_refl eq_refl eq_refl eq_refl) as [H1 [H2 _]].
  split; [exact H1 | exact H2].
Defined.

(** C10.  When the token endpoint answers a refresh with a response that is
    not ok, the call fails with [TokenRefreshFailed] and the database
    differs from the one before only in [refresh_failures] of the rows
    with the given id, which is one larger: every other column of every
    row of [integrations], and every other table, is as before. *)
Theorem refresh_failure_frame
        (env : Env) (w : World) (integrationId : Z) (integration : Integration)
        (response : Response TokenData) :
  get_active (db w) integrationId = Some integration ->
  truthy_text (refresh_token integration) = true ->
  token_endpoint env (List.length (http_log w)) (mkTokenRequest (refresh_token integration))
  = Some response ->
  ok response = false ->
  let run := refreshAccessToken env integrationId w in
  fst run = Thrown (TokenRefreshFailed (status response) (text response)) /\
  Forall2 (fun old new =>
             same_but_failures (if id old =? integrationId then 1 else 0) old new)
          (integrations (db w)) (integrations (db (snd run))) /\
  integrations_seq (db (snd run)) = integrations_seq (db w) /\
  tables (db (snd run)) = tables (db w).
Proof.
  intros Hget Ht Hr Hok run. subst run.
  rewrite (refresh_failed env w integrationId integration response Hget Ht Hr Hok).
  cbn [fst snd db]. split; [reflexivity|]. split; [| split; reflexivity].
  unfold count_failure, update_where_id. cbn.
  induction (integrations (db w)) as [|x l IH]; cbn; constructor; [| exact IH].
  destruct (id x =? integrationId); unfold same_but_failures; cbn;
    repeat split; lia.
Qed.

Lemma refresh_failure_frame_witness :
  integrations
    (db (snd (refreshAccessToken (Scenario.env_of Scenario.unauthorized) 1
                (Scenario.world_of
                   [Scenario.account 1 (Some "refresh-0") None 0 true true;
                    Scenario.account 2 (Some "refresh-b") None 0 true false]))))
  = [Scenario.account 1 (Some "refresh-0") None 1 true true;
     Scenario.account 2 (Some "refresh-b") None 0 true false] /\
  fst (refreshAccessToken (Scenario.env_of Scenario.unauthorized) 1
         (Scenario.world_of
            [Scenario.account 1 (Some "refresh-0") None 0 true true;
             Scenario.account 2 (Some "refresh-b") None 0 true false]))
  = Thrown (TokenRefreshFailed 401 "unauthorized_client").
Proof.
  split; [reflexivity|].
  exact (proj1 (refresh_failure_frame
                  (Scenario.env_of Scenario.unauthorized)
                  (Scenario.world_of
                     [Scenario.account 1 (Some "refresh-0") None 0 true true;
                      Scenario.account 2 (Some "refresh-b") None 0 true false])
                  1 (Scenario.account 1 (Some "refresh-0") None 0 true true)
                  (mkResponse 401 "unauthorized_client" None)
                  eq_refl eq_refl eq_refl eq_refl)).
Defined.

(** ** The refresh cycle *)

Import TokenRefreshScheduler.

Lemma forEach_app {A : Type} (l1 l2 : list A) (body : A -> M unit) (w : World) :
  (forall x w0, fst (body x w0) = Returned tt) ->
  forEach (l1 ++ l2) body w = forEach l2 body (snd (forEach l1 body w)).
Proof.
  intros Hret. revert w. induction l1 as [|x l1 IH]; intros w; cbn; [reflexivity|].
  unfold bind. specialize (Hret x w). destruct (body x w) as [[[]|e] w1]; cbn in *.
  - apply IH.
  - discriminate.
Qed.

Lemma forEach_returns {A : Type} (l : list A) (body : A -> M unit) (w : World) :
  (forall x w0, fst (body x w0) = Returned tt) ->
  fst (forEach l body w) = Returned tt.
Proof.
  intros Hret. revert w. induction l as [|x l IH]; intros w; cbn; [reflexivity|].
  unfold bind. specialize (Hret x w). destruct (body x w) as [[[]|e] w1]; cbn in *.
  - apply IH.
  - discriminate.
Qed.

(** A property of worlds kept by every turn is kept by the loop. *)
Lemma forEach_invariant {A : Type} (P : World -> Prop) (l : list A) (body : A -> M unit) :
  (forall x w0, P w0 -> P (snd (body x w0))) ->
  forall w, P w -> P (snd (forEach l body w)).
Proof.
  intros Hstep. induction l as [|x l IH]; intros w Hw; cbn; [exact Hw|].
  unfold bind. specialize (Hstep x w Hw). destruct (body x w) as [[[]|e] w1]; cbn in *.
  - apply IH. exact Hstep.
  - exact Hstep.
Qed.

(** The database after a call of [refreshAccessToken] is the one before,
    or the one before with either UPDATE applied; the call never writes
    the scheduler's flag. *)
Lemma refresh_effect (env : Env) (i : Z) (w : World) :
  let w' := snd (refreshAccessToken env i w) in
  isRunning w' = isRunning w /\
  (db w' = db w \/
   db w' = count_failure i (db w) \/
   exists access refresh expires refreshed,
     db w' = update_where_id i (set_tokens access refresh expires refreshed) (db w)).
Proof.
  unfold refreshAccessToken, bind, getDatabase, fetchToken, responseJson, toISOString.
  destruct (get_active (db w) i) as [integration|]; cbn; [| auto].
  destruct (truthy_text (refresh_token integration)); cbn; [| auto].
  destruct (token_endpoint env (List.length (http_log w))
                           (mkTokenRequest (refresh_token integration))) as [response|];
    cbn; [| auto].
  destruct (ok response); cbn; [| auto].
  destruct (json response) as [td|]; cbn; [| auto].
  destruct (td_expires_in td) as [e|]; cbn; [| auto].
  destruct (validTime (clock env (clock_reads w) + e * 1000)); cbn; [| auto].
  destruct (validTime (clock env (S (S (clock_reads w))) + e * 1000)); cbn;
    (split; [reflexivity | right; right; eauto]).
Qed.

Lemma refresh_throws_unless_granted (env : Env) (i : Z) (w : World) :
  never_granted env ->
  exists e, fst (refreshAccessToken env i w) = Thrown e.
Proof.
  intros Hng.
  unfold refreshAccessToken, bind, getDatabase, fetchToken.
  destruct (get_active (db w) i) as [integration|]; cbn; [| eauto].
  destruct (truthy_text (refresh_token integration)); cbn; [| eauto].
  destruct (token_endpoint env (List.length (http_log w))
                           (mkTokenRequest (refresh_token integration)))
    as [response|] eqn:Hr; cbn; [| eauto].
  rewrite (Hng _ _ _ Hr). cbn. eauto.
Qed.

Lemma needsRefresh_run (env : Env) (r : Integration) (w : World) :
  exists b w', needsRefresh env r w = (Returned b, w') /\
               db w' = db w /\ isRunning w' = isRunning w.
Proof.
  unfold needsRefresh, bind, dateNow, ret. destruct (expires_at r); cbn.
  - eexists. eexists. split; [reflexivity|]. split; reflexivity.
  - exists true, w. split; [reflexivity|]. split; reflexivity.
Qed.

Lemma needsRefresh_due (env : Env) (r : Integration) (w : World) :
  always_due env r -> fst (needsRefresh env r w) = Returned true.
Proof.
  unfold always_due, needsRefresh. destruct (expires_at r) as [e|]; cbn; [| reflexivity].
  intros H. f_equal. apply Z.leb_le. apply H.
Qed.

#[local] Arguments refreshAccessToken : simpl never.

(** One turn of the loop always returns, keeps the flag, and leaves a
    database obtained by the UPDATEs of the sources. *)
Lemma refreshOne_returns (env : Env) (r : Integration) (w : World) :
  fst (refreshOne env r w) = Returned tt.
Proof.
  unfold refreshOne, try_catch, bind.
  destruct (needsRefresh_run env r w) as (b & w1 & -> & _ & _).
  destruct b; cbn.
  - destruct (refreshAccessToken env (id r) w1) as [[t|e] w2]; cbn; [reflexivity|].
    destruct (3 <=? refresh_failures r); reflexivity.
  - reflexivity.
Qed.


Lemma deactivated_update (i j : Z) (f : Integration -> Integration) (d : Database) :
  (forall r, id (f r) = id r) ->
  (forall r, is_active r = false -> is_active (f r) = false) ->
  deactivated i d -> deactivated i (update_where_id j f d).
Proof.
  intros Hid Hact Hd r Hin Hr. unfold update_where_id in Hin. cbn in Hin.
  apply in_map_iff in Hin. destruct Hin as [old [Hrow Hold]].
  destruct (id old =? j); subst r.
  - apply Hact. apply Hd; [exact Hold|]. rewrite <- Hr. symmetry. apply Hid.
  - apply Hd; assumption.
Qed.

Lemma ids_update (j : Z) (f : Integration -> Integration) (d : Database) :
  (forall r, id (f r) = id r) ->
  map id (integrations (update_where_id j f d)) = map id (integrations d).
Proof.
  intros Hid. unfold update_where_id. cbn. rewrite map_map. apply map_ext.
  intros r. destruct (id r =? j); [apply Hid | reflexivity].
Qed.

Lemma refreshOne_keeps_deactivated (env : Env) (i : Z) (r : Integration) (w : World) :
  deactivated i (db w) -> deactivated i (db (snd (refreshOne env r w))).
Proof.
  intros Hd. unfold refreshOne, try_catch, bind.
  destruct (needsRefresh_run env r w) as (b & w1 & -> & Hdb & _).
  rewrite <- Hdb in Hd. destruct b; cbn; [| exact Hd].
  pose proof (refresh_effect env (id r) w1) as [_ Hcases]. cbv zeta in Hcases.
  assert (Hd2 : deactivated i (db (snd (refreshAccessToken env (id r) w1)))).
  { destruct Hcases as [-> | [-> | (a & b & c & e & ->)]].
    - exact Hd.
    - apply deactivated_update; auto.
    - apply deactivated_update; auto. }
  destruct (refreshAccessToken env (id r) w1) as [[t|e] w2]; cbn in *; [exact Hd2|].
  destruct (3 <=? refresh_failures r); cbn; [| exact Hd2].
  apply deactivated_update; auto.
Qed.

Lemma refreshOne_keeps_ids (env : Env) (r : Integration) (w : World) :
  map id (integrations (db (snd (refreshOne env r w)))) = map id (integrations (db w)).
Proof.
  unfold refreshOne, try_catch, bind.
  destruct (needsRefresh_run env r w) as (b & w1 & -> & Hdb & _).
  rewrite <- Hdb. destruct b; cbn; [| reflexivity].
  pose proof (refresh_effect env (id r) w1) as [_ Hcases]. cbv zeta in Hcases.
  assert (Hd2 : map id (integrations (db (snd (refreshAccessToken env (id r) w1))))
                = map id (integrations (db w1))).
  { destruct Hcases as [-> | [-> | (a & b & c & e & ->)]].
    - reflexivity.
    - apply ids_update; auto.
    - apply ids_update; auto. }
  destruct (refreshAccessToken env (id r) w1) as [[t|e] w2]; cbn in *; [exact Hd2|].
  destruct (3 <=? refresh_failures r); cbn -[update_where_id]; [| exact Hd2].
  rewrite ids_update by auto. exact Hd2.
Qed.

(** A turn whose refresh fails, for a row read with a counter of 3 or
    more, clears the active flag of the account. *)
Lemma refreshOne_deactivates (env : Env) (r : Integration) (w : World) :
  never_granted env ->
  always_due env r ->
  3 <= refresh_failures r ->
  deactivated (id r) (db (snd (refreshOne env r w))).
Proof.
  intros Hng Hdue Hthree. unfold refreshOne, try_catch, bind.
  pose proof (needsRefresh_due env r w Hdue) as Hn.
  destruct (needsRefresh env r w) as [[b|e] w1]; cbn in Hn; [| discriminate].
  injection Hn as ->.
  destruct (refresh_throws_unless_granted env (id r) w1 Hng) as [e He].
  destruct (refreshAccessToken env (id r) w1) as [[t|e'] w2]; cbn in He; [discriminate|].
  apply Z.leb_le in Hthree. rewrite Hthree. cbn.
  intros row Hin Hid. apply in_map_iff in Hin. destruct Hin as [old [Hrow Hold]].
  destruct (id old =? id r) eqn:E; subst row.
  - reflexivity.
  - apply Z.eqb_neq in E. contradiction.
Qed.

(** The run of the guard, for any cycle. *)
Lemma guarded_run (cycle : M unit) (w : World) :
  isRunning w = false ->
  guarded cycle w
  = (Returned tt, with_running false (snd (cycle (with_running true w)))).
Proof.
  intros Hf. unfold guarded, bind, getRunning, setRunning, try_finally, try_catch, ret.
  rewrite Hf. fold (with_running true w).
  destruct (cycle (with_running true w)) as [[[]|e] w1]; reflexivity.
Qed.

Lemma bind_run {A B : Type} (m : M A) (k : A -> M B) (w : World) :
  bind m k w = match m w with
               | (Returned a, w') => k a w'
               | (Thrown e, w') => (Thrown e, w')
               end.
Proof. reflexivity. Qed.



Lemma deactivated_not_found (i : Z) (d : Database) :
  deactivated i d -> get_active d i = None.
Proof.
  intros Hd. unfold get_active.
  destruct (find (fun r => (id r =? i) && is_active r) (integrations d)) as [r|] eqn:F;
    [| reflexivity].
  apply find_some in F. destruct F as [Hin Hp].
  apply andb_true_iff in Hp. destruct Hp as [Hid Hact]. apply Z.eqb_eq in Hid.
  rewrite (Hd r Hin Hid) in Hact. discriminate.
Qed.

Lemma refreshCycle_keeps (env : Env) (P : World -> Prop) (w : World) :
  (forall r w0, P w0 -> P (snd (refreshOne env r w0))) ->
  P w -> P (snd (refreshCycle env w)).
Proof.
  intros Hstep Hw. unfold refreshCycle, bind, getDatabase.
  apply forEach_invariant; assumption.
Qed.

(** C3, as the code has it.  In a refresh pass during which no refresh is
    granted, an active account that is due for refresh and whose failure
    counter stood at 3 or more when the pass read it has its active flag
    cleared by the pass (no account is added or removed); from then on
    [refreshAccessToken] for that account fails with
    [IntegrationNotFound], which is not the [TokenRefreshFailed] of a
    refused refresh, and it neither sends a request nor writes. *)
Theorem refresh_pass_deactivation (env : Env) (w : World) (r : Integration) :
  isRunning w = false ->
  never_granted env ->
  In r (integrations (db w)) ->
  is_active r = true ->
  3 <= refresh_failures r ->
  always_due env r ->
  let w' := snd (refreshAllTokens env w) in
  deactivated (id r) (db w') /\
  map id (integrations (db w')) = map id (integrations (db w)) /\
  refreshAccessToken env (id r) w' = (Thrown IntegrationNotFound, w') /\
  (forall status text, IntegrationNotFound <> TokenRefreshFailed status text).
Proof.
  intros Hf Hng Hin Hact Hthree Hdue w'. subst w'.
  unfold refreshAllTokens. rewrite (guarded_run (refreshCycle env) w Hf). cbn [snd].
  assert (Hd : deactivated (id r) (db (snd (refreshCycle env (with_running true w))))).
  { unfold refreshCycle, bind, getDatabase. cbn [db with_running].
    assert (Hsel : In r (select_active (db w))).
    { unfold select_active. apply filter_In. split; assumption. }
    apply in_split in Hsel. destruct Hsel as (l1 & l2 & ->).
    rewrite forEach_app by (intros; apply refreshOne_returns).
    cbn [forEach]. unfold bind at 1.
    pose proof (refreshOne_returns env r (snd (forEach l1 (refreshOne env) (with_running true w))))
      as Hret.
    pose proof (refreshOne_deactivates env r
                  (snd (forEach l1 (refreshOne env) (with_running true w)))
                  Hng Hdue Hthree) as Hde.
    destruct (refreshOne env r (snd (forEach l1 (refreshOne env) (with_running true w))))
      as [[[]|e] w1]; cbn in Hret, Hde; [| discriminate].
    apply (forEach_invariant (fun w0 => deactivated (id r) (db w0))); [| exact Hde].
    intros x w0 H0. apply refreshOne_keeps_deactivated. exact H0. }
  split; [exact Hd|]. split; [| split].
  - cbn [db with_running].
    apply (refreshCycle_keeps env
             (fun w0 => map id (integrations (db w0)) = map id (integrations (db w)))).
    + intros x w0 H0. rewrite refreshOne_keeps_ids. exact H0.
    + reflexivity.
  - apply refresh_not_found. apply deactivated_not_found. exact Hd.
  - intros status text. discriminate.
Qed.

Lemma refresh_pass_deactivation_witness :
  integrations
    (db (snd (refreshAllTokens (Scenario.env_of Scenario.unauthorized)
                (Scenario.world_of [Scenario.due 1 3 true]))))
  = [Scenario.due 1 4 false] /\
  deactivated 1
    (db (snd (refreshAllTokens (Scenario.env_of Scenario.unauthorized)
                (Scenario.world_of [Scenario.due 1 3 true])))).
Proof.
  split; [reflexivity|].
  refine (proj1 (refresh_pass_deactivation
                   (Scenario.env_of Scenario.unauthorized)
                   (Scenario.world_of [Scenario.due 1 3 true])
                   (Scenario.due 1 3 true)
                   eq_refl _ (or_introl eq_refl) eq_refl _ _)).
  - intros k rq response H. injection H as <-. reflexivity.
  - cbn. lia.
  - intros k. vm_compute. discriminate.
Defined.

(** C3 as stated fails on the code.  One active account with a refresh
    token, its access token expiring within the buffer, and an endpoint
    that refuses every refresh: after three consecutive failing passes the
    counter is 3 and the account is still active; only the fourth pass
    clears the flag, and the refresh after that fails with
    [IntegrationNotFound] where the earlier ones failed with
    [TokenRefreshFailed]. *)
Lemma three_failures_counterexample :
  integrations
    (db (cycles (Scenario.env_of Scenario.unauthorized) 3
           (Scenario.world_of [Scenario.due 1 0 true])))
  = [Scenario.due 1 3 true] /\
  fst (refreshAccessToken (Scenario.env_of Scenario.unauthorized) 1
         (cycles (Scenario.env_of Scenario.unauthorized) 3
            (Scenario.world_of [Scenario.due 1 0 true])))
  = Thrown (TokenRefreshFailed 401 "unauthorized_client") /\
  integrations
    (db (cycles (Scenario.env_of Scenario.unauthorized) 4
           (Scenario.world_of [Scenario.due 1 0 true])))
  = [Scenario.due 1 4 false] /\
  fst (refreshAccessToken (Scenario.env_of Scenario.unauthorized) 1
         (cycles (Scenario.env_of Scenario.unauthorized) 4
            (Scenario.world_of [Scenario.due 1 0 true])))
  = Thrown IntegrationNotFound.
Proof. repeat split; vm_compute; reflexivity. Qed.

(** ** The primary flag *)

Import WebServer.

Lemma filter_length_le {A : Type} (p q : A -> bool) (l : list A) :
  (forall x, p x = true -> q x = true) ->
  (List.length (filter p l) <= List.length (filter q l))%nat.
Proof.
  intros Hpq. induction l as [|x l IH]; cbn; [lia|].
  destruct (p x) eqn:Hp.
  - rewrite (Hpq x Hp). cbn. lia.
  - destruct (q x); cbn; lia.
Qed.

Lemma filter_map_length_le {A : Type} (p : A -> bool) (f : A -> A) (l : list A) :
  (forall x, p (f x) = true -> p x = true) ->
  (List.length (filter p (map f l)) <= List.length (filter p l))%nat.
Proof.
  intros Hp. induction l as [|x l IH]; cbn; [lia|].
  destruct (p (f x)) eqn:E.
  - rewrite (Hp x E). cbn. lia.
  - destruct (p x); cbn; lia.
Qed.

Lemma at_most_one_update (j : Z) (f : Integration -> Integration) (d : Database) :
  (forall r, active_primary (f r) = true -> active_primary r = true) ->
  at_most_one_primary d -> at_most_one_primary (update_where_id j f d).
Proof.
  intros Hf Hd. unfold at_most_one_primary, update_where_id in *. cbn.
  etransitivity; [| exact Hd].
  apply filter_map_length_le. intros x. destruct (id x =? j); auto.
Qed.

Lemma NoDup_snoc {A : Type} (l : list A) (x : A) :
  NoDup l -> ~ In x l -> NoDup (l ++ [x]).
Proof.
  induction l as [|y l IH]; cbn; intros Hn Hx.
  - constructor; [intros [] | constructor].
  - inversion Hn as [|? ? Hy Hl]; subst. constructor.
    + rewrite in_app_iff. cbn. intros [H | [H | []]]; [contradiction|].
      apply Hx. left. symmetry. exact H.
    + apply IH; [exact Hl|]. intros H. apply Hx. right. exact H.
Qed.

Lemma max_bound (s : Z) (l : list Z) (x : Z) :
  In x l -> x <= fold_right Z.max s l.
Proof.
  induction l as [|y l IH]; cbn; [contradiction|].
  intros [-> | Hin]; [lia|]. specialize (IH Hin). lia.
Qed.

Lemma next_integration_id_fresh (d : Database) :
  ~ In (next_integration_id d) (map id (integrations d)).
Proof.
  unfold next_integration_id. intros Hin.
  apply (max_bound (integrations_seq d)) in Hin. lia.
Qed.

(** What [storeTokens] does to the table. *)
Lemma storeTokens_run (env : Env) (projectId : string) (tokens : Tokens)
      (accountInfo : AccountInfo) (w : World) :
  exists row,
    fst (storeTokens env projectId tokens accountInfo w) = Returned (id row) /\
    integrations (db (snd (storeTokens env projectId tokens accountInfo w)))
    = integrations (db w) ++ [row] /\
    id row = next_integration_id (db w) /\
    is_active row = true /\
    is_primary row = (Z.of_nat (List.length (select_active (db w))) =? 0) /\
    refresh_failures row = 0 /\
    access_token row = accessToken tokens /\
    refresh_token row = refreshToken tokens.
Proof.
  unfold storeTokens, bind, getDatabase, dateNow, setDatabase, ret.
  cbn -[next_integration_id Z.of_nat Z.eqb].
  eexists (mkIntegration _ _ _ _ _ _ _ _ _ _ _ _ _ _).
  split; [reflexivity|]. split; [reflexivity|]. cbn -[next_integration_id Z.of_nat Z.eqb].
  repeat split.
Qed.

Lemma storeTokens_keeps_invariant (env : Env) (projectId : string) (tokens : Tokens)
      (accountInfo : AccountInfo) (w : World) :
  at_most_one_primary (db w) ->
  at_most_one_primary (db (snd (storeTokens env projectId tokens accountInfo w))).
Proof.
  intros Hd.
  destruct (storeTokens_run env projectId tokens accountInfo w)
    as (row & _ & Hrows & _ & Hact & Hprim & _).
  unfold at_most_one_primary in *. rewrite Hrows, filter_app, length_app. cbn.
  unfold active_primary at 2. rewrite Hact, Hprim. cbn.
  destruct (Z.of_nat (List.length (select_active (db w))) =? 0) eqn:E; cbn; [| lia].
  apply Z.eqb_eq in E.
  assert (Hnil : select_active (db w) = []).
  { destruct (select_active (db w)); [reflexivity | cbn in E; lia]. }
  assert (Hnone : filter active_primary (integrations (db w)) = []).
  { pose proof (filter_length_le active_primary is_active (integrations (db w))) as Hle.
    unfold select_active in Hnil. rewrite Hnil in Hle. cbn in Hle.
    destruct (filter active_primary (integrations (db w))); [reflexivity|].
    cbn in Hle. exfalso.
    assert (S (List.length l) <= 0)%nat; [| lia].
    apply Hle. intros x Hx. unfold active_primary in Hx.
    apply andb_true_iff in Hx. tauto. }
  rewrite Hnone. cbn. lia.
Qed.

Lemma storeTokens_keeps_ids (env : Env) (projectId : string) (tokens : Tokens)
      (accountInfo : AccountInfo) (w : World) :
  unique_ids (db w) ->
  unique_ids (db (snd (storeTokens env projectId tokens accountInfo w))).
Proof.
  intros Hu.
  destruct (storeTokens_run env projectId tokens accountInfo w)
    as (row & _ & Hrows & Hid & _).
  unfold unique_ids in *. rewrite Hrows, map_app. cbn.
  apply NoDup_snoc; [exact Hu|].
  rewrite Hid. apply next_integration_id_fresh.
Qed.

Lemma filter_map_length_le2 {A : Type} (p q : A -> bool) (g : A -> A) (l : list A) :
  (forall x, p (g x) = true -> q x = true) ->
  (List.length (filter p (map g l)) <= List.length (filter q l))%nat.
Proof.
  intros Hp. induction l as [|x l IH]; cbn; [lia|].
  destruct (p (g x)) eqn:E.
  - rewrite (Hp x E). cbn. lia.
  - destruct (q x); cbn; lia.
Qed.

Lemma clearPrimary_run (w : World) :
  clearPrimary w
  = (Returned tt,
     mkWorld (update_all (set_is_primary false) (db w))
             (clock_reads w) (random_reads w) (http_log w) (isRunning w)).
Proof. reflexivity. Qed.

Lemma setPrimary_run (i : Z) (w : World) :
  setPrimary i w
  = (Returned tt,
     mkWorld (update_where_id i (set_is_primary true)
                (update_all (set_is_primary false) (db w)))
             (clock_reads w) (random_reads w) (http_log w) (isRunning w)).
Proof. reflexivity. Qed.

Lemma clearPrimary_none (d : Database) :
  filter active_primary (integrations (update_all (set_is_primary false) d)) = [].
Proof.
  unfold update_all. cbn. induction (integrations d) as [|x l IH]; cbn; [reflexivity|].
  unfold active_primary at 1. cbn. rewrite andb_false_r. exact IH.
Qed.

Lemma filter_id_unique (i : Z) (l : list Integration) :
  NoDup (map id l) -> (List.length (filter (fun r => (id r =? i)%Z) l) <= 1)%nat.
Proof.
  induction l as [|x l IH]; cbn; intros Hn; [lia|].
  inversion Hn as [|? ? Hx Hl]; subst.
  destruct (id x =? i) eqn:E; [| apply IH; exact Hl].
  apply Z.eqb_eq in E. cbn.
  assert (Hnone : filter (fun r => id r =? i) l = []).
  { destruct (filter (fun r => id r =? i) l) as [|y l'] eqn:F; [reflexivity|].
    exfalso. assert (Hy : In y (filter (fun r => id r =? i) l)) by (rewrite F; left; reflexivity).
    apply filter_In in Hy. destruct Hy as [Hin Hid]. apply Z.eqb_eq in Hid.
    apply Hx. rewrite E, <- Hid. apply in_map. exact Hin. }
  rewrite Hnone. cbn. lia.
Qed.

Lemma setPrimary_keeps_invariant (i : Z) (w : World) :
  unique_ids (db w) ->
  at_most_one_primary (db (snd (setPrimary i w))).
Proof.
  intros Hu. rewrite setPrimary_run. cbn [snd db].
  unfold at_most_one_primary, update_where_id, update_all. cbn [integrations set_integrations].
  rewrite map_map.
  etransitivity; [| apply (filter_id_unique i _ Hu)].
  apply filter_map_length_le2. intros x.
  cbn. destruct (id x =? i); [reflexivity|].
  unfold active_primary. cbn. rewrite andb_false_r. discriminate.
Qed.

Lemma setPrimary_keeps_ids (i : Z) (w : World) :
  map id (integrations (db (snd (setPrimary i w)))) = map id (integrations (db w)).
Proof.
  rewrite setPrimary_run. cbn [snd db]. rewrite ids_update by reflexivity.
  unfold update_all. cbn. rewrite map_map. reflexivity.
Qed.

Lemma refresh_keeps_invariant (env : Env) (i : Z) (w : World) :
  at_most_one_primary (db w) ->
  at_most_one_primary (db (snd (refreshAccessToken env i w))).
Proof.
  intros Hd. pose proof (refresh_effect env i w) as [_ Hcases]. cbv zeta in Hcases.
  destruct Hcases as [-> | [-> | (a & b & c & e & ->)]].
  - exact Hd.
  - apply at_most_one_update; auto.
  - apply at_most_one_update; auto.
Qed.

Lemma refresh_keeps_ids (env : Env) (i : Z) (w : World) :
  map id (integrations (db (snd (refreshAccessToken env i w)))) = map id (integrations (db w)).
Proof.
  pose proof (refresh_effect env i w) as [_ Hcases]. cbv zeta in Hcases.
  destruct Hcases as [-> | [-> | (a & b & c & e & ->)]].
  - reflexivity.
  - apply ids_update; auto.
  - apply ids_update; auto.
Qed.

Lemma set_inactive_shrinks (r : Integration) :
  active_primary (set_is_active false r) = true -> active_primary r = true.
Proof. unfold active_primary. cbn. discriminate. Qed.

Lemma refreshOne_keeps_invariant (env : Env) (r : Integration) (w : World) :
  at_most_one_primary (db w) ->
  at_most_one_primary (db (snd (refreshOne env r w))).
Proof.
  intros Hd. unfold refreshOne, try_catch, bind.
  destruct (needsRefresh_run env r w) as (b & w1 & -> & Hdb & _).
  rewrite <- Hdb in Hd. destruct b; cbn; [| exact Hd].
  pose proof (refresh_keeps_invariant env (id r) w1 Hd) as Hd2.
  destruct (refreshAccessToken env (id r) w1) as [[t|e] w2]; cbn in *; [exact Hd2|].
  destruct (3 <=? refresh_failures r); cbn -[update_where_id]; [| exact Hd2].
  apply at_most_one_update; [apply set_inactive_shrinks | exact Hd2].
Qed.

Lemma refreshAllTokens_db (env : Env) (w : World) :
  db (snd (refreshAllTokens env w)) = db w \/
  db (snd (refreshAllTokens env w)) = db (snd (refreshCycle env (with_running true w))).
Proof.
  destruct (isRunning w) eqn:Hf.
  - left. unfold refreshAllTokens, guarded, bind, getRunning. rewrite Hf. reflexivity.
  - right. unfold refreshAllTokens. rewrite guarded_run by exact Hf. reflexivity.
Qed.

Lemma perform_keeps (env : Env) (op : Operation) (w : World) :
  unique_ids (db w) /\ at_most_one_primary (db w) ->
  unique_ids (db (perform env op w)) /\ at_most_one_primary (db (perform env op w)).
Proof.
  intros [Hu Hd]. destruct op as [projectId tokens accountInfo | i | i | i |]; cbn [perform].
  - split; [apply storeTokens_keeps_ids | apply storeTokens_keeps_invariant]; assumption.
  - split; [| apply setPrimary_keeps_invariant; exact Hu].
    unfold unique_ids. rewrite setPrimary_keeps_ids. exact Hu.
  - unfold deactivateAccount, bind, getDatabase, setDatabase. cbn [snd db]. split.
    + unfold unique_ids. rewrite ids_update by reflexivity. exact Hu.
    + apply at_most_one_update; [apply set_inactive_shrinks | exact Hd].
  - split; [| apply refresh_keeps_invariant; exact Hd].
    unfold unique_ids. rewrite refresh_keeps_ids. exact Hu.
  - destruct (refreshAllTokens_db env w) as [-> | ->]; [split; assumption|]. split.
    + apply (refreshCycle_keeps env (fun w0 => unique_ids (db w0))); [| exact Hu].
      intros r w0 H0. unfold unique_ids. rewrite refreshOne_keeps_ids. exact H0.
    + apply (refreshCycle_keeps env (fun w0 => at_most_one_primary (db w0))); [| exact Hd].
      intros r w0 H0. apply refreshOne_keeps_invariant. exact H0.
Qed.

Lemma reachable_keeps (env : Env) (w : World) :
  reachable env w -> unique_ids (db w) /\ at_most_one_primary (db w).
Proof.
  induction 1 as [w Hnew | w op Hreach IH].
  - rewrite Hnew. split; [apply NoDup_nil | unfold at_most_one_primary; cbn; lia].
  - apply perform_keeps. exact IH.
Qed.

(** A first account is authorised and later deactivated, then a second one
    is authorised: both rows carry the primary mark, one of them is
    active. *)
Example primary_after_reauthorisation :
  map (fun r => (id r, is_active r, is_primary r))
      (integrations
         (db (perform (Scenario.env_of Scenario.unauthorized)
                (StoreTokens "web-auth" (mkTokens (Some "a2") (Some "r2") Scenario.t0)
                             (mkAccountInfo None None None))
                (perform (Scenario.env_of Scenario.unauthorized) (DeactivateAccount 1)
                   (perform (Scenario.env_of Scenario.unauthorized)
                      (StoreTokens "web-auth" (mkTokens (Some "a1") (Some "r1") Scenario.t0)
                                   (mkAccountInfo None None None))
                      (Scenario.new_world initDatabase))))))
  = [(1, false, true); (2, true, true)].
Proof. reflexivity. Qed.

(** ** The comprehensive sync: which failures stay inside a step *)

Import ComprehensiveJiraSync.

Lemma swallowed_returns (m : M unit) (w : World) :
  fst (try_catch m (fun error => ret tt) w) = Returned tt.
Proof.
  unfold try_catch. destruct (m w) as [[[]|e] w1]; reflexivity.
Qed.

Lemma dbSelectColumn_total (name c : string) (i : Z) (w : World) :
  assoc name schema <> None ->
  exists l, dbSelectColumn name c i w = (Returned l, w).
Proof.
  intros Hs. unfold dbSelectColumn, bind, getDatabase, table.
  destruct (assoc name (tables (db w))) as [t|]; [eexists; reflexivity|].
  destruct (assoc name schema) as [cols|]; [| contradiction]. cbn. eexists. reflexivity.
Qed.

(** A loop over rows read from a table of the schema, each turn in a
    try/catch of its own, always returns. *)
Lemma per_row_returns (name c : string) (i : Z) (body : SqlValue -> M unit) (w : World) :
  assoc name schema <> None ->
  fst ((rows <- dbSelectColumn name c i ;;
        forEach rows (fun row => try_catch (body row) (fun error => ret tt))) w)
  = Returned tt.
Proof.
  intros Hs. unfold bind at 1.
  destruct (dbSelectColumn_total name c i w Hs) as [l ->].
  apply forEach_returns. intros x w0. apply swallowed_returns.
Qed.

Lemma isolated_step_returns (env : Env) (accessToken : option string) (cloudId : string)
      (integrationId : Z) (step : M unit) (w : World) :
  In step (isolated_steps env accessToken cloudId integrationId) ->
  fst (step w) = Returned tt.
Proof.
  unfold isolated_steps. cbn [In].
  intros [<- | [<- | [<- | [<- | [<- | [<- | [<- | [<- | [<- | [<- | [<- | [<- | [<- | [<- | []]]]]]]]]]]]]]];
    first [ apply swallowed_returns | apply per_row_returns; discriminate ].
Qed.

(** A sequence of steps throws exactly when one of them throws in the
    world the steps before it, all returning, have left. *)
Lemma in_turn_thrown (l : list (M unit)) (w w' : World) (e : JsError) :
  in_turn l w = (Thrown e, w') <->
  exists before step after w0,
    l = before ++ step :: after /\
    in_turn before w = (Returned tt, w0) /\
    step w0 = (Thrown e, w').
Proof.
  unfold in_turn. revert w. induction l as [|s l IH]; intros w; cbn [forEach].
  - split.
    + intros H. discriminate.
    + intros (before & step & after & w0 & Hl & _). destruct before; discriminate.
  - unfold bind at 1. split.
    + intros H. destruct (s w) as [[[]|e0] w1] eqn:Hs.
      * apply IH in H. destruct H as (before & step & after & w0 & -> & Hb & Hstep).
        exists (s :: before), step, after, w0. split; [reflexivity|]. split; [| exact Hstep].
        cbn [forEach]. unfold bind at 1. rewrite Hs. exact Hb.
      * injection H as <- <-. exists [], s, l, w. repeat split. exact Hs.
    + intros (before & step & after & w0 & Hl & Hb & Hstep).
      destruct before as [|s0 before]; cbn in Hl; injection Hl as -> ->.
      * cbn in Hb. injection Hb as <-. rewrite Hstep. reflexivity.
      * cbn [forEach] in Hb. unfold bind at 1 in Hb.
        destruct (s0 w) as [[[]|e0] w1]; [| discriminate].
        apply IH. exists before, step, after, w0. auto.
Qed.

Lemma syncAllData_in_turn (env : Env) (accessToken : option string) (cloudId : string)
      (integrationId : Z) (w : World) :
  syncAllData env accessToken cloudId integrationId w
  = in_turn (steps env accessToken cloudId integrationId) w.
Proof.
  unfold syncAllData, in_turn, steps, try_catch, throw. cbn [forEach]. unfold bind, ret.
  repeat match goal with
         | |- context [match ?s w with _ => _ end] =>
             destruct (s w) as [[[]|?] ?]; [| reflexivity]
         | |- context [match ?s ?w0 with _ => _ end] =>
             is_var w0; destruct (s w0) as [[[]|?] ?]; [| reflexivity]
         end.
  reflexivity.
Qed.

Lemma thrown_step_is_exposed (env : Env) (accessToken : option string) (cloudId : string)
      (integrationId : Z) (step : M unit) (w0 w' : World) (e : JsError) :
  In step (steps env accessToken cloudId integrationId) ->
  step w0 = (Thrown e, w') ->
  In step (exposed_steps env accessToken cloudId integrationId).
Proof.
  intros Hin Hthrown.
  assert (Hnot : ~ In step (isolated_steps env accessToken cloudId integrationId)).
  { intros Hiso. pose proof (isolated_step_returns _ _ _ _ _ w0 Hiso) as Hret.
    rewrite Hthrown in Hret. discriminate. }
  unfold steps in Hin. unfold isolated_steps in Hnot. unfold exposed_steps.
  cbn [In] in *.
  repeat match goal with
         | H : _ \/ _ |- _ => destruct H as [H | H]
         end;
    try contradiction; subst step; tauto.
Qed.

(** A loop without try/catch is left by the first error of its body. *)
Lemma forEach_throws {A : Type} (items : list A) (body : A -> M unit) (x : A) (w : World) :
  In x items ->
  (forall w0, exists e w', body x w0 = (Thrown e, w')) ->
  exists e w', forEach items body w = (Thrown e, w').
Proof.
  intros Hin Hx. revert w. induction items as [|y items IH]; intros w; [contradiction|].
  cbn [forEach]. unfold bind at 1. destruct (body y w) as [[[]|e] w1] eqn:Hy.
  - destruct Hin as [-> | Hin]; [| apply IH; exact Hin].
    destruct (Hx w) as (e & w' & H). rewrite H in Hy. discriminate.
  - eauto.
Qed.

(** A rejected request is an error of [makeRequest]. *)
Lemma makeRequest_rejected (env : Env) (accessToken : option string) (cloudId : string)
      (endpoint : Endpoint) (w : World) (response : Response Json) :
  jira_api env (List.length (http_log w)) (Get accessToken cloudId endpoint) = Some response ->
  ok response = false ->
  makeRequest env accessToken cloudId endpoint w
  = (Thrown (JiraApiError (status response) (text response)),
     logCall (JiraCall (Get accessToken cloudId endpoint)) w).
Proof.
  intros Hreply Hok. unfold makeRequest, bind, fetchJira. rewrite Hreply, Hok. reflexivity.
Qed.

(** A step without try/catch is its request followed by a loop over the
    answer: the error of the request leaves the step, and after a
    request that returned the step ends as the loop ends, so with the
    error of the loop if it has one.  The body of the loop starts by
    reading a member of the item, which throws on [null]. *)
Lemma exposed_step_is_loop (env : Env) (accessToken : option string) (cloudId : string)
      (integrationId : Z) (step : M unit) (endpoint : Endpoint) :
  In (step, endpoint) (exposed_requests env accessToken cloudId integrationId) ->
  exists body : Json -> M unit,
    (forall x w1, nullish x = true -> body x w1 = (Thrown TypeError, w1)) /\
    forall w0,
      (forall e w',
          makeRequest env accessToken cloudId endpoint w0 = (Thrown e, w') ->
          step w0 = (Thrown e, w')) /\
      (forall v w1,
          makeRequest env accessToken cloudId endpoint w0 = (Returned v, w1) ->
          step w0 = forOf v body w1).
Proof.
  intros Hin. unfold exposed_requests in Hin. cbn [In] in Hin.
  repeat match goal with
         | H : _ \/ _ |- _ => destruct H as [H | H]
         end;
    try contradiction; injection Hin as <- <-.
  all: unfold syncProjects, syncIssueTypes, syncPriorities, syncStatuses, syncResolutions,
              syncIssueFields;
    eexists; split;
    [ | intros w0; split;
        [ intros e w' Hreq; rewrite bind_run, Hreq; reflexivity
        | intros v w1 Hreq; rewrite bind_run, Hreq; reflexivity ] ];
    intros x w1 Hnull; cbv beta; rewrite bind_run; unfold member; rewrite Hnull; reflexivity.
Qed.

(** C1, as the code has it.  In a run of [syncAllData]:
    (1) the steps for users, groups, labels, components, versions,
        workflows, dashboards, filters, permissions, issues, comments,
        worklogs, attachments and issue links always return: whatever is
        thrown inside them is caught there, and the run goes on with the
        next step;
    (2) the run as a whole throws [e] exactly when one of the steps for
        projects, issue types, priorities, statuses, resolutions or issue
        fields throws [e], all steps before it having returned; the world
        it ends in is the one that step left, so no later step has run;
    (3) what is raised inside one of these six steps leaves the step.
        The step is its request followed by a loop over the answer, with
        no catch around either: the error of the request is the error of
        the step (a request the API rejects gives [JiraApiError] with the
        status and text received), and after a request that returned the
        step ends as the loop ends, hence with [TypeError] for an answer
        that cannot be iterated, and with an error where the answer holds
        a [null], on which the loop body throws;
    (4) so the run throws [e] as soon as the request of one of the six
        throws [e], the steps before it having returned. *)
Theorem sync_failure_isolation (env : Env) (accessToken : option string) (cloudId : string)
        (integrationId : Z) (w : World) :
  (forall step w0,
      In step (isolated_steps env accessToken cloudId integrationId) ->
      fst (step w0) = Returned tt) /\
  (forall e w',
      syncAllData env accessToken cloudId integrationId w = (Thrown e, w') <->
      exists before step after w0,
        steps env accessToken cloudId integrationId = before ++ step :: after /\
        In step (exposed_steps env accessToken cloudId integrationId) /\
        in_turn before w = (Returned tt, w0) /\
        step w0 = (Thrown e, w')) /\
  (map fst (exposed_requests env accessToken cloudId integrationId)
   = exposed_steps env accessToken cloudId integrationId /\
   forall step endpoint,
     In (step, endpoint) (exposed_requests env accessToken cloudId integrationId) ->
     exists body : Json -> M unit,
       (forall x w1, nullish x = true -> body x w1 = (Thrown TypeError, w1)) /\
       forall w0,
         (forall e w',
             makeRequest env accessToken cloudId endpoint w0 = (Thrown e, w') ->
             step w0 = (Thrown e, w')) /\
         (forall response,
             jira_api env (List.length (http_log w0)) (Get accessToken cloudId endpoint)
             = Some response ->
             ok response = false ->
             step w0 = (Thrown (JiraApiError (status response) (text response)),
                        logCall (JiraCall (Get accessToken cloudId endpoint)) w0)) /\
         (forall v w1,
             makeRequest env accessToken cloudId endpoint w0 = (Returned v, w1) ->
             step w0 = forOf v body w1 /\
             (iterable v = None -> step w0 = (Thrown TypeError, w1)) /\
             (forall items x,
                 iterable v = Some items -> In x items -> nullish x = true ->
                 exists e w', step w0 = (Thrown e, w')))) /\
  (forall before step endpoint after w0 e w',
      steps env accessToken cloudId integrationId = before ++ step :: after ->
      In (step, endpoint) (exposed_requests env accessToken cloudId integrationId) ->
      in_turn before w = (Returned tt, w0) ->
      makeRequest env accessToken cloudId endpoint w0 = (Thrown e, w') ->
      syncAllData env accessToken cloudId integrationId w = (Thrown e, w')).
Proof.
  split; [| split; [| split]].
  - intros step w0 Hin. apply (isolated_step_returns _ _ _ _ _ w0 Hin).
  - intros e w'. rewrite syncAllData_in_turn, in_turn_thrown. split.
    + intros (before & step & after & w0 & Hl & Hb & Hstep).
      exists before, step, after, w0. repeat split; try assumption.
      apply (thrown_step_is_exposed env accessToken cloudId integrationId step w0 w' e);
        [| exact Hstep].
      rewrite Hl. apply in_elt.
    + intros (before & step & after & w0 & Hl & _ & Hb & Hstep).
      exists before, step, after, w0. auto.
  - split; [reflexivity|]. intros step endpoint Hin.
    destruct (exposed_step_is_loop env accessToken cloudId integrationId step endpoint Hin)
      as (body & Hnull & Hstep).
    exists body. split; [exact Hnull|]. intros w0.
    destruct (Hstep w0) as [Hreq Hloop].
    split; [exact Hreq|]. split.
    + intros response Hreply Hok. apply Hreq. apply makeRequest_rejected; assumption.
    + intros v w1 Hv. rewrite (Hloop v w1 Hv). split; [reflexivity|]. split.
      * intros Hnone. unfold forOf. rewrite Hnone. reflexivity.
      * intros items x Hsome Hx Hx0. unfold forOf. rewrite Hsome.
        apply (forEach_throws items body x w1 Hx). intros w2. rewrite (Hnull x w2 Hx0). eauto.
  - intros before step endpoint after w0 e w' Hl Hin Hb Hreq.
    rewrite syncAllData_in_turn. apply in_turn_thrown.
    exists before, step, after, w0. split; [exact Hl|]. split; [exact Hb|].
    destruct (exposed_step_is_loop env accessToken cloudId integrationId step endpoint Hin)
      as (body & _ & Hstep).
    apply (Hstep w0). exact Hreq.
Qed.

(** C1 as stated fails on the code: when the /priority endpoint answers
    403, the error raised inside [syncPriorities] leaves [syncAllData]
    (which is not a failure to acquire a credential), and the run stops
    there: the trace holds the three requests made so far and nothing for
    the seventeen steps that follow. *)
Lemma priorities_failure_counterexample :
  syncAllData (Scenario.jira_env (Scenario.site false)) (Some "token") "cloud" 1
              (Scenario.new_world initDatabase)
  = (Thrown (JiraApiError 403 "Forbidden"),
     mkWorld initDatabase 0 0
             [JiraCall (Get (Some "token") "cloud" EProject);
              JiraCall (Get (Some "token") "cloud" EIssueType);
              JiraCall (Get (Some "token") "cloud" EPriority)]
             false).
Proof. vm_compute. reflexivity. Qed.

(** The same site with /priority allowed: the 403 of the groups endpoint
    stays inside [syncGroups] and the run completes. *)
Example groups_failure_is_isolated :
  fst (syncAllData (Scenario.jira_env (Scenario.site true)) (Some "token") "cloud" 1
                   (Scenario.new_world initDatabase))
  = Returned tt.
Proof. vm_compute. reflexivity. Qed.

(** ** Re-ingestion *)

Lemma or_replace_appends (t t' : Table) (cols : list string) (values : list ValueSpec)
      (args : list SqlValue) :
  uniques t = [] ->
  insert OrReplace cols values args t = inl t' ->
  exists row, rows t' = rows t ++ [row].
Proof.
  intros Hu. unfold insert.
  destruct (negb (Nat.eqb (List.length values) (List.length cols))); [discriminate|].
  destruct (find _ cols); [discriminate|].
  destruct (bindValues values args) as [vals|]; [| discriminate].
  intros H. injection H as <-. unfold append_row. cbn [rows].
  assert (Hall : filter (fun r => negb (violates t (combine cols vals) r)) (rows t) = rows t).
  { unfold violates. rewrite Hu. cbn. induction (rows t) as [|x l IH]; cbn; [reflexivity|].
    rewrite IH. reflexivity. }
  rewrite Hall. eexists. reflexivity.
Qed.

Lemma initDatabase_no_unique (name : string) (t : Table) :
  table initDatabase name = Some t -> uniques t = [].
Proof.
  unfold table, initDatabase. cbn [tables].
  assert (Hall : forall l : list (string * list (string * SqlValue)),
             forall t0, assoc name (map (fun nc => (fst nc, mkTable (snd nc) [] [] 0)) l) = Some t0 ->
                        uniques t0 = []).
  { induction l as [|[n cols] l IH]; cbn; intros t0 H0; [discriminate|].
    destruct (String.eqb name n); [injection H0 as <-; reflexivity | apply IH; exact H0]. }
  destruct (assoc name (map (fun nc => (fst nc, mkTable (snd nc) [] [] 0)) schema)) as [t0|] eqn:E.
  - intros H. injection H as <-. apply (Hall schema). exact E.
  - destruct (assoc name schema); cbn; intros H; [injection H as <-; reflexivity | discriminate].
Qed.

(** C2 on the code.  No table that [initDatabase] creates declares a
    UNIQUE constraint, and on such a table INSERT OR REPLACE only ever
    appends a row.  So syncing the priorities of integration 1 twice from
    the same upstream data (one priority, id "1") leaves two rows with the
    key (1, "1"), where the first sync had left one.  With
    UNIQUE(integration_id, priority_id) declared on the table, the same two
    syncs leave one row. *)
Theorem resync_duplicates_rows :
  (forall name t, table initDatabase name = Some t -> uniques t = []) /\
  (forall t t' cols values args,
      uniques t = [] ->
      insert OrReplace cols values args t = inl t' ->
      exists row, rows t' = rows t ++ [row]) /\
  keys_of
    (db (snd (syncPriorities (Scenario.jira_env (Scenario.site true)) (Some "token") "cloud" 1
                (Scenario.new_world initDatabase))))
    "jira_priorities" "priority_id"
  = [(SqlInt 1, SqlText "1")] /\
  keys_of
    (db (snd (syncPriorities (Scenario.jira_env (Scenario.site true)) (Some "token") "cloud" 1
                (snd (syncPriorities (Scenario.jira_env (Scenario.site true))
                        (Some "token") "cloud" 1 (Scenario.new_world initDatabase))))))
    "jira_priorities" "priority_id"
  = [(SqlInt 1, SqlText "1"); (SqlInt 1, SqlText "1")] /\
  keys_of
    (db (snd (syncPriorities (Scenario.jira_env (Scenario.site true)) (Some "token") "cloud" 1
                (snd (syncPriorities (Scenario.jira_env (Scenario.site true))
                        (Some "token") "cloud" 1
                        (Scenario.new_world
                           (Scenario.with_unique "jira_priorities"
                              ["integration_id"; "priority_id"] initDatabase)))))))
    "jira_priorities" "priority_id"
  = [(SqlInt 1, SqlText "1")].
Proof.
  split; [exact initDatabase_no_unique|].
  split; [exact or_replace_appends|].
  repeat split; vm_compute; reflexivity.
Qed.

(** The issue table fares no better: the INSERT OR REPLACE of
    [syncIssuesComprehensive] names 37 columns and 38 values, so SQLite
    refuses it, the refusal is caught per project, and nothing is stored:
    after the projects and the issues of a site with one project and one
    issue were synced, the project is stored, the issues were requested,
    and [jira_issues] is empty. *)
Example comprehensive_issue_insert_refused :
  fst (storeIssueComprehensive (Scenario.jira_env Scenario.one_issue) 1
         (SqlText "P") (Scenario.issue_no 1) (Scenario.new_world initDatabase))
  = Thrown (SqliteError (ValueCountMismatch 38 37)) /\
  keys_of
    (db (snd ((syncProjects (Scenario.jira_env Scenario.one_issue) None "cloud" 1 ;;
               syncIssuesComprehensive (Scenario.jira_env Scenario.one_issue) None "cloud" 1)
                (Scenario.new_world initDatabase))))
    "jira_projects" "project_key"
  = [(SqlInt 1, SqlText "P")] /\
  keys_of
    (db (snd ((syncProjects (Scenario.jira_env Scenario.one_issue) None "cloud" 1 ;;
               syncIssuesComprehensive (Scenario.jira_env Scenario.one_issue) None "cloud" 1)
                (Scenario.new_world initDatabase))))
    "jira_issues" "issue_key"
  = [] /\
  http_log
    (snd ((syncProjects (Scenario.jira_env Scenario.one_issue) None "cloud" 1 ;;
           syncIssuesComprehensive (Scenario.jira_env Scenario.one_issue) None "cloud" 1)
            (Scenario.new_world initDatabase)))
  = [JiraCall (Get None "cloud" EProject);
     JiraCall (Get None "cloud" (ESearchProject (SqlText "P")))].
Proof. repeat split; vm_compute; reflexivity. Qed.

(** ** Issue search *)

Import JiraApiService.

(** One turn of the loop that stores a full page and goes on. *)
Lemma syncLoop_turn (env : Env) (accessToken : option string) (fuel : nat)
      (integrationId projectId : Z) (cloudId projectKey : string)
      (startAt totalIssues n : Z) (issuesData found : Json) (w w1 w2 : World) :
  getIssues env accessToken cloudId projectKey startAt maxResults w = (Returned issuesData, w1) ->
  nullish issuesData = false ->
  prop issuesData "issues" = found ->
  js_length (or_else found (JArr [])) = Some n ->
  n <> 0 ->
  forOf (or_else found (JArr [])) (storeIssue env integrationId projectId) w1
  = (Returned tt, w2) ->
  (n <? maxResults) = false ->
  syncLoop env accessToken (S fuel) integrationId projectId cloudId projectKey
           startAt totalIssues w
  = syncLoop env accessToken fuel integrationId projectId cloudId projectKey
             (startAt + maxResults) (totalIssues + n) w2.
Proof.
  intros Hget Hnn Hprop Hlen Hn0 Hfor Hlt.
  cbn [syncLoop]. unfold bind at 1. rewrite Hget.
  unfold bind at 1. unfold member. rewrite Hnn. unfold ret at 1. rewrite Hprop.
  rewrite Hlen. destruct n as [|n|n]; [contradiction| |].
  - unfold bind at 1. rewrite Hfor. rewrite Hlt. reflexivity.
  - unfold bind at 1. rewrite Hfor. rewrite Hlt. reflexivity.
Qed.

Section StatelessSearch.
Variable env : Env.
Variable accessToken : option string.
Variable d : Database.
Variable issues : list Json.

(** The search answers every request alike, with a full page ... *)
Hypothesis full_page : Z.of_nat (List.length issues) >= maxResults.
Hypothesis by_request :
  forall k rq,
    jira_api env k rq = Some (mkResponse 200 "" (Some (JObj [("issues", JArr issues)]))).
(** ... whose issues the database [d] already holds. *)
Hypothesis settled :
  forall c r h f,
    exists w', forEach issues (storeIssue env 1 1) (mkWorld d c r h f) = (Returned tt, w') /\
               db w' = d.

(** Then the loop is still running after any number of turns. *)
Lemma stateless_search_loops (fuel : nat) (startAt totalIssues : Z) (w : World) :
  db w = d ->
  fst (syncLoop env accessToken fuel 1 1 "cloud" "P" startAt totalIssues w) = Returned None.
Proof.
  revert startAt totalIssues w.
  induction fuel as [|fuel IH]; intros startAt totalIssues w Hdb; [reflexivity|].
  destruct w as [d0 c r h f]. cbn in Hdb. subst d0.
  destruct (settled c r (h ++ [JiraCall (SearchJql accessToken "cloud" "P" maxResults)]) f)
    as (w' & Hfor & Hdb').
  rewrite (syncLoop_turn env accessToken fuel 1 1 "cloud" "P" startAt totalIssues
             (Z.of_nat (List.length issues)) (JObj [("issues", JArr issues)]) (JArr issues)
             (mkWorld d c r h f)
             (mkWorld d c r (h ++ [JiraCall (SearchJql accessToken "cloud" "P" maxResults)]) f)
             w').
  - apply IH. exact Hdb'.
  - unfold getIssues, bind, fetchJira. rewrite by_request. reflexivity.
  - reflexivity.
  - reflexivity.
  - reflexivity.
  - unfold maxResults in full_page. lia.
  - exact Hfor.
  - apply Z.ltb_ge. lia.
Qed.

End StatelessSearch.

Lemma indexed_full_settled (c r : nat) (h : list HttpCall) (f : bool) :
  exists w',
    forEach (map Scenario.issue_no (List.seq 0 100)) (storeIssue Scenario.by_request 1 1)
            (mkWorld Scenario.indexed_full c r h f) = (Returned tt, w') /\
    db w' = Scenario.indexed_full.
Proof.
  assert (H : fst (forEach (map Scenario.issue_no (List.seq 0 100))
                           (storeIssue Scenario.by_request 1 1)
                           (mkWorld Scenario.indexed_full c r h f)) = Returned tt /\
              db (snd (forEach (map Scenario.issue_no (List.seq 0 100))
                               (storeIssue Scenario.by_request 1 1)
                               (mkWorld Scenario.indexed_full c r h f)))
              = Scenario.indexed_full).
  { vm_compute. split; reflexivity. }
  destruct (forEach (map Scenario.issue_no (List.seq 0 100))
                    (storeIssue Scenario.by_request 1 1)
                    (mkWorld Scenario.indexed_full c r h f)) as [o w'].
  destruct H as [Ho Hd]. exists w'. split; [f_equal; exact Ho | exact Hd].
Qed.

Lemma by_request_never_ends (fuel : nat) :
  fst (syncLoop Scenario.by_request (Some "token") fuel 1 1 "cloud" "P" 0 0
                (Scenario.new_world Scenario.indexed_full))
  = Returned None.
Proof.
  assert (H1 : Z.of_nat (List.length (map Scenario.issue_no (List.seq 0 100))) >= maxResults)
    by (vm_compute; discriminate).
  assert (H2 : forall k rq,
             jira_api Scenario.by_request k rq
             = Some (mkResponse 200 ""
                       (Some (JObj [("issues", JArr (map Scenario.issue_no (List.seq 0 100)))]))))
    by (intros k rq; reflexivity).
  assert (H4 : db (Scenario.new_world Scenario.indexed_full) = Scenario.indexed_full)
    by reflexivity.
  pose proof (stateless_search_loops Scenario.by_request (Some "token") Scenario.indexed_full
                (map Scenario.issue_no (List.seq 0 100)) H1 H2 indexed_full_settled) as H5.
  exact (H5 fuel 0 0 (Scenario.new_world Scenario.indexed_full) H4).
Qed.

(** C6 on the code.
    (1) [getIssues] does not use its [startAt]: whatever offset the loop
        has reached, the request is the same, {jql, maxResults, fields}.
    (2) On the database [initDatabase] creates, a search that answers 100
        issues and then 37: the first upsert is refused, since
        ON CONFLICT(integration_id, issue_key) names no unique index, and
        the call throws after one request.
    (3) With that index declared, the same search is read in two requests
        and 137 issues are counted and stored, yet the two requests are
        one and the same: the second page is a matter of the server
        counting the calls.
    (4) A search that answers by the request alone, with the first 100
        issues every time, keeps the loop going for ever. *)
Theorem issue_search_sends_no_offset :
  (forall env accessToken cloudId projectKey startAt startAt' n,
      getIssues env accessToken cloudId projectKey startAt n
      = getIssues env accessToken cloudId projectKey startAt' n) /\
  (let run := syncIssuesToDatabase Scenario.two_pages (Some "token") 3 1 1 "cloud" "P"
                                   (Scenario.new_world initDatabase) in
   fst run = Thrown (SqliteError NoMatchingUniqueIndex) /\
   http_log (snd run) = [JiraCall (SearchJql (Some "token") "cloud" "P" 100)] /\
   keys_of (db (snd run)) "jira_issues" "issue_key" = []) /\
  (let run := syncIssuesToDatabase Scenario.two_pages (Some "token") 3 1 1 "cloud" "P"
                                   (Scenario.new_world Scenario.indexed) in
   fst run = Returned (Some 137) /\
   http_log (snd run) = [JiraCall (SearchJql (Some "token") "cloud" "P" 100);
                         JiraCall (SearchJql (Some "token") "cloud" "P" 100)] /\
   List.length (keys_of (db (snd run)) "jira_issues" "issue_key") = 137%nat) /\
  (forall fuel,
      fst (syncIssuesToDatabase Scenario.by_request (Some "token") fuel 1 1 "cloud" "P"
                                (Scenario.new_world Scenario.indexed_full))
      = Returned None).
Proof.
  split; [reflexivity|].
  split; [vm_compute; repeat split|].
  split; [vm_compute; repeat split|].
  exact by_request_never_ends.
Qed.
(** ** The issue table under the comprehensive sync *)

Lemma makeRequest_db (env : Env) (accessToken : option string) (cloudId : string)
      (endpoint : Endpoint) (w : World) :
  db (snd (makeRequest env accessToken cloudId endpoint w)) = db w.
Proof.
  unfold makeRequest, bind, fetchJira, responseJson.
  destruct (jira_api env (List.length (http_log w)) (Get accessToken cloudId endpoint))
    as [response|]; cbn; [| reflexivity].
  destruct (ok response); cbn; [| reflexivity].
  destruct (json response); reflexivity.
Qed.

Lemma table_of_schema (d : Database) (name : string) :
  assoc name schema <> None -> exists t, table d name = Some t.
Proof.
  intros Hs. unfold table. destruct (assoc name (tables d)) as [t|]; [eauto|].
  destruct (assoc name schema) as [cols|]; [cbn; eauto | contradiction].
Qed.

(** The statement of [storeIssueComprehensive] is refused whatever the
    issue: the call always throws and the database stays as it was. *)
Lemma storeIssueComprehensive_throws (env : Env) (integrationId : Z) (project_key : SqlValue)
      (issue : Json) (w : World) :
  exists e w',
    storeIssueComprehensive env integrationId project_key issue w = (Thrown e, w') /\
    db w' = db w.
Proof.
  unfold storeIssueComprehensive, member, bind at 1.
  destruct (nullish issue); [unfold throw; eauto|]. unfold ret at 1.
  unfold bind at 1. destruct (nullish (prop issue "fields")); [unfold throw; eauto|].
  unfold ret at 1. unfold bind at 1, isoNow, bind at 1, dateNow, ret at 1.
  unfold insertOrReplace, dbInsert, bind at 1, getDatabase. cbn [db].
  destruct (table_of_schema (db w) "jira_issues") as [t Ht]; [discriminate|].
  rewrite Ht. unfold insert. cbn [List.length placeholders repeat Nat.eqb negb].
  unfold throw. eauto.
Qed.

Lemma forOf_all_throw_db (v : Json) (body : Json -> M unit) (w : World) :
  (forall x w0, exists e w', body x w0 = (Thrown e, w') /\ db w' = db w0) ->
  db (snd (forOf v body w)) = db w.
Proof.
  intros Hbody. unfold forOf. destruct (iterable v) as [[|x items]|]; cbn; [reflexivity | | reflexivity].
  unfold bind. destruct (Hbody x w) as (e & w' & -> & Hdb). exact Hdb.
Qed.

(** [syncIssuesComprehensive] never writes: whatever the Jira API answers,
    the database after the step is the database before it.  (Its INSERT
    lists 37 columns and 38 values.) *)
Theorem comprehensive_issues_never_stored
        (env : Env) (accessToken : option string) (cloudId : string)
        (integrationId : Z) (w : World) :
  db (snd (syncIssuesComprehensive env accessToken cloudId integrationId w)) = db w.
Proof.
  unfold syncIssuesComprehensive. unfold bind at 1.
  destruct (dbSelectColumn_total "jira_projects" "project_key" integrationId w)
    as [projects ->]; [discriminate|].
  apply (forEach_invariant (fun w0 => db w0 = db w)); [| reflexivity].
  intros project_key w0 H0. rewrite <- H0. clear H0.
  unfold try_catch, bind at 1.
  pose proof (makeRequest_db env accessToken cloudId (ESearchProject project_key) w0) as Hreq.
  destruct (makeRequest env accessToken cloudId (ESearchProject project_key) w0)
    as [[issues|e] w1]; cbn [snd] in Hreq; [| exact Hreq].
  unfold bind at 1, member.
  destruct (nullish issues); [cbn; exact Hreq|]. unfold ret at 1.
  pose proof (forOf_all_throw_db (orArray (prop issues "issues"))
                (storeIssueComprehensive env integrationId project_key) w1
                (fun x w2 => storeIssueComprehensive_throws env integrationId project_key x w2))
    as Hloop.
  destruct (forOf (orArray (prop issues "issues"))
                  (storeIssueComprehensive env integrationId project_key) w1)
    as [[[]|e] w2]; cbn [snd] in Hloop; unfold ret; cbn [snd]; congruence.
Qed.

(* ====================================================================== *)
(** * Further properties *)
(* ====================================================================== *)

(** ** storeTokens: what is stored can be read back *)

Lemma find_snoc_fresh {A : Type} (p : A -> bool) (l : list A) (x : A) :
  (forall y, In y l -> p y = false) ->
  find p (l ++ [x]) = if p x then Some x else None.
Proof.
  intros Hl. induction l as [|y l IH]; cbn; [reflexivity|].
  rewrite (Hl y (or_introl eq_refl)). apply IH. intros z Hz. apply Hl. right. exact Hz.
Qed.

Lemma find_snoc_other {A : Type} (p : A -> bool) (l : list A) (x : A) :
  p x = false -> find p (l ++ [x]) = find p l.
Proof.
  intros Hx. induction l as [|y l IH]; cbn; [rewrite Hx; reflexivity|].
  destruct (p y); [reflexivity | exact IH].
Qed.

Lemma next_integration_id_above (d : Database) (r : Integration) :
  In r (integrations d) -> id r < next_integration_id d.
Proof.
  intros Hin. unfold next_integration_id.
  pose proof (max_bound (integrations_seq d) (map id (integrations d)) (id r) (in_map id _ _ Hin)).
  lia.
Qed.

Lemma seq_below_next (d : Database) : integrations_seq d < next_integration_id d.
Proof.
  unfold next_integration_id.
  assert (H : forall s l, s <= fold_right Z.max s l).
  { intros s l. induction l as [|y l IH]; cbn; lia. }
  specialize (H (integrations_seq d) (map id (integrations d))). lia.
Qed.

(** X2.  [storeTokens] returns an id that is larger than every id in the
    table and than every id given before (AUTOINCREMENT); the account can
    be read back under that id as an active row holding the tokens and the
    expiry given, the clock reading as [last_refresh_at], a failure
    counter of 0, and for each account text that is missing or empty the
    default of the source; every other account reads as before, and no
    request is sent. *)
Theorem storeTokens_round_trip (env : Env) (projectId : string) (tokens : Tokens)
        (accountInfo : AccountInfo) (w : World) :
  let run := storeTokens env projectId tokens accountInfo w in
  exists i row,
    fst run = Returned i /\
    (forall r, In r (integrations (db w)) -> id r < i) /\
    integrations_seq (db w) < i /\
    integrations_seq (db (snd run)) = i /\
    get_active (db (snd run)) i = Some row /\
    id row = i /\
    project_id row = Some projectId /\
    access_token row = accessToken tokens /\
    refresh_token row = refreshToken tokens /\
    expires_at row = Some (expiresAt tokens) /\
    last_refresh_at row = Some (clock env (clock_reads w)) /\
    refresh_failures row = 0 /\
    account_name row = text_or (accountName accountInfo) (Some "New Account") /\
    account_email row = text_or (accountEmail accountInfo) (Some "user@example.com") /\
    jira_domain row = text_or (jiraDomain accountInfo) (Some "your-domain.atlassian.net") /\
    (forall j, j <> i -> get_active (db (snd run)) j = get_active (db w) j) /\
    tables (db (snd run)) = tables (db w) /\
    http_log (snd run) = http_log w.
Proof.
  intros run. subst run.
  unfold storeTokens, bind, getDatabase, dateNow, setDatabase, ret.
  cbn -[next_integration_id Z.of_nat Z.eqb].
  eexists. eexists (mkIntegration _ _ _ _ _ _ _ _ _ _ _ _ _ _).
  split; [reflexivity|].
  split; [intros r Hin; apply next_integration_id_above; exact Hin|].
  split; [apply seq_below_next|].
  split; [reflexivity|].
  split.
  { unfold get_active. cbn -[next_integration_id Z.of_nat Z.eqb].
    rewrite find_snoc_fresh.
    - cbn -[next_integration_id Z.of_nat]. rewrite Z.eqb_refl. reflexivity.
    - intros y Hy. pose proof (next_integration_id_above (db w) y Hy) as Hlt.
      apply andb_false_iff. left. apply Z.eqb_neq. lia. }
  cbn -[next_integration_id Z.of_nat Z.eqb].
  repeat (split; [reflexivity|]).
  split; [| split; reflexivity].
  intros j Hj. unfold get_active. cbn -[next_integration_id Z.of_nat Z.eqb].
  apply find_snoc_other. cbn -[next_integration_id].
  apply andb_false_iff. left. apply Z.eqb_neq. intros E. apply Hj. symmetry. exact E.
Qed.

(** ** Refresh passes that have nothing to do *)

Lemma forEach_invariant_in {A : Type} (P : World -> Prop) (l : list A) (body : A -> M unit) :
  (forall x w0, In x l -> P w0 -> P (snd (body x w0))) ->
  forall w, P w -> P (snd (forEach l body w)).
Proof.
  induction l as [|x l IH]; intros Hstep w Hw; cbn; [exact Hw|].
  unfold bind. pose proof (Hstep x w (or_introl eq_refl) Hw) as Hx.
  destruct (body x w) as [[[]|e] w1]; cbn in *.
  - apply IH; [| exact Hx]. intros y w0 Hy. apply Hstep. right. exact Hy.
  - exact Hx.
Qed.

Lemma get_active_of_member (d : Database) (r : Integration) :
  unique_ids d -> In r (integrations d) -> is_active r = true ->
  get_active d (id r) = Some r.
Proof.
  unfold unique_ids, get_active. induction (integrations d) as [|x l IH]; cbn; [contradiction|].
  intros Hn [-> | Hin] Hact.
  - rewrite Z.eqb_refl, Hact. reflexivity.
  - inversion Hn as [|? ? Hx Hl]; subst.
    destruct (id x =? id r) eqn:E.
    + exfalso. apply Z.eqb_eq in E. apply Hx. rewrite E. apply in_map. exact Hin.
    + cbn. apply IH; assumption.
Qed.

Lemma needsRefresh_never_due (env : Env) (r : Integration) (w : World) :
  never_due env r -> fst (needsRefresh env r w) = Returned false.
Proof.
  intros (e & He & Hk). unfold needsRefresh. rewrite He. cbn. f_equal.
  apply Z.leb_gt. specialize (Hk (clock_reads w)). unfold bufferTime in *. lia.
Qed.

Lemma needsRefresh_log (env : Env) (r : Integration) (w : World) :
  http_log (snd (needsRefresh env r w)) = http_log w.
Proof. unfold needsRefresh. destruct (expires_at r); reflexivity. Qed.

(** A turn of the loop for an idle account leaves the database and the
    trace as they are. *)
Lemma refreshOne_idle (env : Env) (r : Integration) (w : World) :
  unique_ids (db w) -> In r (select_active (db w)) -> idle env r ->
  db (snd (refreshOne env r w)) = db w /\
  http_log (snd (refreshOne env r w)) = http_log w.
Proof.
  intros Hu Hin Hidle. apply filter_In in Hin. destruct Hin as [Hin Hact].
  unfold refreshOne, try_catch, bind.
  pose proof (needsRefresh_log env r w) as Hlog.
  destruct Hidle as [Hnever | [Htok Hfew]].
  - pose proof (needsRefresh_never_due env r w Hnever) as Hn.
    destruct (needsRefresh_run env r w) as (b & w1 & Hrun & Hdb & _).
    rewrite Hrun in *. cbn in Hn, Hlog. injection Hn as ->. cbn. auto.
  - destruct (needsRefresh_run env r w) as (b & w1 & Hrun & Hdb & _).
    rewrite Hrun in *. cbn in Hlog. destruct b; cbn; [| auto].
    rewrite <- Hdb in Hu, Hin.
    rewrite (refresh_no_token env w1 (id r) r (get_active_of_member _ _ Hu Hin Hact) Htok).
    assert (Hlt : (3 <=? refresh_failures r) = false) by (apply Z.leb_gt; exact Hfew).
    rewrite Hlt. cbn. auto.
Qed.

Lemma idle_pass (env : Env) (w : World) :
  isRunning w = false ->
  unique_ids (db w) ->
  (forall r, In r (select_active (db w)) -> idle env r) ->
  db (snd (refreshAllTokens env w)) = db w /\
  http_log (snd (refreshAllTokens env w)) = http_log w /\
  isRunning (snd (refreshAllTokens env w)) = false.
Proof.
  intros Hf Hu Hidle. unfold refreshAllTokens. rewrite (guarded_run _ w Hf). cbn [snd].
  unfold refreshCycle, bind, getDatabase. cbn [db with_running].
  assert (H : db (snd (forEach (select_active (db w)) (refreshOne env) (with_running true w)))
              = db w /\
              http_log (snd (forEach (select_active (db w)) (refreshOne env) (with_running true w)))
              = http_log w).
  { apply (forEach_invariant_in (fun w0 => db w0 = db w /\ http_log w0 = http_log w));
      [| split; reflexivity].
    intros r w0 Hr [Hdb Hlog].
    assert (Hu0 : unique_ids (db w0)) by (rewrite Hdb; exact Hu).
    assert (Hr0 : In r (select_active (db w0))) by (rewrite Hdb; exact Hr).
    destruct (refreshOne_idle env r w0 Hu0 Hr0 (Hidle r Hr)) as [H1 H2].
    split; congruence. }
  destruct H as [H1 H2]. repeat split; assumption.
Qed.

(** X3.  A refresh pass sends a request only for an account that is due
    and holds a refresh token.  When every active account is either not
    due or without a refresh token (its failure counter below 3), any
    number of passes leaves the database and the trace of requests as they
    were: an account whose refresh token is missing is never refreshed,
    never counted as failing and never deactivated, however long its
    access token has expired. *)
Theorem idle_passes_change_nothing (env : Env) (n : nat) (w : World) :
  isRunning w = false ->
  unique_ids (db w) ->
  (forall r, In r (select_active (db w)) -> idle env r) ->
  db (cycles env n w) = db w /\
  http_log (cycles env n w) = http_log w /\
  isRunning (cycles env n w) = false.
Proof.
  revert w. induction n as [|n IH]; intros w Hf Hu Hidle; cbn [cycles]; [auto|].
  destruct (idle_pass env w Hf Hu Hidle) as (Hdb & Hlog & Hflag).
  destruct (IH (snd (refreshAllTokens env w)) Hflag) as (H1 & H2 & H3).
  - rewrite Hdb. exact Hu.
  - rewrite Hdb. exact Hidle.
  - repeat split; congruence.
Qed.

(** An account authorised without a refresh token, its access token long
    expired: five passes later it is as it was. *)
Lemma idle_passes_change_nothing_witness :
  db (cycles (Scenario.env_of Scenario.unauthorized) 5
        (Scenario.world_of [Scenario.account 1 None (Some 0) 0 true true]))
  = db (Scenario.world_of [Scenario.account 1 None (Some 0) 0 true true]) /\
  http_log (cycles (Scenario.env_of Scenario.unauthorized) 5
              (Scenario.world_of [Scenario.account 1 None (Some 0) 0 true true]))
  = [].
Proof.
  refine (let H := idle_passes_change_nothing (Scenario.env_of Scenario.unauthorized) 5
                     (Scenario.world_of [Scenario.account 1 None (Some 0) 0 true true])
                     eq_refl _ _ in conj (proj1 H) (proj1 (proj2 H))).
  - unfold unique_ids. cbn. constructor; [intros [] | constructor].
  - intros r [<- | []]. right. split; [reflexivity | reflexivity].
Defined.

(** ** A granted refresh and the next check *)

(** X4.  When [refreshAccessToken] returns for a grant of [expires_in]
    seconds: the expiry stored in the row is the first clock reading of
    the call plus [expires_in] seconds, the expiry handed to the caller is
    taken from the third reading (the two agree only if the clock stood
    still meanwhile); [needsRefresh], asked next about the stored row,
    answers true exactly when that stored expiry is within 300 seconds of
    its own clock reading.  So a grant of 300 seconds or less leaves the
    account due at once, on a clock that does not run backwards. *)
Theorem granted_refresh_and_next_check
        (env : Env) (w w' : World) (integrationId : Z) (integration : Integration)
        (response : Response TokenData) (tokenData : TokenData) (expires_in : Z)
        (tokens : Tokens) :
  get_active (db w) integrationId = Some integration ->
  token_endpoint env (List.length (http_log w)) (mkTokenRequest (refresh_token integration))
  = Some response ->
  json response = Some tokenData ->
  td_expires_in tokenData = Some expires_in ->
  refreshAccessToken env integrationId w = (Returned tokens, w') ->
  let t1 := clock env (clock_reads w) in
  let t3 := clock env (S (S (clock_reads w))) in
  let t4 := clock env (S (S (S (clock_reads w)))) in
  exists row,
    get_active (db w') integrationId = Some row /\
    expires_at row = Some (t1 + expires_in * 1000) /\
    expiresAt tokens = t3 + expires_in * 1000 /\
    fst (needsRefresh env row w') = Returned (t1 + expires_in * 1000 <=? t4 + 300 * 1000) /\
    (expires_in <= 300 -> t1 <= t4 -> fst (needsRefresh env row w') = Returned true).
Proof.
  intros Hget Hr Hj He Hrun t1 t3 t4. subst t1 t3 t4.
  destruct (refresh_returned_inv env w integrationId tokens w' Hrun)
    as (integration0 & response0 & tokenData0 & expires_in0 & Hget0 & Ht & Hr0 & Hok & Hj0
        & He0 & Htokens & Hw').
  rewrite Hget in Hget0. injection Hget0 as <-.
  rewrite Hr in Hr0. injection Hr0 as <-.
  rewrite Hj in Hj0. injection Hj0 as <-.
  rewrite He in He0. injection He0 as <-.
  subst tokens w'. unfold refreshed_world. cbn [db expiresAt].
  rewrite get_active_update by reflexivity. rewrite Hget. cbn [option_map].
  eexists. split; [reflexivity|]. cbn [expires_at set_tokens].
  split; [reflexivity|]. split; [reflexivity|].
  unfold needsRefresh, bufferTime. cbn. split; [reflexivity|].
  intros Hle Hclock. f_equal. apply Z.leb_le. lia.
Qed.

(** A grant of 300 seconds on the clock of [Scenario], which stands
    still. *)
Lemma granted_refresh_and_next_check_witness :
  exists row,
    get_active
      (db (snd (refreshAccessToken
                  (mkEnv (fun _ => Scenario.t0) (fun _ => 0)
                         (fun _ _ => Some (mkResponse 200 ""
                                             (Some (mkTokenData (Some "access-1") None (Some 300)))))
                         (fun _ _ => None))
                  1 (Scenario.world_of [Scenario.due 1 0 true])))) 1
    = Some row /\
    expires_at row = Some (Scenario.t0 + 300 * 1000) /\
    fst (needsRefresh
           (mkEnv (fun _ => Scenario.t0) (fun _ => 0)
                  (fun _ _ => Some (mkResponse 200 ""
                                      (Some (mkTokenData (Some "access-1") None (Some 300)))))
                  (fun _ _ => None))
           row
           (snd (refreshAccessToken
                   (mkEnv (fun _ => Scenario.t0) (fun _ => 0)
                          (fun _ _ => Some (mkResponse 200 ""
                                              (Some (mkTokenData (Some "access-1") None (Some 300)))))
                          (fun _ _ => None))
                   1 (Scenario.world_of [Scenario.due 1 0 true]))))
    = Returned true.
Proof.
  destruct (granted_refresh_and_next_check
              (mkEnv (fun _ => Scenario.t0) (fun _ => 0)
                     (fun _ _ => Some (mkResponse 200 ""
                                         (Some (mkTokenData (Some "access-1") None (Some 300)))))
                     (fun _ _ => None))
              (Scenario.world_of [Scenario.due 1 0 true])
              _ 1 (Scenario.due 1 0 true) _ _ 300 _
              eq_refl eq_refl eq_refl eq_refl eq_refl)
    as (row & Hrow & Hexp & _ & _ & Hdue).
  exists row. split; [exact Hrow|]. split; [exact Hexp|].
  apply Hdue; [lia | cbn; lia].
Defined.

(** ** What a refresh pass may change *)

Lemma updated_row_refl (x : Integration) : updated_row x x.
Proof. unfold updated_row. repeat split; auto. Qed.

Lemma updated_row_trans (x y z : Integration) :
  updated_row x y -> updated_row y z -> updated_row x z.
Proof.
  unfold updated_row.
  intros (a1 & a2 & a3 & a4 & a5 & a6 & a7 & a8 & a9) (b1 & b2 & b3 & b4 & b5 & b6 & b7 & b8 & b9).
  repeat split; try congruence. auto.
Qed.

Lemma refresh_log (env : Env) (i : Z) (w : World) :
  (List.length (http_log (snd (refreshAccessToken env i w))) <= S (List.length (http_log w)))%nat.
Proof.
  unfold refreshAccessToken, bind, getDatabase, fetchToken, responseJson, toISOString.
  destruct (get_active (db w) i) as [integration|]; cbn; [| lia].
  destruct (truthy_text (refresh_token integration)); cbn; [| lia].
  destruct (token_endpoint env (List.length (http_log w))
                           (mkTokenRequest (refresh_token integration))) as [response|];
    cbn; [| rewrite length_app; cbn; lia].
  destruct (ok response); cbn; [| rewrite length_app; cbn; lia].
  destruct (json response) as [td|]; cbn; [| rewrite length_app; cbn; lia].
  destruct (td_expires_in td) as [e|]; cbn; [| rewrite length_app; cbn; lia].
  destruct (validTime (clock env (clock_reads w) + e * 1000)); cbn;
    [| rewrite length_app; cbn; lia].
  destruct (validTime (clock env (S (S (clock_reads w))) + e * 1000)); cbn;
    rewrite length_app; cbn; lia.
Qed.

(** The rows after a turn of the loop are the rows before it, those of
    the account's id put through UPDATEs of the refresh code. *)
Lemma refreshOne_rows (env : Env) (r : Integration) (w : World) :
  exists f,
    (forall x, updated_row x (f x)) /\
    integrations (db (snd (refreshOne env r w)))
    = map (fun x => if id x =? id r then f x else x) (integrations (db w)) /\
    integrations_seq (db (snd (refreshOne env r w))) = integrations_seq (db w) /\
    tables (db (snd (refreshOne env r w))) = tables (db w) /\
    (List.length (http_log (snd (refreshOne env r w))) <= S (List.length (http_log w)))%nat.
Proof.
  assert (Hsame : forall l : list Integration,
             l = map (fun x => if id x =? id r then x else x) l).
  { intros l. induction l as [|x l IH]; cbn; [reflexivity|].
    rewrite <- IH. destruct (id x =? id r); reflexivity. }
  assert (Htwice : forall (f g : Integration -> Integration) (l : list Integration),
             (forall x, id (f x) = id x) ->
             map (fun x => if id x =? id r then g x else x)
                 (map (fun x => if id x =? id r then f x else x) l)
             = map (fun x => if id x =? id r then g (f x) else x) l).
  { intros f g l Hid. rewrite map_map. apply map_ext. intros x.
    destruct (id x =? id r) eqn:E; [rewrite Hid, E; reflexivity | rewrite E; reflexivity]. }
  unfold refreshOne, try_catch, bind.
  pose proof (needsRefresh_log env r w) as Hlog.
  destruct (needsRefresh_run env r w) as (b & w1 & Hrun & Hdb & _).
  rewrite Hrun in *. cbn [snd] in Hlog. destruct b; cbn [fst snd].
  2:{ exists (fun x => x). split; [intros x; apply updated_row_refl|].
      cbn. rewrite Hdb, Hlog. split; [apply Hsame|].
      split; [reflexivity|]. split; [reflexivity | lia]. }
  pose proof (refresh_effect env (id r) w1) as [_ Hcases]. cbv zeta in Hcases.
  pose proof (refresh_log env (id r) w1) as Hlen. rewrite Hlog in Hlen.
  assert (Hfirst : exists f,
             (forall x, updated_row x (f x)) /\
             integrations (db (snd (refreshAccessToken env (id r) w1)))
             = map (fun x => if id x =? id r then f x else x) (integrations (db w)) /\
             integrations_seq (db (snd (refreshAccessToken env (id r) w1)))
             = integrations_seq (db w) /\
             tables (db (snd (refreshAccessToken env (id r) w1))) = tables (db w)).
  { rewrite <- Hdb. destruct Hcases as [-> | [-> | (a & b & c & e & ->)]].
    - exists (fun x => x). split; [intros x; apply updated_row_refl|].
      split; [apply Hsame | split; reflexivity].
    - exists (fun x => set_refresh_failures (refresh_failures x + 1) x).
      split; [intros x; unfold updated_row; cbn; repeat split; auto|].
      split; [reflexivity | split; reflexivity].
    - exists (set_tokens a b c e).
      split; [intros x; unfold updated_row; cbn; repeat split; auto|].
      split; [reflexivity | split; reflexivity]. }
  destruct Hfirst as (f & Hf & Hrows & Hseq & Htab).
  destruct (refreshAccessToken env (id r) w1) as [[t|e] w2]; cbn [fst snd] in *.
  - exists f. split; [exact Hf|]. split; [exact Hrows|]. split; [exact Hseq|].
    split; [exact Htab | exact Hlen].
  - destruct (3 <=? refresh_failures r); cbn.
    + exists (fun x => set_is_active false (f x)). split.
      * intros x. apply (updated_row_trans x (f x)); [apply Hf|].
        unfold updated_row. cbn. repeat split; auto. discriminate.
      * rewrite Hrows. split; [apply Htwice; intros x; apply (Hf x)|].
        split; [exact Hseq|]. split; [exact Htab | exact Hlen].
    + exists f. split; [exact Hf|]. split; [exact Hrows|]. split; [exact Hseq|].
      split; [exact Htab | exact Hlen].
Qed.

Lemma NoDup_map_eq {A B : Type} (f : A -> B) (l : list A) (x y : A) :
  NoDup (map f l) -> In x l -> In y l -> f x = f y -> x = y.
Proof.
  induction l as [|z l IH]; cbn; [contradiction|].
  intros Hn Hx Hy E. inversion Hn as [|? ? Hz Hl]; subst.
  destruct Hx as [-> | Hx], Hy as [-> | Hy].
  - reflexivity.
  - exfalso. apply Hz. rewrite E. apply in_map. exact Hy.
  - exfalso. apply Hz. rewrite <- E. apply in_map. exact Hx.
  - apply IH; assumption.
Qed.

Lemma Forall2_map_right {A : Type} (R : A -> A -> Prop) (g : A -> A) (l l' : list A) :
  (forall old cur, In old l -> R old cur -> R old (g cur)) ->
  Forall2 R l l' -> Forall2 R l (map g l').
Proof.
  intros Hg H. induction H as [|x y l l' Hxy H IH]; cbn; constructor.
  - apply Hg; [left; reflexivity | exact Hxy].
  - apply IH. intros old cur Hin. apply Hg. right. exact Hin.
Qed.

Lemma Forall2_same {A : Type} (R : A -> A -> Prop) (l : list A) :
  (forall x, R x x) -> Forall2 R l l.
Proof. intros H. induction l; constructor; auto. Qed.

Lemma forEach_log_bound {A : Type} (l : list A) (body : A -> M unit) (w : World) :
  (forall x w0, (List.length (http_log (snd (body x w0))) <= S (List.length (http_log w0)))%nat) ->
  (List.length (http_log (snd (forEach l body w))) <= List.length (http_log w) + List.length l)%nat.
Proof.
  intros Hstep. revert w. induction l as [|x l IH]; intros w; cbn; [lia|].
  unfold bind. specialize (Hstep x w). destruct (body x w) as [[[]|e] w1]; cbn in *.
  - specialize (IH w1). lia.
  - lia.
Qed.

(** X5.  A refresh pass over a table with distinct ids changes the rows
    only through the UPDATEs of the refresh code, and only rows of
    accounts that were active when the pass began: every row keeps its
    id, its primary flag, its account texts and its two timestamps
    ([updated_at] included), no account becomes active, a row that was
    not active is left exactly as it was, no row is added or removed and
    no other table is written.  The pass sends at most one request for
    each account that was active. *)
Theorem refresh_pass_frame (env : Env) (w : World) :
  unique_ids (db w) ->
  let w' := snd (refreshAllTokens env w) in
  Forall2 passed_row (integrations (db w)) (integrations (db w')) /\
  integrations_seq (db w') = integrations_seq (db w) /\
  tables (db w') = tables (db w) /\
  (List.length (http_log w')
   <= List.length (http_log w) + List.length (select_active (db w)))%nat.
Proof.
  intros Hu w'. subst w'.
  assert (Hnone : Forall2 passed_row (integrations (db w)) (integrations (db w))).
  { apply Forall2_same. intros x. split; [apply updated_row_refl | auto]. }
  destruct (isRunning w) eqn:Hf.
  { assert (Hskip : refreshAllTokens env w = (Returned tt, w)).
    { unfold refreshAllTokens, guarded, bind, getRunning. rewrite Hf. reflexivity. }
    rewrite Hskip. cbn [snd]. split; [exact Hnone|].
    split; [reflexivity|]. split; [reflexivity | lia]. }
  unfold refreshAllTokens. rewrite (guarded_run _ w Hf). cbn [snd db with_running http_log].
  unfold refreshCycle, bind, getDatabase. cbn [db with_running].
  pose proof (forEach_log_bound (select_active (db w)) (refreshOne env) (with_running true w)) as Hlen.
  cbn [http_log with_running] in Hlen.
  assert (Hinv : Forall2 passed_row (integrations (db w))
                   (integrations (db (snd (forEach (select_active (db w)) (refreshOne env)
                                                   (with_running true w))))) /\
                 integrations_seq (db (snd (forEach (select_active (db w)) (refreshOne env)
                                                    (with_running true w))))
                 = integrations_seq (db w) /\
                 tables (db (snd (forEach (select_active (db w)) (refreshOne env)
                                          (with_running true w))))
                 = tables (db w)).
  { apply (forEach_invariant_in
             (fun w0 => Forall2 passed_row (integrations (db w)) (integrations (db w0)) /\
                        integrations_seq (db w0) = integrations_seq (db w) /\
                        tables (db w0) = tables (db w)));
      [| split; [exact Hnone | split; reflexivity]].
    intros r w0 Hr (Hrows & Hseq & Htab).
    apply filter_In in Hr. destruct Hr as [Hr Hact].
    destruct (refreshOne_rows env r w0) as (f & Hf0 & Hrows' & Hseq' & Htab' & _).
    rewrite Hrows', Hseq', Htab'. split; [| split; assumption].
    apply Forall2_map_right; [| exact Hrows].
    intros old cur Hold [Hup Hkeep]. destruct (id cur =? id r) eqn:E.
    - apply Z.eqb_eq in E. split.
      + apply (updated_row_trans old cur); [exact Hup | apply Hf0].
      + intros Hina. exfalso.
        assert (Heq : old = r).
        { apply (NoDup_map_eq id (integrations (db w))); try assumption.
          destruct Hup as (Hid & _). congruence. }
        subst old. congruence.
    - split; assumption. }
  destruct Hinv as (H1 & H2 & H3).
  split; [exact H1|]. split; [exact H2|]. split; [exact H3|].
  apply Hlen. intros x w0. destruct (refreshOne_rows env x w0) as (f & _ & _ & _ & _ & Hl).
  exact Hl.
Qed.

(** Two accounts, the first deactivated earlier, the second due and
    refused: the pass leaves the first row as it was. *)
Lemma refresh_pass_frame_witness :
  Forall2 passed_row
    [Scenario.due 1 5 false; Scenario.account 2 (Some "refresh-b") (Some 0) 0 true false]
    (integrations
       (db (snd (refreshAllTokens (Scenario.env_of Scenario.unauthorized)
                   (Scenario.world_of
                      [Scenario.due 1 5 false;
                       Scenario.account 2 (Some "refresh-b") (Some 0) 0 true false]))))) /\
  integrations
    (db (snd (refreshAllTokens (Scenario.env_of Scenario.unauthorized)
                (Scenario.world_of
                   [Scenario.due 1 5 false;
                    Scenario.account 2 (Some "refresh-b") (Some 0) 0 true false]))))
  = [Scenario.due 1 5 false; Scenario.account 2 (Some "refresh-b") (Some 0) 1 true false].
Proof.
  split; [| reflexivity].
  refine (proj1 (refresh_pass_frame (Scenario.env_of Scenario.unauthorized)
                   (Scenario.world_of
                      [Scenario.due 1 5 false;
                       Scenario.account 2 (Some "refresh-b") (Some 0) 0 true false]) _)).
  unfold unique_ids. cbn. repeat constructor; cbn; intuition discriminate.
Defined.

(** ** The primary mark under the account routes *)

Lemma filter_none {A : Type} (p : A -> bool) (l : list A) :
  (forall x, In x l -> p x = false) -> filter p l = [].
Proof.
  induction l as [|x l IH]; cbn; intros H; [reflexivity|].
  rewrite (H x (or_introl eq_refl)). apply IH. intros y Hy. apply H. right. exact Hy.
Qed.

(** X6.  The set-primary route answers success whatever the id: after it
    a row is marked primary exactly when its id is the one given, and is
    otherwise as before.  So an id that no row has leaves the table
    without any primary account, and the id of a deactivated account
    leaves it without an active one. *)
Theorem set_primary_marks_by_id (i : Z) (w : World) :
  let w' := snd (setPrimary i w) in
  fst (setPrimary i w) = Returned tt /\
  integrations (db w') = map (fun r => set_is_primary (id r =? i) r) (integrations (db w)) /\
  (forall r, In r (integrations (db w')) -> (is_primary r = true <-> id r = i)) /\
  ((forall r, In r (integrations (db w)) -> id r = i -> is_active r = false) ->
   fst (Routes.currentAccount w') = Returned None) /\
  tables (db w') = tables (db w) /\
  http_log w' = http_log w.
Proof.
  intros w'. subst w'. rewrite setPrimary_run. cbn [fst snd db http_log].
  assert (Hrows : integrations (update_where_id i (set_is_primary true)
                                  (update_all (set_is_primary false) (db w)))
                  = map (fun r => set_is_primary (id r =? i) r) (integrations (db w))).
  { unfold update_where_id, update_all. cbn. rewrite map_map. apply map_ext.
    intros r. cbn. destruct (id r =? i); reflexivity. }
  split; [reflexivity|]. split; [exact Hrows|]. split; [| split; [| split; reflexivity]].
  - intros r Hin. rewrite Hrows in Hin. apply in_map_iff in Hin.
    destruct Hin as (old & <- & _). cbn. apply Z.eqb_eq.
  - intros Hina. unfold Routes.currentAccount, bind, getDatabase, ret. cbn [fst db].
    rewrite Hrows.
    assert (Hnone : filter (fun r => is_primary r && is_active r)
                      (map (fun r => set_is_primary (id r =? i) r) (integrations (db w))) = []).
    { apply filter_none. intros y Hy. apply in_map_iff in Hy. destruct Hy as (x & <- & Hx).
      cbn. destruct (id x =? i) eqn:E; [| reflexivity].
      apply Z.eqb_eq in E. rewrite (Hina x Hx E). reflexivity. }
    rewrite Hnone. reflexivity.
Qed.

Lemma filter_single {A : Type} (p : A -> bool) (l : list A) (r : A) :
  (List.length (filter p l) <= 1)%nat -> In r l -> p r = true -> filter p l = [r].
Proof.
  intros Hlen Hin Hp.
  assert (Hr : In r (filter p l)) by (apply filter_In; auto).
  destruct (filter p l) as [|x [|y l']]; cbn in *.
  - contradiction.
  - destruct Hr as [-> | []]. reflexivity.
  - lia.
Qed.

Lemma current_filter (d : Database) :
  filter (fun r => is_primary r && is_active r) (integrations d)
  = filter active_primary (integrations d).
Proof. apply filter_ext. intros r. unfold active_primary. apply andb_comm. Qed.

Lemma currentAccount_run (w : World) :
  Routes.currentAccount w
  = (Returned (Routes.newest (filter active_primary (integrations (db w)))), w).
Proof.
  unfold Routes.currentAccount, bind, getDatabase, ret. rewrite current_filter. reflexivity.
Qed.

(** X7.  Where at most one active account is primary (and ids are
    distinct), the current-account route answers with that account.
    Once the DELETE route has deactivated it, the route answers that
    there is no primary account, and so it stays when a further account is
    authorised while some other account is active: [storeTokens] gives
    the mark only to the first active account. *)
Theorem deactivating_the_primary (env : Env) (w : World) (r : Integration) :
  unique_ids (db w) ->
  at_most_one_primary (db w) ->
  In r (integrations (db w)) ->
  active_primary r = true ->
  let w1 := snd (deactivateAccount (id r) w) in
  fst (Routes.currentAccount w) = Returned (Some r) /\
  fst (Routes.currentAccount w1) = Returned None /\
  (forall other projectId tokens accountInfo,
      In other (integrations (db w)) -> is_active other = true -> id other <> id r ->
      fst (Routes.currentAccount (snd (storeTokens env projectId tokens accountInfo w1)))
      = Returned None).
Proof.
  intros Hu Hone Hin Hr w1. subst w1.
  pose proof (filter_single active_primary _ r Hone Hin Hr) as Hsingle.
  assert (Hall : forall x, In x (integrations (db w)) ->
                           active_primary (if id x =? id r then set_is_active false x else x)
                           = false).
  { intros x Hx. destruct (id x =? id r) eqn:E; [reflexivity|].
    destruct (active_primary x) eqn:Hp; [| reflexivity].
    assert (Hxr : In x (filter active_primary (integrations (db w))))
      by (apply filter_In; auto).
    rewrite Hsingle in Hxr. destruct Hxr as [<- | []].
    rewrite Z.eqb_refl in E. discriminate. }
  assert (Hafter : filter active_primary
                     (integrations (update_where_id (id r) (set_is_active false) (db w))) = []).
  { unfold update_where_id. cbn. apply filter_none. intros y Hy.
    apply in_map_iff in Hy. destruct Hy as (x & <- & Hx). apply Hall. exact Hx. }
  split; [rewrite currentAccount_run, Hsingle; reflexivity|].
  split.
  { rewrite currentAccount_run. unfold deactivateAccount, bind, getDatabase, setDatabase.
    cbn [snd db]. rewrite Hafter. reflexivity. }
  intros other projectId tokens accountInfo Hother Hact Hid.
  rewrite currentAccount_run.
  destruct (storeTokens_run env projectId tokens accountInfo
              (snd (deactivateAccount (id r) w)))
    as (row & _ & Hrows & _ & Hrowact & Hprim & _).
  rewrite Hrows, filter_app.
  unfold deactivateAccount, bind, getDatabase, setDatabase in *. cbn [snd db] in *.
  rewrite Hafter. cbn [app filter]. unfold active_primary at 1. rewrite Hrowact, Hprim.
  assert (Hsome : In other (select_active (update_where_id (id r) (set_is_active false) (db w)))).
  { unfold select_active, update_where_id. cbn. apply filter_In. split; [| exact Hact].
    apply in_map_iff. exists other. split; [| exact Hother].
    destruct (id other =? id r) eqn:E; [| reflexivity].
    apply Z.eqb_eq in E. contradiction. }
  destruct (select_active (update_where_id (id r) (set_is_active false) (db w)));
    [contradiction|].
  cbn [List.length]. rewrite Nat2Z.inj_succ.
  assert (Hz : (Z.succ (Z.of_nat (List.length l)) =? 0) = false) by (apply Z.eqb_neq; lia).
  rewrite Hz. reflexivity.
Qed.

(** The installation of [primary_after_reauthorisation], with a third
    account authorised before the first one is deactivated. *)
Lemma deactivating_the_primary_witness :
  fst (Routes.currentAccount
         (Scenario.world_of [Scenario.due 1 0 true;
                             Scenario.account 2 (Some "refresh-b") None 0 true false]))
  = Returned (Some (Scenario.due 1 0 true)) /\
  fst (Routes.currentAccount
         (snd (deactivateAccount 1
                 (Scenario.world_of [Scenario.due 1 0 true;
                                     Scenario.account 2 (Some "refresh-b") None 0 true false]))))
  = Returned None.
Proof.
  refine (let H := deactivating_the_primary (Scenario.env_of Scenario.unauthorized)
                     (Scenario.world_of [Scenario.due 1 0 true;
                                         Scenario.account 2 (Some "refresh-b") None 0 true false])
                     (Scenario.due 1 0 true) _ _ (or_introl eq_refl) eq_refl in
          conj (proj1 H) (proj1 (proj2 H))).
  - unfold unique_ids. cbn. repeat constructor; cbn; intuition discriminate.
  - unfold at_most_one_primary. cbn. lia.
Defined.

(** ** Frames: what a computation leaves alone *)

Section Frames.
Variable R : World -> World -> Prop.
Hypothesis R_refl : forall w, R w w.
Hypothesis R_trans : forall a b c, R a b -> R b c -> R a c.

Lemma keeps_ret {A : Type} (a : A) : keeps R (ret a).
Proof. intros w. apply R_refl. Qed.

Lemma keeps_throw {A : Type} (e : JsError) : keeps R (@throw A e).
Proof. intros w. apply R_refl. Qed.

Lemma keeps_bind {A B : Type} (m : M A) (k : A -> M B) :
  keeps R m -> (forall a, keeps R (k a)) -> keeps R (bind m k).
Proof.
  intros Hm Hk w. unfold bind. specialize (Hm w).
  destruct (m w) as [[a|e] w1]; cbn in *; [| exact Hm].
  apply (R_trans _ w1); [exact Hm | apply Hk].
Qed.

Lemma keeps_try_catch {A : Type} (m : M A) (handler : JsError -> M A) :
  keeps R m -> (forall e, keeps R (handler e)) -> keeps R (try_catch m handler).
Proof.
  intros Hm Hh w. unfold try_catch. specialize (Hm w).
  destruct (m w) as [[a|e] w1]; cbn in *; [exact Hm|].
  apply (R_trans _ w1); [exact Hm | apply Hh].
Qed.

Lemma keeps_forEach {A : Type} (l : list A) (body : A -> M unit) :
  (forall x, keeps R (body x)) -> keeps R (forEach l body).
Proof.
  intros Hb. induction l as [|x l IH]; cbn [forEach]; [apply keeps_ret|].
  apply keeps_bind; [apply Hb | intros _; exact IH].
Qed.

Lemma keeps_forEach_in {A : Type} (l : list A) (body : A -> M unit) :
  (forall x, In x l -> keeps R (body x)) -> keeps R (forEach l body).
Proof.
  induction l as [|x l IH]; intros Hb; cbn [forEach]; [apply keeps_ret|].
  apply keeps_bind; [apply Hb; left; reflexivity | intros _; apply IH].
  intros y Hy. apply Hb. right. exact Hy.
Qed.

Lemma keeps_forOf (v : Json) (body : Json -> M unit) :
  (forall x, keeps R (body x)) -> keeps R (forOf v body).
Proof.
  intros Hb. unfold forOf. destruct (iterable v); [apply keeps_forEach; exact Hb | apply keeps_throw].
Qed.

Lemma keeps_member (v : Json) (k : string) : keeps R (member v k).
Proof. unfold member. destruct (nullish v); [apply keeps_throw | apply keeps_ret]. Qed.

Lemma keeps_same {A : Type} (m : M A) : (forall w, snd (m w) = w) -> keeps R m.
Proof. intros H w. rewrite H. apply R_refl. Qed.

End Frames.

Lemma collectLabels_world (issues labelSet : list Json) (w : World) :
  snd (collectLabels issues labelSet w) = w.
Proof.
  revert labelSet. induction issues as [|issue issues IH]; intros labelSet; cbn [collectLabels];
    [reflexivity|].
  unfold bind, member. destruct (nullish issue); [reflexivity|]. unfold ret at 1.
  destruct (truthy (opt_prop (prop issue "fields") "labels")); [| apply IH].
  destruct (iterable (prop (prop issue "fields") "labels")); [apply IH | reflexivity].
Qed.

Lemma dbSelectColumn_world (name c : string) (i : Z) (w : World) :
  snd (dbSelectColumn name c i w) = w.
Proof.
  unfold dbSelectColumn, bind, getDatabase. destruct (table (db w) name); reflexivity.
Qed.

(** The steps of a frame proof: the combinators by the lemmas above, a
    branch by cases, the primitives by the tactic given. *)
Ltac frame_with refl trans prim :=
  repeat first
    [ apply (keeps_ret _ refl)
    | apply (keeps_throw _ refl)
    | apply (keeps_member _ refl)
    | apply (keeps_same _ refl); intros ?; apply collectLabels_world
    | apply (keeps_same _ refl); intros ?; apply dbSelectColumn_world
    | prim
    | apply (keeps_bind _ trans); [| intros ?]
    | apply (keeps_try_catch _ trans); [| intros ?]
    | apply (keeps_forEach _ refl trans); intros ?
    | apply (keeps_forOf _ refl trans); intros ?
    | match goal with
      | |- keeps _ (if ?b then _ else _) => destruct b
      | |- keeps _ (match ?x with _ => _ end) => destruct x
      end ].

(** ** The comprehensive sync and the accounts *)

Section SyncFrame.
Variable env : Env.
Variable accessToken : option string.
Variable cloudId : string.

Lemma sync_frame_refl (w : World) : sync_frame accessToken cloudId w w.
Proof.
  unfold sync_frame. repeat split. exists []. rewrite app_nil_r. split; [reflexivity | constructor].
Qed.

Lemma sync_frame_trans (a b c : World) :
  sync_frame accessToken cloudId a b -> sync_frame accessToken cloudId b c ->
  sync_frame accessToken cloudId a c.
Proof.
  unfold sync_frame. intros (a1 & a2 & a3 & l1 & a4 & a5) (b1 & b2 & b3 & l2 & b4 & b5).
  split; [congruence|]. split; [congruence|]. split; [congruence|].
  exists (l1 ++ l2). split; [rewrite b4, a4, app_assoc; reflexivity|].
  apply Forall_app. split; assumption.
Qed.

Lemma sync_frame_makeRequest (endpoint : Endpoint) :
  keeps (sync_frame accessToken cloudId) (makeRequest env accessToken cloudId endpoint).
Proof.
  intros w. unfold makeRequest, bind, fetchJira, responseJson.
  assert (Hlogged : sync_frame accessToken cloudId w
                      (logCall (JiraCall (Get accessToken cloudId endpoint)) w)).
  { unfold sync_frame, logCall. cbn. repeat split.
    exists [JiraCall (Get accessToken cloudId endpoint)]. split; [reflexivity|].
    constructor; [exists endpoint; reflexivity | constructor]. }
  destruct (jira_api env (List.length (http_log w)) (Get accessToken cloudId endpoint))
    as [response|]; cbn; [| exact Hlogged].
  destruct (ok response); cbn; [| exact Hlogged].
  destruct (json response); exact Hlogged.
Qed.

Lemma sync_frame_dbInsert (how : ConflictClause) (name : string) (cols : list string)
      (values : list ValueSpec) (args : list SqlValue) :
  keeps (sync_frame accessToken cloudId) (dbInsert how name cols values args).
Proof.
  intros w. unfold dbInsert, bind, getDatabase.
  destruct (table (db w) name) as [t|]; cbn; [| apply sync_frame_refl].
  destruct (insert how cols values args t); cbn; [| apply sync_frame_refl].
  unfold sync_frame. cbn. repeat split.
  exists []. rewrite app_nil_r. split; [reflexivity | constructor].
Qed.

Lemma sync_frame_clock : keeps (sync_frame accessToken cloudId) (dateNow env).
Proof.
  intros w. unfold sync_frame. cbn. repeat split.
  exists []. rewrite app_nil_r. split; [reflexivity | constructor].
Qed.

Lemma sync_frame_random : keeps (sync_frame accessToken cloudId) (mathRandom env).
Proof.
  intros w. unfold sync_frame. cbn. repeat split.
  exists []. rewrite app_nil_r. split; [reflexivity | constructor].
Qed.

Ltac sync_prim :=
  first [ apply sync_frame_makeRequest | apply sync_frame_dbInsert
        | apply sync_frame_clock | apply sync_frame_random ].

Ltac sync_framed :=
  unfold insertOrReplace, isoNow;
  frame_with sync_frame_refl sync_frame_trans sync_prim.

Lemma sync_frame_steps (integrationId : Z) (step : M unit) :
  In step (steps env accessToken cloudId integrationId) ->
  keeps (sync_frame accessToken cloudId) step.
Proof.
  unfold steps. cbn [In].
  intros [<- | [<- | [<- | [<- | [<- | [<- | [<- | [<- | [<- | [<- | [<- | [<- | [<- | [<- | [<- | [<- | [<- | [<- | [<- | [<- | []]]]]]]]]]]]]]]]]]]]].
  - unfold syncProjects. sync_framed.
  - unfold syncIssueTypes. sync_framed.
  - unfold syncPriorities. sync_framed.
  - unfold syncStatuses. sync_framed.
  - unfold syncResolutions. sync_framed.
  - unfold syncUsers. sync_framed.
  - unfold syncGroups. sync_framed.
  - unfold syncIssueFields. sync_framed.
  - unfold syncLabels. sync_framed.
  - unfold syncComponents. sync_framed.
  - unfold syncVersions. sync_framed.
  - unfold syncWorkflows. sync_framed.
  - unfold syncDashboards. sync_framed.
  - unfold syncFilters. sync_framed.
  - unfold syncPermissions. sync_framed.
  - unfold syncIssuesComprehensive, storeIssueComprehensive. sync_framed.
  - unfold syncIssueComments. sync_framed.
  - unfold syncIssueWorklogs. sync_framed.
  - unfold syncIssueAttachments. sync_framed.
  - unfold syncIssueLinks. sync_framed.
Qed.

Lemma sync_frame_syncAllData (integrationId : Z) :
  keeps (sync_frame accessToken cloudId) (syncAllData env accessToken cloudId integrationId).
Proof.
  intros w. rewrite syncAllData_in_turn. revert w.
  apply (keeps_forEach_in _ sync_frame_refl sync_frame_trans).
  intros step Hin. apply (sync_frame_steps integrationId step Hin).
Qed.

End SyncFrame.

(** X8.  The comprehensive sync leaves the accounts alone.  Whatever the
    Jira API answers and however the run ends, a run of [syncAllData],
    and each of its twenty steps run by itself, changes no row of
    [integrations] (no token, counter or flag), leaves the scheduler's
    flag as it is and sends no request but REST calls carrying the access
    token and the cloud id it was given. *)
Theorem sync_leaves_accounts_alone (env : Env) (accessToken : option string) (cloudId : string)
        (integrationId : Z) (w : World) :
  (let w' := snd (syncAllData env accessToken cloudId integrationId w) in
   integrations (db w') = integrations (db w) /\
   integrations_seq (db w') = integrations_seq (db w) /\
   isRunning w' = isRunning w /\
   exists calls, http_log w' = http_log w ++ calls /\
                 Forall (rest_call accessToken cloudId) calls) /\
  (forall step, In step (steps env accessToken cloudId integrationId) ->
                sync_frame accessToken cloudId w (snd (step w))).
Proof.
  split.
  - exact (sync_frame_syncAllData env accessToken cloudId integrationId w).
  - intros step Hin. exact (sync_frame_steps env accessToken cloudId integrationId step Hin w).
Qed.

(** ** The steps that go through stored rows *)

Lemma same_trace_refl (w : World) : same_trace w w.
Proof. reflexivity. Qed.

Lemma same_trace_trans (a b c : World) : same_trace a b -> same_trace b c -> same_trace a c.
Proof. unfold same_trace. congruence. Qed.

Lemma same_trace_dbInsert (how : ConflictClause) (name : string) (cols : list string)
      (values : list ValueSpec) (args : list SqlValue) :
  keeps same_trace (dbInsert how name cols values args).
Proof.
  intros w. unfold dbInsert, bind, getDatabase.
  destruct (table (db w) name) as [t|]; cbn; [| reflexivity].
  destruct (insert how cols values args t); reflexivity.
Qed.

Lemma same_trace_clock (env : Env) : keeps same_trace (dateNow env).
Proof. intros w. reflexivity. Qed.

Ltac quiet :=
  unfold insertOrReplace, isoNow;
  frame_with same_trace_refl same_trace_trans
             ltac:(first [ apply same_trace_dbInsert | apply same_trace_clock ]).

Lemma makeRequest_log (env : Env) (accessToken : option string) (cloudId : string)
      (endpoint : Endpoint) (w : World) :
  http_log (snd (makeRequest env accessToken cloudId endpoint w))
  = http_log w ++ [JiraCall (Get accessToken cloudId endpoint)].
Proof.
  unfold makeRequest, bind, fetchJira, responseJson.
  destruct (jira_api env (List.length (http_log w)) (Get accessToken cloudId endpoint))
    as [response|]; cbn; [| reflexivity].
  destruct (ok response); cbn; [| reflexivity].
  destruct (json response); reflexivity.
Qed.

Lemma dbSelectColumn_run (name c : string) (i : Z) (w : World) :
  assoc name schema <> None ->
  dbSelectColumn name c i w = (Returned (stored (db w) name c i), w).
Proof.
  intros Hs. unfold dbSelectColumn, stored, bind, getDatabase.
  destruct (table_of_schema (db w) name Hs) as [t ->]. reflexivity.
Qed.

(** A loop over keys whose every turn makes one request and then only
    reads the answer and writes rows, all inside a try/catch, sends the
    requests of all the keys, in order. *)
Lemma per_row_log (env : Env) (accessToken : option string) (cloudId : string)
      (endpoint : SqlValue -> Endpoint) (rest : SqlValue -> Json -> M unit)
      (keys : list SqlValue) (w : World) :
  (forall key v, keeps same_trace (rest key v)) ->
  http_log (snd (forEach keys
                   (fun key => try_catch
                                 (v <- makeRequest env accessToken cloudId (endpoint key) ;;
                                  rest key v)
                                 (fun error => ret tt)) w))
  = http_log w ++ rest_calls accessToken cloudId (map endpoint keys).
Proof.
  intros Hrest. revert w. induction keys as [|key keys IH]; intros w; cbn [forEach map].
  - unfold rest_calls. cbn. rewrite app_nil_r. reflexivity.
  - rewrite bind_run.
    assert (Hturn : http_log (snd (try_catch
                                     (v <- makeRequest env accessToken cloudId (endpoint key) ;;
                                      rest key v)
                                     (fun error => ret tt) w))
                    = http_log w ++ [JiraCall (Get accessToken cloudId (endpoint key))]).
    { unfold try_catch. rewrite bind_run.
      pose proof (makeRequest_log env accessToken cloudId (endpoint key) w) as Hreq.
      destruct (makeRequest env accessToken cloudId (endpoint key) w) as [[v|e] w1];
        cbn [snd] in Hreq; [| exact Hreq].
      pose proof (Hrest key v w1) as Hr. unfold same_trace in Hr.
      destruct (rest key v w1) as [[[]|e] w2]; unfold ret; cbn [snd] in *; congruence. }
    pose proof (swallowed_returns
                  (v <- makeRequest env accessToken cloudId (endpoint key) ;; rest key v) w) as Hret.
    destruct (try_catch (v <- makeRequest env accessToken cloudId (endpoint key) ;; rest key v)
                        (fun error => ret tt) w) as [[[]|e] w1]; cbn [fst snd] in *;
      [| discriminate].
    rewrite IH, Hturn. unfold rest_calls. cbn [map]. rewrite <- app_assoc. reflexivity.
Qed.

(** X9.  The steps for components, versions and issues make exactly one
    request for each row of [jira_projects] stored for the integration,
    and the steps for comments, worklogs, attachments and issue links one
    for each row of [jira_issues], in row order and whatever the answers:
    a key stored twice is requested twice, a table without rows for the
    integration means no request at all. *)
Theorem one_request_per_stored_row (env : Env) (accessToken : option string) (cloudId : string)
        (integrationId : Z) (w : World) :
  let projects := stored (db w) "jira_projects" "project_key" integrationId in
  let issues := stored (db w) "jira_issues" "issue_key" integrationId in
  let sent (step : M unit) := http_log (snd (step w)) in
  let calls (endpoints : list Endpoint) :=
    http_log w ++ rest_calls accessToken cloudId endpoints in
  sent (syncComponents env accessToken cloudId integrationId)
  = calls (map EProjectComponents projects) /\
  sent (syncVersions env accessToken cloudId integrationId)
  = calls (map EProjectVersions projects) /\
  sent (syncIssuesComprehensive env accessToken cloudId integrationId)
  = calls (map ESearchProject projects) /\
  sent (syncIssueComments env accessToken cloudId integrationId)
  = calls (map EIssueComment issues) /\
  sent (syncIssueWorklogs env accessToken cloudId integrationId)
  = calls (map EIssueWorklog issues) /\
  sent (syncIssueAttachments env accessToken cloudId integrationId)
  = calls (map EIssueAttachment issues) /\
  sent (syncIssueLinks env accessToken cloudId integrationId)
  = calls (map EIssueLinks issues).
Proof.
  cbv zeta.
  unfold syncComponents, syncVersions, syncIssuesComprehensive, syncIssueComments,
    syncIssueWorklogs, syncIssueAttachments, syncIssueLinks.
  rewrite !bind_run.
  rewrite (dbSelectColumn_run "jira_projects" "project_key" integrationId w) by discriminate.
  rewrite (dbSelectColumn_run "jira_issues" "issue_key" integrationId w) by discriminate.
  repeat split.
  - apply (per_row_log env accessToken cloudId EProjectComponents
             (fun project_key components => forOf components _)).
    intros key v. quiet.
  - apply (per_row_log env accessToken cloudId EProjectVersions
             (fun project_key versions => forOf versions _)).
    intros key v. quiet.
  - apply (per_row_log env accessToken cloudId ESearchProject
             (fun project_key issues => found <- member issues "issues" ;; _)).
    intros key v. unfold storeIssueComprehensive. quiet.
  - apply (per_row_log env accessToken cloudId EIssueComment
             (fun issue_key comments => found <- member comments "comments" ;; _)).
    intros key v. quiet.
  - apply (per_row_log env accessToken cloudId EIssueWorklog
             (fun issue_key worklogs => found <- member worklogs "worklogs" ;; _)).
    intros key v. quiet.
  - apply (per_row_log env accessToken cloudId EIssueAttachment
             (fun issue_key attachments => fields <- member attachments "fields" ;; _)).
    intros key v. quiet.
  - apply (per_row_log env accessToken cloudId EIssueLinks
             (fun issue_key links => fields <- member links "fields" ;; _)).
    intros key v. quiet.
Qed.

(** ** The issue tables under the comprehensive sync *)

Lemma assoc_replace_other {A : Type} (name other : string) (t : Table)
      (l : list (string * Table)) :
  String.eqb other name = false ->
  assoc other (replace_table name t l) = assoc other l.
Proof.
  intros Hne. induction l as [|[n t0] l IH]; cbn.
  - rewrite Hne. reflexivity.
  - destruct (String.eqb name n) eqn:E; cbn.
    + apply String.eqb_eq in E. subst n. rewrite Hne. reflexivity.
    + destruct (String.eqb other n); [reflexivity | exact IH].
Qed.

Lemma table_set_other (d : Database) (name other : string) (t : Table) :
  String.eqb other name = false ->
  table (set_table d name t) other = table d other.
Proof.
  intros Hne. unfold table, set_table. cbn [tables].
  rewrite (assoc_replace_other (A := Table)) by exact Hne. reflexivity.
Qed.

Lemma issues_untouched_refl (w : World) : issues_untouched w w.
Proof.
  split; [reflexivity|]. exists []. rewrite app_nil_r. split; [reflexivity | constructor].
Qed.

Lemma issues_untouched_trans (a b c : World) :
  issues_untouched a b -> issues_untouched b c -> issues_untouched a c.
Proof.
  intros (Ha & l1 & Hl1 & Hf1) (Hb & l2 & Hl2 & Hf2). split.
  - intros name Hin. rewrite (Hb name Hin). apply Ha. exact Hin.
  - exists (l1 ++ l2). split; [rewrite Hl2, Hl1, app_assoc; reflexivity|].
    apply Forall_app. split; assumption.
Qed.

Lemma stored_of_table (d d' : Database) (name c : string) (i : Z) :
  table d' name = table d name -> stored d' name c i = stored d name c i.
Proof. intros H. unfold stored. rewrite H. reflexivity. Qed.

Section IssueTables.
Variable env : Env.
Variable accessToken : option string.
Variable cloudId : string.
Variable integrationId : Z.

Lemma stay_out_refl (w : World) : issues_stay_out integrationId w w.
Proof. intros _. apply issues_untouched_refl. Qed.

Lemma stay_out_trans (a b c : World) :
  issues_stay_out integrationId a b -> issues_stay_out integrationId b c ->
  issues_stay_out integrationId a c.
Proof.
  intros Hab Hbc Hnone. specialize (Hab Hnone).
  apply (issues_untouched_trans a b c Hab). apply Hbc.
  rewrite <- Hnone. apply stored_of_table. apply (proj1 Hab). left. reflexivity.
Qed.

Lemma stay_out_untouched {A : Type} (m : M A) :
  keeps issues_untouched m -> keeps (issues_stay_out integrationId) m.
Proof. intros H w _. apply H. Qed.

Lemma untouched_makeRequest (endpoint : Endpoint) :
  detail_call (JiraCall (Get accessToken cloudId endpoint)) = false ->
  keeps issues_untouched (makeRequest env accessToken cloudId endpoint).
Proof.
  intros Hd w. split.
  - intros name _. rewrite makeRequest_db. reflexivity.
  - exists [JiraCall (Get accessToken cloudId endpoint)].
    split; [apply makeRequest_log | constructor; [exact Hd | constructor]].
Qed.

Lemma untouched_dbInsert (how : ConflictClause) (name : string) (cols : list string)
      (values : list ValueSpec) (args : list SqlValue) :
  existsb (String.eqb name) issue_tables = false ->
  keeps issues_untouched (dbInsert how name cols values args).
Proof.
  intros Hout w. unfold dbInsert, bind, getDatabase.
  destruct (table (db w) name) as [t|]; cbn; [| apply issues_untouched_refl].
  destruct (insert how cols values args t) as [t'|fault]; cbn; [| apply issues_untouched_refl].
  split.
  - intros other Hin. apply table_set_other.
    destruct (String.eqb other name) eqn:E; [| reflexivity].
    apply String.eqb_eq in E. subst other.
    assert (Hex : existsb (String.eqb name) issue_tables = true).
    { apply existsb_exists. exists name. split; [exact Hin | apply String.eqb_refl]. }
    congruence.
  - exists []. rewrite app_nil_r. split; [reflexivity | constructor].
Qed.

Lemma untouched_clock : keeps issues_untouched (dateNow env).
Proof.
  intros w. split; [reflexivity|]. exists []. rewrite app_nil_r. split; [reflexivity | constructor].
Qed.

Lemma untouched_random : keeps issues_untouched (mathRandom env).
Proof.
  intros w. split; [reflexivity|]. exists []. rewrite app_nil_r. split; [reflexivity | constructor].
Qed.

Ltac apart :=
  apply stay_out_untouched;
  unfold insertOrReplace, isoNow;
  frame_with issues_untouched_refl issues_untouched_trans
             ltac:(first [ apply untouched_makeRequest; reflexivity
                         | apply untouched_dbInsert; reflexivity
                         | apply untouched_clock | apply untouched_random ]).

(** The step for issues writes nothing and asks for no detail. *)
Lemma untouched_issues_step :
  keeps issues_untouched (syncIssuesComprehensive env accessToken cloudId integrationId).
Proof.
  intros w. split.
  - intros name _. f_equal.
    unfold syncIssuesComprehensive. unfold bind at 1.
    destruct (dbSelectColumn_total "jira_projects" "project_key" integrationId w)
      as [projects ->]; [discriminate|].
    apply (forEach_invariant (fun w0 => db w0 = db w)); [| reflexivity].
    intros project_key w0 H0. rewrite <- H0. clear H0.
    unfold try_catch, bind at 1.
    pose proof (makeRequest_db env accessToken cloudId (ESearchProject project_key) w0) as Hreq.
    destruct (makeRequest env accessToken cloudId (ESearchProject project_key) w0)
      as [[issues|e] w1]; cbn [snd] in Hreq; [| exact Hreq].
    unfold bind at 1, member.
    destruct (nullish issues); [cbn; exact Hreq|]. unfold ret at 1.
    pose proof (forOf_all_throw_db (orArray (prop issues "issues"))
                  (storeIssueComprehensive env integrationId project_key) w1
                  (fun x w2 => storeIssueComprehensive_throws env integrationId project_key x w2))
      as Hloop.
    destruct (forOf (orArray (prop issues "issues"))
                    (storeIssueComprehensive env integrationId project_key) w1)
      as [[[]|e] w2]; cbn [snd] in Hloop; unfold ret; cbn [snd]; congruence.
  - eexists. split.
    + unfold syncIssuesComprehensive. rewrite bind_run.
      rewrite (dbSelectColumn_run "jira_projects" "project_key" integrationId w) by discriminate.
      apply (per_row_log env accessToken cloudId ESearchProject
               (fun project_key issues => found <- member issues "issues" ;; _)).
      intros key v. unfold storeIssueComprehensive. quiet.
    + unfold rest_calls. rewrite map_map. apply Forall_map. apply Forall_forall.
      intros key _. reflexivity.
Qed.

(** A step that goes through the stored issues does nothing when there
    are none. *)
Lemma stay_out_per_issue (body : SqlValue -> M unit) :
  keeps (issues_stay_out integrationId)
        (issues <- dbSelectColumn "jira_issues" "issue_key" integrationId ;;
         forEach issues body).
Proof.
  intros w Hnone. rewrite bind_run.
  rewrite (dbSelectColumn_run "jira_issues" "issue_key" integrationId w) by discriminate.
  rewrite Hnone. apply issues_untouched_refl.
Qed.

Lemma stay_out_steps (step : M unit) :
  In step (steps env accessToken cloudId integrationId) ->
  keeps (issues_stay_out integrationId) step.
Proof.
  unfold steps. cbn [In].
  intros [<- | [<- | [<- | [<- | [<- | [<- | [<- | [<- | [<- | [<- | [<- | [<- | [<- | [<- | [<- | [<- | [<- | [<- | [<- | [<- | []]]]]]]]]]]]]]]]]]]]].
  - unfold syncProjects. apart.
  - unfold syncIssueTypes. apart.
  - unfold syncPriorities. apart.
  - unfold syncStatuses. apart.
  - unfold syncResolutions. apart.
  - unfold syncUsers. apart.
  - unfold syncGroups. apart.
  - unfold syncIssueFields. apart.
  - unfold syncLabels. apart.
  - unfold syncComponents. apart.
  - unfold syncVersions. apart.
  - unfold syncWorkflows. apart.
  - unfold syncDashboards. apart.
  - unfold syncFilters. apart.
  - unfold syncPermissions. apart.
  - apply stay_out_untouched. apply untouched_issues_step.
  - apply stay_out_per_issue.
  - apply stay_out_per_issue.
  - apply stay_out_per_issue.
  - apply stay_out_per_issue.
Qed.

End IssueTables.

(** X10.  The comprehensive sync does not get issues into the database.
    Started where [jira_issues] holds no row of the integration, a run of
    [syncAllData] leaves [jira_issues], [jira_comments], [jira_worklogs],
    [jira_attachments] and [jira_issue_links] exactly as they were and
    requests no comment, worklog, attachment or link, whatever the Jira
    API answers: the step for issues stores nothing, and the four steps
    after it go through the stored issues. *)
Theorem sync_keeps_issue_tables_empty
        (env : Env) (accessToken : option string) (cloudId : string)
        (integrationId : Z) (w : World) :
  stored (db w) "jira_issues" "issue_key" integrationId = [] ->
  let w' := snd (syncAllData env accessToken cloudId integrationId w) in
  (forall name, In name issue_tables -> table (db w') name = table (db w) name) /\
  exists calls, http_log w' = http_log w ++ calls /\
                Forall (fun c => detail_call c = false) calls.
Proof.
  intros Hnone w'. subst w'. rewrite syncAllData_in_turn.
  revert w Hnone.
  apply (keeps_forEach_in (issues_stay_out integrationId)
           (stay_out_refl integrationId) (stay_out_trans integrationId)).
  intros step Hin. apply (stay_out_steps env accessToken cloudId integrationId step Hin).
Qed.

(** On the site of [Scenario] with one project and one issue, from a new
    database file. *)
Lemma sync_keeps_issue_tables_empty_witness :
  table (db (snd (syncAllData (Scenario.jira_env Scenario.one_issue) (Some "token") "cloud" 1
                    (Scenario.new_world initDatabase)))) "jira_issues"
  = table initDatabase "jira_issues".
Proof.
  exact (proj1 (sync_keeps_issue_tables_empty (Scenario.jira_env Scenario.one_issue)
                  (Some "token") "cloud" 1 (Scenario.new_world initDatabase) eq_refl)
               "jira_issues" (or_introl eq_refl)).
Defined.

(** ** The issue search and the upsert *)

(** Without the unique index that its ON CONFLICT clause names, the
    upsert of [storeIssue] is refused whatever the issue. *)
Lemma storeIssue_throws (env : Env) (integrationId projectId : Z) (issue : Json) (w : World) :
  (forall t, table (db w) "jira_issues" = Some t ->
             existsb (list_eqb ["integration_id"; "issue_key"]) (uniques t) = false) ->
  exists e w',
    storeIssue env integrationId projectId issue w = (Thrown e, w') /\
    db w' = db w /\ http_log w' = http_log w.
Proof.
  intros Hno. unfold storeIssue, member. rewrite bind_run.
  destruct (nullish issue); [unfold throw; eauto|]. unfold ret at 1.
  rewrite bind_run. destruct (nullish (prop issue "fields")); [unfold throw; eauto|].
  unfold ret at 1. rewrite bind_run. unfold isoNow. rewrite bind_run. unfold dateNow, ret at 1.
  unfold dbInsert. rewrite bind_run. unfold getDatabase. cbn [db].
  destruct (table_of_schema (db w) "jira_issues") as [t Ht]; [discriminate|].
  rewrite Ht. specialize (Hno t Ht). unfold insert.
  cbn [List.length placeholders repeat Nat.eqb negb].
  destruct (find _ _); [unfold throw; eauto|].
  cbn [bindValues option_map]. rewrite Hno. cbn [negb]. unfold throw. eauto.
Qed.

Lemma getIssues_run (env : Env) (accessToken : option string) (cloudId projectKey : string)
      (startAt n : Z) (w : World) :
  db (snd (getIssues env accessToken cloudId projectKey startAt n w)) = db w /\
  http_log (snd (getIssues env accessToken cloudId projectKey startAt n w))
  = http_log w ++ [JiraCall (SearchJql accessToken cloudId projectKey n)].
Proof.
  unfold getIssues, bind, fetchJira, responseJson.
  destruct (jira_api env (List.length (http_log w)) (SearchJql accessToken cloudId projectKey n))
    as [response|]; cbn; [| auto].
  destruct (ok response); cbn; [| auto].
  destruct (json response); auto.
Qed.

(** One call of [syncIssuesToDatabase] where the index is missing. *)
Lemma syncIssues_first_page
        (env : Env) (accessToken : option string) (fuel : nat)
        (integrationId projectId : Z) (cloudId projectKey : string) (w : World) :
  no_issue_index w ->
  let run := syncIssuesToDatabase env accessToken (S fuel) integrationId projectId
                                  cloudId projectKey w in
  db (snd run) = db w /\
  http_log (snd run) = http_log w ++ [JiraCall (SearchJql accessToken cloudId projectKey 100)] /\
  (fst run = Returned (Some 0) \/ exists e, fst run = Thrown e).
Proof.
  intros Hno run. subst run. unfold syncIssuesToDatabase. cbn [syncLoop].
  rewrite bind_run.
  destruct (getIssues_run env accessToken cloudId projectKey 0 maxResults w) as [Hdb Hlog].
  destruct (getIssues env accessToken cloudId projectKey 0 maxResults w) as [[issuesData|e] w1];
    cbn [snd] in Hdb, Hlog; [| cbn; eauto].
  rewrite bind_run. unfold member.
  destruct (nullish issuesData); [unfold throw; cbn; eauto|]. unfold ret.
  cbv beta iota zeta.
  destruct (js_length (or_else (prop issuesData "issues") (JArr []))) as [[|n|n]|] eqn:Hlen;
    [cbn; auto | | |].
  all: rewrite bind_run; unfold forOf.
  all: destruct (or_else (prop issuesData "issues") (JArr [])) as [| |b|k|s|items|ms];
    cbn in Hlen; try discriminate; cbn [iterable].
  all: try (unfold throw; cbn; eauto).
  all: try (destruct s as [|c s]; [discriminate|]; cbn [chars forEach]; rewrite bind_run;
            destruct (storeIssue_throws env integrationId projectId
                        (JStr (String c EmptyString)) w1) as (e & w2 & -> & Hd2 & Hl2);
            [ rewrite Hdb; exact Hno | cbn; rewrite Hd2, Hl2; eauto ]).
  all: try (destruct items as [|x items]; [discriminate|]; cbn [forEach]; rewrite bind_run;
            destruct (storeIssue_throws env integrationId projectId x w1)
              as (e & w2 & -> & Hd2 & Hl2);
            [ rewrite Hdb; exact Hno | cbn; rewrite Hd2, Hl2; eauto ]).
Qed.

(** X11.  [syncIssuesToDatabase] stores nothing on a database whose
    [jira_issues] lacks the unique index on (integration_id, issue_key),
    as the one [initDatabase] creates does.  Whatever the search answers,
    the call makes one request and then either returns 0 (no issue in the
    answer) or throws (the search failed, the answer cannot be read, or
    the first upsert was refused); the database is as before. *)
Theorem issue_upsert_needs_unique_index
        (env : Env) (accessToken : option string) (fuel : nat)
        (integrationId projectId : Z) (cloudId projectKey : string) (w : World) :
  (forall t, table (db w) "jira_issues" = Some t ->
             existsb (list_eqb ["integration_id"; "issue_key"]) (uniques t) = false) ->
  let run := syncIssuesToDatabase env accessToken (S fuel) integrationId projectId
                                  cloudId projectKey w in
  db (snd run) = db w /\
  http_log (snd run) = http_log w ++ [JiraCall (SearchJql accessToken cloudId projectKey 100)] /\
  (fst run = Returned (Some 0) \/ exists e, fst run = Thrown e).
Proof.
  intros Hno. apply (syncIssues_first_page env accessToken fuel integrationId projectId
                       cloudId projectKey w Hno).
Qed.

(** The search of [Scenario] that answers 100 issues, then 37, against a
    new database file. *)
Lemma issue_upsert_needs_unique_index_witness :
  db (snd (syncIssuesToDatabase Scenario.two_pages (Some "token") 3 1 1 "cloud" "P"
             (Scenario.new_world initDatabase)))
  = initDatabase.
Proof.
  refine (proj1 (issue_upsert_needs_unique_index Scenario.two_pages (Some "token") 2 1 1
                   "cloud" "P" (Scenario.new_world initDatabase) _)).
  intros t Ht. rewrite (initDatabase_no_unique "jira_issues" t Ht). reflexivity.
Defined.

(** ** Deleting an integration *)

Import Maintenance.

Lemma assoc_replace_same (name : string) (t : Table) (l : list (string * Table)) :
  assoc name (replace_table name t l) = Some t.
Proof.
  induction l as [|[n t0] l IH]; cbn.
  - rewrite String.eqb_refl. reflexivity.
  - destruct (String.eqb name n) eqn:E; cbn; rewrite E; [reflexivity | exact IH].
Qed.

Lemma table_set_same (d : Database) (name : string) (t : Table) :
  table (set_table d name t) name = Some t.
Proof. unfold table, set_table. cbn [tables]. rewrite assoc_replace_same. reflexivity. Qed.

Lemma dbDelete_run (name : string) (i : Z) (w : World) (t : Table) :
  table (db w) name = Some t ->
  dbDelete name i w
  = (Returned tt,
     mkWorld (set_table (db w) name (delete_where t "integration_id" (SqlInt i)))
             (clock_reads w) (random_reads w) (http_log w) (isRunning w)).
Proof. intros Ht. unfold dbDelete, bind, getDatabase. rewrite Ht. reflexivity. Qed.

(** What the deletes of a list of distinct tables of the schema leave. *)
Lemma deletes_run (names : list string) (i : Z) (w : World) :
  NoDup names ->
  (forall name, In name names -> assoc name schema <> None) ->
  let w' := snd (forEach names (fun name => dbDelete name i) w) in
  fst (forEach names (fun name => dbDelete name i) w) = Returned tt /\
  integrations (db w') = integrations (db w) /\
  integrations_seq (db w') = integrations_seq (db w) /\
  clock_reads w' = clock_reads w /\ random_reads w' = random_reads w /\
  http_log w' = http_log w /\ isRunning w' = isRunning w /\
  (forall name, In name names ->
                table (db w') name
                = option_map (fun t => delete_where t "integration_id" (SqlInt i))
                             (table (db w) name)) /\
  (forall name, ~ In name names -> table (db w') name = table (db w) name).
Proof.
  revert w. induction names as [|name names IH]; intros w Hnd Hs; cbn [forEach].
  - cbn. repeat split; auto. intros name [].
  - inversion Hnd as [|? ? Hnot Hnd']; subst.
    destruct (table_of_schema (db w) name (Hs name (or_introl eq_refl))) as [t Ht].
    rewrite bind_run, (dbDelete_run name i w t Ht).
    specialize (IH (mkWorld (set_table (db w) name (delete_where t "integration_id" (SqlInt i)))
                            (clock_reads w) (random_reads w) (http_log w) (isRunning w))
                   Hnd' (fun n Hn => Hs n (or_intror Hn))).
    cbv zeta in IH. cbn [db clock_reads random_reads http_log isRunning] in IH.
    destruct IH as (H1 & H2 & H3 & H4 & H5 & H6 & H7 & H8 & H9).
    cbv zeta. split; [exact H1|]. split; [exact H2|]. split; [exact H3|].
    split; [exact H4|]. split; [exact H5|]. split; [exact H6|]. split; [exact H7|]. split.
    + intros n [<- | Hn].
      * rewrite (H9 name Hnot), table_set_same, Ht. reflexivity.
      * rewrite (H8 n Hn). rewrite table_set_other; [reflexivity|].
        apply String.eqb_neq. intros ->. contradiction.
    + intros n Hn. rewrite H9 by (intros Hin; apply Hn; right; exact Hin).
      apply table_set_other. apply String.eqb_neq. intros ->. apply Hn. left. reflexivity.
Qed.

Lemma select_deleted (t : Table) (k : string) (v : SqlValue) (c : string) :
  select_where (delete_where t k v) k v c = [].
Proof.
  unfold select_where, delete_where. cbn [rows].
  induction (rows t) as [|r l IH]; cbn; [reflexivity|].
  destruct (SqlValue_eqb (cell r k) v) eqn:E; cbn; [exact IH|].
  rewrite E. exact IH.
Qed.

Lemma select_kept (t : Table) (k : string) (i j : Z) (c : string) :
  i <> j ->
  select_where (delete_where t k (SqlInt i)) k (SqlInt j) c = select_where t k (SqlInt j) c.
Proof.
  intros Hij. unfold select_where, delete_where. cbn [rows]. f_equal.
  induction (rows t) as [|r l IH]; cbn; [reflexivity|].
  destruct (SqlValue_eqb (cell r k) (SqlInt i)) eqn:Ei; cbn.
  - destruct (cell r k); cbn in Ei; try discriminate.
    apply Z.eqb_eq in Ei. subst n. cbn.
    assert (Hne : (i =? j) = false) by (apply Z.eqb_neq; exact Hij).
    rewrite Hne. exact IH.
  - destruct (SqlValue_eqb (cell r k) (SqlInt j)); [f_equal|]; exact IH.
Qed.

Lemma forEach_clock_only (env : Env) {A : Type} (l : list A) (w : World) :
  fst (forEach l (fun _ => now <- dateNow env ;; ret tt) w) = Returned tt /\
  db (snd (forEach l (fun _ => now <- dateNow env ;; ret tt) w)) = db w /\
  http_log (snd (forEach l (fun _ => now <- dateNow env ;; ret tt) w)) = http_log w /\
  isRunning (snd (forEach l (fun _ => now <- dateNow env ;; ret tt) w)) = isRunning w.
Proof.
  revert w. induction l as [|x l IH]; intros w; cbn [forEach]; [cbn; auto|].
  rewrite bind_run. cbn. apply (IH (mkWorld (db w) (S (clock_reads w)) (random_reads w)
                                            (http_log w) (isRunning w))).
Qed.

Lemma forEach_then {A B : Type} (l : list A) (body : A -> M unit) (rest : M B) (w : World) :
  fold_right (fun x k => body x ;; k) rest l w = (forEach l body ;; rest) w.
Proof.
  revert w. induction l as [|x l IH]; intros w; cbn [fold_right forEach]; [reflexivity|].
  rewrite !bind_run. destruct (body x w) as [[[]|e] w1]; [| reflexivity].
  rewrite IH, bind_run. reflexivity.
Qed.

Lemma dbCount_run (name : string) (i : Z) (w : World) :
  assoc name schema <> None ->
  Routes.dbCount name i w
  = (Returned (Z.of_nat (List.length (stored (db w) name "integration_id" i))), w).
Proof.
  intros Hs. unfold Routes.dbCount. rewrite bind_run, (dbSelectColumn_run name _ i w Hs).
  reflexivity.
Qed.

(** The run of [deleteIntegration] for an id that a row has. *)
Lemma deleteIntegration_found (env : Env) (i : Z) (w : World) (integration : Integration) :
  row_of (db w) i = Some integration ->
  exists w',
    deleteIntegration env i w = (Returned tt, w') /\
    integrations (db w') = filter (fun r => negb (id r =? i)) (integrations (db w)) /\
    integrations_seq (db w') = integrations_seq (db w) /\
    http_log w' = http_log w /\ isRunning w' = isRunning w /\
    (forall name, In name cleared_tables ->
                  table (db w') name
                  = option_map (fun t => delete_where t "integration_id" (SqlInt i))
                               (table (db w) name)) /\
    (forall name, ~ In name cleared_tables -> table (db w') name = table (db w) name).
Proof.
  intros Hrow.
  assert (Hnd : NoDup cleared_tables).
  { unfold cleared_tables. repeat (constructor; [cbn; intuition discriminate|]). constructor. }
  assert (Hs : forall name, In name cleared_tables -> assoc name schema <> None).
  { unfold cleared_tables. cbn [In]. intros name H.
    repeat (destruct H as [<- | H]; [discriminate|]). contradiction. }
  pose proof (deletes_run cleared_tables i w Hnd Hs) as Hdel. cbv zeta in Hdel.
  unfold deleteIntegration, try_catch. rewrite bind_run. unfold getDatabase at 1. rewrite Hrow.
  rewrite bind_run, (dbCount_run "jira_projects" i w) by discriminate.
  rewrite bind_run, (dbCount_run "jira_issues" i w) by discriminate.
  match goal with
  | |- context [bind (dbDelete "jira_issue_links" i) _ w] =>
      change (bind (dbDelete "jira_issue_links" i) _ w)
        with (fold_right (fun name k => dbDelete name i ;; k)
                (d <- getDatabase;; setDatabase (delete_account i d);;
                 d0 <- getDatabase;;
                 forEach (select_active d0) (fun _ : Integration => now <- dateNow env ;; ret tt))
                cleared_tables w)
  end.
  rewrite forEach_then, bind_run.
  destruct (forEach cleared_tables (fun name => dbDelete name i) w) as [[[]|e] w1];
    cbn [fst snd] in Hdel; destruct Hdel as (H1 & H2 & H3 & H4 & H5 & H6 & H7 & H8 & H9);
    [| discriminate].
  rewrite bind_run. unfold getDatabase at 1. rewrite bind_run. unfold setDatabase at 1.
  rewrite bind_run. unfold getDatabase at 1.
  match goal with
  | |- context [forEach ?l _ ?w0] =>
      destruct (forEach_clock_only env l w0) as (F1 & F2 & F3 & F4);
      destruct (forEach l (fun _ => now <- dateNow env ;; ret tt) w0) as [[[]|e] w2]
  end; cbn [fst snd db http_log isRunning] in *; [| discriminate].
  eexists. split; [reflexivity|].
  rewrite F2, F3, F4. cbn [delete_account set_integrations integrations integrations_seq tables].
  rewrite H2. split; [reflexivity|]. split; [exact H3|].
  split; [exact H6|]. split; [exact H7|]. split.
  - intros name Hin. rewrite <- (H8 name Hin). reflexivity.
  - intros name Hin. rewrite <- (H9 name Hin). reflexivity.
Qed.

Lemma deleteIntegration_missing (env : Env) (i : Z) (w : World) :
  row_of (db w) i = None -> deleteIntegration env i w = (Returned tt, w).
Proof.
  intros Hrow. unfold deleteIntegration, try_catch. rewrite bind_run.
  unfold getDatabase at 1. rewrite Hrow. reflexivity.
Qed.

Lemma row_of_filtered (i : Z) (l : list Integration) :
  find (fun r => id r =? i) (filter (fun r => negb (id r =? i)) l) = None.
Proof.
  induction l as [|x l IH]; cbn; [reflexivity|].
  destruct (id x =? i) eqn:E; cbn; [exact IH | rewrite E; exact IH].
Qed.

Lemma stored_table (d : Database) (name c : string) (i : Z) (t : Table) :
  table d name = Some t -> stored d name c i = select_where t "integration_id" (SqlInt i) c.
Proof. intros H. unfold stored. rewrite H. reflexivity. Qed.

(** X12.  [deleteIntegration] never throws.  For an id that no row of
    [integrations] has it does nothing at all, so rows of the other
    tables that carry that id stay.  For an id that a row has, the
    account is gone afterwards and none of the twenty tables that
    [initDatabase] creates holds a row of that integration, while the
    rows of every other integration, in every table, and the other
    accounts are as before; the id counter of [integrations] is not
    reset. *)
Theorem delete_integration_removes_all (env : Env) (i : Z) (w : World) :
  let w' := snd (deleteIntegration env i w) in
  fst (deleteIntegration env i w) = Returned tt /\
  (row_of (db w) i = None -> w' = w) /\
  (row_of (db w) i <> None ->
   row_of (db w') i = None /\
   integrations (db w') = filter (fun r => negb (id r =? i)) (integrations (db w)) /\
   integrations_seq (db w') = integrations_seq (db w) /\
   (forall name c, assoc name schema <> None -> stored (db w') name c i = []) /\
   (forall name c j, j <> i -> stored (db w') name c j = stored (db w) name c j)).
Proof.
  cbv zeta. destruct (row_of (db w) i) as [integration|] eqn:Hrow.
  2:{ rewrite (deleteIntegration_missing env i w Hrow). cbn [fst snd].
      split; [reflexivity|]. split; [reflexivity | intros H; contradiction]. }
  destruct (deleteIntegration_found env i w integration Hrow)
    as (w' & -> & Hrows & Hseq & _ & _ & Hin & Hout).
  cbn [fst snd]. split; [reflexivity|]. split; [discriminate|]. intros _.
  assert (Hall : forall name, assoc name schema <> None -> In name cleared_tables).
  { intros name Hs. unfold schema in Hs. cbn [assoc col dflt] in Hs. unfold cleared_tables.
    repeat match type of Hs with
           | (if String.eqb name ?n then _ else _) <> None =>
               destruct (String.eqb name n) eqn:E;
               [apply String.eqb_eq in E; subst name; cbn; tauto | clear E]
           end.
    contradiction. }
  split; [unfold row_of; rewrite Hrows; apply row_of_filtered|].
  split; [exact Hrows|]. split; [exact Hseq|]. split.
  - intros name c Hs. destruct (table_of_schema (db w) name Hs) as [t Ht].
    pose proof (Hin name (Hall name Hs)) as Htab. rewrite Ht in Htab. cbn in Htab.
    rewrite (stored_table _ name c i _ Htab). apply select_deleted.
  - intros name c j Hj. destruct (in_dec string_dec name cleared_tables) as [Hc | Hc].
    + pose proof (Hin name Hc) as Htab. unfold stored. rewrite Htab.
      destruct (table (db w) name) as [t|]; cbn; [| reflexivity].
      apply select_kept. intros E. apply Hj. symmetry. exact E.
    + apply stored_of_table. apply Hout. exact Hc.
Qed.

(** ** Ids of accounts *)

Lemma storeTokens_id (env : Env) (projectId : string) (tokens : Tokens)
      (accountInfo : AccountInfo) (w : World) :
  fst (storeTokens env projectId tokens accountInfo w) = Returned (next_integration_id (db w)) /\
  integrations_seq (db (snd (storeTokens env projectId tokens accountInfo w)))
  = next_integration_id (db w).
Proof. split; reflexivity. Qed.

Lemma upkeep_seq (env : Env) (u : Upkeep) (w : World) :
  integrations_seq (db w) <= integrations_seq (db (upkeep env u w)).
Proof.
  destruct u as [[projectId tokens accountInfo | i | i | i |] | i]; cbn [upkeep perform].
  - rewrite (proj2 (storeTokens_id env projectId tokens accountInfo w)).
    pose proof (seq_below_next (db w)). lia.
  - rewrite setPrimary_run. cbn. lia.
  - cbn. lia.
  - pose proof (refresh_effect env i w) as [_ Hcases]. cbv zeta in Hcases.
    destruct Hcases as [-> | [-> | (a & b & c & e & ->)]]; cbn; lia.
  - destruct (refreshAllTokens_db env w) as [-> | ->]; [lia|].
    assert (H : integrations_seq (db (snd (refreshCycle env (with_running true w))))
                = integrations_seq (db w)).
    { apply (refreshCycle_keeps env (fun w0 => integrations_seq (db w0) = integrations_seq (db w)));
        [| reflexivity].
      intros r w0 H0. destruct (refreshOne_rows env r w0) as (f & _ & _ & Hseq & _).
      congruence. }
    lia.
  - destruct (row_of (db w) i) as [integration|] eqn:Hrow.
    + destruct (deleteIntegration_found env i w integration Hrow) as (w' & -> & _ & Hseq & _).
      cbn [snd]. lia.
    + rewrite (deleteIntegration_missing env i w Hrow). cbn [snd]. lia.
Qed.

Lemma upkeeps_seq (env : Env) (us : list Upkeep) (w : World) :
  integrations_seq (db w) <= integrations_seq (db (upkeeps env us w)).
Proof.
  unfold upkeeps. revert w. induction us as [|u us IH]; intros w; cbn [fold_left]; [lia|].
  pose proof (upkeep_seq env u w). specialize (IH (upkeep env u w)). lia.
Qed.

(** X13.  Ids of accounts are not given twice.  Whatever is done between
    two calls of [storeTokens] (authorisations, set-primary,
    deactivations, refreshes, refresh passes, runs of the deletion
    script, the deletion of the first account included), the id the
    second call returns is larger than the id the first returned. *)
Theorem account_ids_are_not_reused
        (env : Env) (us : list Upkeep) (w : World)
        (projectId projectId' : string) (tokens tokens' : Tokens)
        (accountInfo accountInfo' : AccountInfo) :
  let first := storeTokens env projectId tokens accountInfo w in
  let later := storeTokens env projectId' tokens' accountInfo' (upkeeps env us (snd first)) in
  exists i j, fst first = Returned i /\ fst later = Returned j /\ i < j.
Proof.
  cbv zeta.
  destruct (storeTokens_id env projectId tokens accountInfo w) as [H1 H2].
  destruct (storeTokens_id env projectId' tokens' accountInfo'
              (upkeeps env us (snd (storeTokens env projectId tokens accountInfo w))))
    as [H3 _].
  eexists. eexists. split; [exact H1|]. split; [exact H3|].
  pose proof (upkeeps_seq env us (snd (storeTokens env projectId tokens accountInfo w))) as Hle.
  pose proof (seq_below_next
                (db (upkeeps env us (snd (storeTokens env projectId tokens accountInfo w))))).
  lia.
Qed.

(** ** The stats route *)

Lemma countEach_run (names : list string) (i : Z) (acc : list (string * Z)) (w : World) :
  (forall name, In name names -> assoc name schema <> None) ->
  Routes.countEach names i acc w
  = (Returned (acc ++ map (fun name =>
                             (name, Z.of_nat (List.length (stored (db w) name "integration_id" i))))
                          names), w).
Proof.
  revert acc. induction names as [|name names IH]; intros acc Hs; cbn [Routes.countEach map].
  - rewrite app_nil_r. reflexivity.
  - rewrite bind_run. unfold try_catch.
    rewrite (dbCount_run name i w (Hs name (or_introl eq_refl))).
    rewrite IH by (intros n Hn; apply Hs; right; exact Hn).
    rewrite <- app_assoc. reflexivity.
Qed.

(** X14.  The stats route reads: it answers, for each of the twenty
    tables, the number of rows stored for the integration, and leaves the
    world as it is.  After [deleteIntegration] has removed an account,
    every count for its id is 0. *)
Theorem stats_count_stored_rows (env : Env) (i : Z) (w : World) :
  Routes.stats i w
  = (Returned (map (fun name =>
                      (name, Z.of_nat (List.length (stored (db w) name "integration_id" i))))
                   Routes.stats_tables), w) /\
  (row_of (db w) i <> None ->
   fst (Routes.stats i (snd (deleteIntegration env i w)))
   = Returned (map (fun name => (name, 0)) Routes.stats_tables)).
Proof.
  assert (Hs : forall name, In name Routes.stats_tables -> assoc name schema <> None).
  { unfold Routes.stats_tables. cbn [In]. intros name H.
    repeat (destruct H as [<- | H]; [discriminate|]). contradiction. }
  assert (Hrun : forall w0,
             Routes.stats i w0
             = (Returned (map (fun name =>
                                 (name, Z.of_nat (List.length
                                                    (stored (db w0) name "integration_id" i))))
                              Routes.stats_tables), w0)).
  { intros w0. unfold Routes.stats. rewrite (countEach_run _ i [] w0 Hs). reflexivity. }
  split; [apply Hrun|].
  intros Hrow. rewrite Hrun. cbn [fst]. f_equal. apply map_ext_in. intros name Hin.
  destruct (row_of (db w) i) as [integration|] eqn:Hr; [| contradiction].
  destruct (deleteIntegration_found env i w integration Hr)
    as (w' & -> & _ & _ & _ & _ & Hcl & _).
  cbn [snd].
  assert (Hc : In name cleared_tables).
  { revert Hin. unfold Routes.stats_tables, cleared_tables. cbn [In]. intros H.
    repeat (destruct H as [<- | H]; [tauto|]). contradiction. }
  destruct (table_of_schema (db w) name (Hs name Hin)) as [t Ht].
  pose proof (Hcl name Hc) as Htab. rewrite Ht in Htab. cbn in Htab.
  rewrite (stored_table _ name _ i _ Htab), select_deleted. reflexivity.
Qed.

(** ** The process: frames and outcomes *)

Lemma bindP_run {A B : Type} (m : P A) (k : A -> P B) (p : State) :
  bindP m k p = match m p with
                | (Done a, p') => k a p'
                | (Failed f, p') => (Failed f, p')
                | (Running, p') => (Running, p')
                end.
Proof. reflexivity. Qed.

Lemma catchP_run {A : Type} (m : P A) (handler : Failure -> P A) (p : State) :
  catchP m handler p = match m p with
                       | (Done a, p') => (Done a, p')
                       | (Failed f, p') => handler f p'
                       | (Running, p') => (Running, p')
                       end.
Proof. reflexivity. Qed.

Section ProcessFrames.
Variable R : State -> State -> Prop.
Hypothesis R_refl : forall p, R p p.
Hypothesis R_trans : forall a b c, R a b -> R b c -> R a c.

Lemma keepsP_ret {A : Type} (a : A) : keepsP R (retP a).
Proof. intros p. apply R_refl. Qed.

Lemma keepsP_fail {A : Type} (f : Failure) : keepsP R (@failP A f).
Proof. intros p. apply R_refl. Qed.

Lemma keepsP_bind {A B : Type} (m : P A) (k : A -> P B) :
  keepsP R m -> (forall a, keepsP R (k a)) -> keepsP R (bindP m k).
Proof.
  intros Hm Hk p. unfold bindP. specialize (Hm p).
  destruct (m p) as [[a|f|] p1]; cbn in *; [| exact Hm | exact Hm].
  apply (R_trans _ p1); [exact Hm | apply Hk].
Qed.

Lemma keepsP_catch {A : Type} (m : P A) (handler : Failure -> P A) :
  keepsP R m -> (forall f, keepsP R (handler f)) -> keepsP R (catchP m handler).
Proof.
  intros Hm Hh p. unfold catchP. specialize (Hm p).
  destruct (m p) as [[a|f|] p1]; cbn in *; [exact Hm | | exact Hm].
  apply (R_trans _ p1); [exact Hm | apply Hh].
Qed.

Lemma keepsP_forEach {A : Type} (l : list A) (body : A -> P unit) :
  (forall x, keepsP R (body x)) -> keepsP R (forEachP l body).
Proof.
  intros Hb. induction l as [|x l IH]; cbn [forEachP]; [apply keepsP_ret|].
  apply keepsP_bind; [apply Hb | intros _; exact IH].
Qed.

Lemma keepsP_forOf (v : Json) (body : Json -> P unit) :
  (forall x, keepsP R (body x)) -> keepsP R (forOfP v body).
Proof.
  intros Hb. unfold forOfP.
  destruct (iterable v); [apply keepsP_forEach; exact Hb | apply keepsP_fail].
Qed.

Lemma keepsP_message (site : Site) (f : Failure) : keepsP R (messageOf site f).
Proof. intros p. apply R_refl. Qed.

End ProcessFrames.

Section LiftedFrames.
Variable R : World -> World -> Prop.
Hypothesis R_refl : forall w, R w w.
Hypothesis R_trans : forall a b c, R a b -> R b c -> R a c.

Lemma lifted_refl (p : State) : lifted R p p.
Proof. split; [apply R_refl | reflexivity]. Qed.

Lemma lifted_trans (a b c : State) : lifted R a b -> lifted R b c -> lifted R a c.
Proof. intros [H1 H2] [H3 H4]. split; [apply (R_trans _ (world b)); assumption | congruence]. Qed.

Lemma keepsP_lift {A : Type} (m : M A) : keeps R m -> keepsP (lifted R) (lift m).
Proof.
  intros Hm p. unfold lift. specialize (Hm (world p)).
  destruct (m (world p)) as [[a|e] w]; cbn in *; split; auto.
Qed.

Lemma keepsP_loop {A : Type} (m : M (option A)) : keeps R m -> keepsP (lifted R) (loop m).
Proof.
  intros Hm p. unfold loop. specialize (Hm (world p)).
  destruct (m (world p)) as [[[a|]|e] w]; cbn in *; split; auto.
Qed.

Lemma keepsP_member (v : Json) (k : string) : keepsP (lifted R) (memberP v k).
Proof. apply keepsP_lift. apply keeps_member. exact R_refl. Qed.

Lemma keepsP_getDatabase : keepsP (lifted R) (lift getDatabase).
Proof. apply keepsP_lift. intros w. apply R_refl. Qed.

Lemma keepsP_resources (site : Site) (accessToken : option string) :
  keepsP (lifted R) (JiraApi.getAccessibleResources site accessToken).
Proof.
  intros p. unfold JiraApi.getAccessibleResources, bindP, fetchResources.
  destruct (accessible_resources site (requests p) accessToken) as [response|]; cbn;
    [| split; [apply R_refl | reflexivity]].
  destruct (ok response); cbn; [| split; [apply R_refl | reflexivity]].
  unfold lift, responseJson. cbn.
  destruct (json response); cbn; split; try apply R_refl; reflexivity.
Qed.

End LiftedFrames.

(** The steps of a frame proof in the process. *)
Ltac frameP_with refl trans prim :=
  repeat first
    [ apply (keepsP_ret _ refl)
    | apply (keepsP_fail _ refl)
    | apply (keepsP_message _ refl)
    | prim
    | apply (keepsP_bind _ trans); [| intros ?]
    | apply (keepsP_catch _ trans); [| intros ?]
    | apply (keepsP_forEach _ refl trans); intros ?
    | apply (keepsP_forOf _ refl trans); intros ?
    | match goal with
      | |- keepsP _ (if ?b then _ else _) => destruct b
      | |- keepsP _ (match ?x with _ => _ end) => destruct x
      end ].

(** The same for a relation between worlds. *)
Ltac frameL_with refl trans prim :=
  frameP_with (lifted_refl _ refl) (lifted_trans _ trans)
              ltac:(first [ apply (keepsP_member _ refl)
                          | apply (keepsP_getDatabase _ refl)
                          | apply (keepsP_resources _ refl)
                          | prim ]).

Lemma same_log_refl (p : State) : same_log p p.
Proof. reflexivity. Qed.

Lemma same_log_trans (a b c : State) : same_log a b -> same_log b c -> same_log a c.
Proof. unfold same_log. congruence. Qed.

Lemma same_log_lift {A : Type} (m : M A) : keepsP same_log (lift m).
Proof. intros p. unfold lift. destruct (m (world p)) as [[a|e] w]; reflexivity. Qed.

Lemma same_log_loop {A : Type} (m : M (option A)) : keepsP same_log (loop m).
Proof. intros p. unfold loop. destruct (m (world p)) as [[[a|]|e] w]; reflexivity. Qed.

(** What sends no further request. *)
Ltac silent :=
  frameP_with same_log_refl same_log_trans
              ltac:(first [ apply same_log_lift | apply same_log_loop
                          | unfold memberP; apply same_log_lift ]).

Lemma catch_bind_run {A B : Type} (m : P A) (k : A -> P B) (handler : Failure -> P B)
      (p : State) :
  catchP (bindP m k) handler p
  = match m p with
    | (Done a, p') => catchP (k a) handler p'
    | (Failed f, p') => handler f p'
    | (Running, p') => (Running, p')
    end.
Proof. unfold catchP, bindP. destruct (m p) as [[a|f|] p1]; reflexivity. Qed.

(** Outcomes: computations that halt. *)
Lemma halts_ret {A : Type} (a : A) : halts (retP a).
Proof. intros p. discriminate. Qed.

Lemma halts_fail {A : Type} (f : Failure) : halts (@failP A f).
Proof. intros p. discriminate. Qed.

Lemma halts_lift {A : Type} (m : M A) : halts (lift m).
Proof. intros p. unfold lift. destruct (m (world p)) as [[a|e] w]; discriminate. Qed.

Lemma halts_bind {A B : Type} (m : P A) (k : A -> P B) :
  halts m -> (forall a, halts (k a)) -> halts (bindP m k).
Proof.
  intros Hm Hk p. unfold bindP. specialize (Hm p).
  destruct (m p) as [[a|f|] p1]; cbn in *; [apply Hk | discriminate | contradiction].
Qed.

Lemma halts_catch {A : Type} (m : P A) (handler : Failure -> P A) :
  halts m -> (forall f, halts (handler f)) -> halts (catchP m handler).
Proof.
  intros Hm Hh p. unfold catchP. specialize (Hm p).
  destruct (m p) as [[a|f|] p1]; cbn in *; [discriminate | apply Hh | contradiction].
Qed.

Lemma halts_forEach {A : Type} (l : list A) (body : A -> P unit) :
  (forall x, halts (body x)) -> halts (forEachP l body).
Proof.
  intros Hb. induction l as [|x l IH]; cbn [forEachP]; [apply halts_ret|].
  apply halts_bind; [apply Hb | intros _; exact IH].
Qed.

Lemma halts_forOf (v : Json) (body : Json -> P unit) :
  (forall x, halts (body x)) -> halts (forOfP v body).
Proof.
  intros Hb. unfold forOfP.
  destruct (iterable v); [apply halts_forEach; exact Hb | apply halts_fail].
Qed.

Lemma halts_message (site : Site) (f : Failure) : halts (messageOf site f).
Proof. intros p. discriminate. Qed.

Lemma halts_resources (site : Site) (accessToken : option string) :
  halts (JiraApi.getAccessibleResources site accessToken).
Proof.
  unfold JiraApi.getAccessibleResources. apply halts_bind.
  - intros p. unfold fetchResources.
    destruct (accessible_resources site (requests p) accessToken); discriminate.
  - intros response. destruct (negb (ok response)); [apply halts_fail | apply halts_lift].
Qed.

Ltac halting :=
  repeat first
    [ apply halts_ret | apply halts_fail | apply halts_lift | apply halts_message
    | apply halts_resources
    | apply halts_bind; [| intros ?]
    | apply halts_catch; [| intros ?]
    | apply halts_forEach; intros ?
    | apply halts_forOf; intros ?
    | match goal with
      | |- halts (if ?b then _ else _) => destruct b
      | |- halts (match ?x with _ => _ end) => destruct x
      end ].

(** A try/catch whose handler returns, around a computation that halts,
    returns. *)
Lemma caught_returns {A : Type} (m : P A) (handler : Failure -> P A) (p : State) :
  halts m ->
  (forall f p0, exists a, fst (handler f p0) = Done a) ->
  exists a, fst (catchP m handler p) = Done a.
Proof.
  intros Hm Hh. unfold catchP. specialize (Hm p).
  destruct (m p) as [[a|f|] p1]; cbn in *; [eauto | apply Hh | contradiction].
Qed.

Lemma getAccessibleResources_run (site : Site) (accessToken : option string) (p : State) :
  JiraApi.getAccessibleResources site accessToken p
  = (match accessible_resources site (requests p) accessToken with
     | None => Failed (Inner FetchFailed)
     | Some response =>
         if ok response
         then match json response with
              | Some resources => Done resources
              | None => Failed (Inner InvalidJson)
              end
         else Failed (ResourcesFailed (status response) (text response))
     end,
     logged (AccessibleResources accessToken) p).
Proof.
  unfold JiraApi.getAccessibleResources, bindP, fetchResources.
  destruct (accessible_resources site (requests p) accessToken) as [response|]; [| reflexivity].
  destruct (ok response); cbn; [| reflexivity].
  unfold lift, responseJson. cbn. destruct (json response); reflexivity.
Qed.

(** ** The manual sync *)

Lemma same_accounts_refl (w : World) : same_accounts w w.
Proof. split; reflexivity. Qed.

Lemma same_accounts_trans (a b c : World) :
  same_accounts a b -> same_accounts b c -> same_accounts a c.
Proof. unfold same_accounts. intros [H1 H2] [H3 H4]. split; congruence. Qed.

Lemma same_accounts_sync (env : Env) (accessToken : option string) (cloudId : string)
      (integrationId : Z) :
  keeps same_accounts (syncAllData env accessToken cloudId integrationId).
Proof.
  intros w. destruct (sync_frame_syncAllData env accessToken cloudId integrationId w)
    as (H1 & H2 & _). split; assumption.
Qed.

Lemma same_accounts_step (env : Env) (accessToken : option string) (cloudId : string)
      (integrationId : Z) (step : M unit) :
  In step (steps env accessToken cloudId integrationId) -> keeps same_accounts step.
Proof.
  intros Hin w. destruct (sync_frame_steps env accessToken cloudId integrationId step Hin w)
    as (H1 & H2 & _). split; assumption.
Qed.

#[local] Arguments syncAllData : simpl never.

Lemma manualSync_returns (site : Site) (integrationId : Z) (p : State) :
  exists result, fst (Scheduler.manualSync site integrationId p) = Done result.
Proof.
  unfold Scheduler.manualSync. apply caught_returns.
  - halting.
  - intros f p0. eexists. reflexivity.
Qed.

Lemma manualSync_accounts (site : Site) (integrationId : Z) :
  keepsP (lifted same_accounts) (Scheduler.manualSync site integrationId).
Proof.
  unfold Scheduler.manualSync.
  frameL_with same_accounts_refl same_accounts_trans
              ltac:(apply (keepsP_lift same_accounts); apply same_accounts_sync).
Qed.

Lemma lift_getDatabase_run {A : Type} (k : Database -> P A) (handler : Failure -> P A)
      (p : State) :
  catchP (bindP (lift getDatabase) k) handler p = catchP (k (db (world p))) handler p.
Proof. rewrite catch_bind_run. destruct p as [w sent temp]. reflexivity. Qed.

(** X15.  [manualSync] always answers: every error raised on its way is
    turned into { success: false, error }.  It never changes a row of
    [integrations], and
    - for an account that is missing or not active it answers
      'Integration not found or inactive' and does nothing else;
    - for an active account it asks once for the accessible resources,
      with the account's access token; an empty list is answered by 'No
      accessible Jira resources found' without any further request or
      write; otherwise it runs [syncAllData] with the id of the first
      resource as cloud id, the other resources being ignored, and
      answers success exactly when that run returns. *)
Theorem manual_sync_outcomes (site : Site) (integrationId : Z) (p : State) :
  let run := Scheduler.manualSync site integrationId p in
  (exists result, fst run = Done result) /\
  lifted same_accounts p (snd run) /\
  (get_active (db (world p)) integrationId = None ->
   run = (Done (Scheduler.Failure "Integration not found or inactive"), p)) /\
  (forall integration,
      get_active (db (world p)) integrationId = Some integration ->
      site_log (snd run) = site_log p ++ [resources_call p (access_token integration)] /\
      forall response,
        accessible_resources site (requests p) (access_token integration) = Some response ->
        ok response = true ->
        (json response = Some (JArr []) ->
         run = (Done (Scheduler.Failure "No accessible Jira resources found"),
                logged (AccessibleResources (access_token integration)) p)) /\
        (forall first others,
            json response = Some (JArr (first :: others)) ->
            nullish first = false ->
            let inner := syncAllData (base site) (access_token integration)
                                     (template (prop first "id")) integrationId (world p) in
            world (snd run) = snd inner /\
            (fst run = Done Scheduler.Success <-> fst inner = Returned tt))).
Proof.
  cbv zeta. split; [apply manualSync_returns|]. split; [apply manualSync_accounts|].
  unfold Scheduler.manualSync. rewrite lift_getDatabase_run.
  split; [intros Hnone; rewrite Hnone; reflexivity|].
  intros integration Hget. rewrite Hget.
  rewrite catch_bind_run, getAccessibleResources_run.
  destruct (accessible_resources site (requests p) (access_token integration))
    as [response|] eqn:Hreply.
  2:{ cbn. split; [reflexivity|]. intros response H. discriminate. }
  destruct (ok response) eqn:Hok.
  2:{ cbn. split; [reflexivity|]. intros r H Hr. assert (Hrr : r = response) by congruence. subst r. clear H. congruence. }
  destruct (json response) as [resources|] eqn:Hjson.
  2:{ cbn. split; [reflexivity|]. intros r H Hr. assert (Hrr : r = response) by congruence. subst r. clear H.
      split; [intros Hj | intros first others Hj]; congruence. }
  split.
  - match goal with
    | |- site_log (snd (catchP ?m ?h ?p1)) = _ =>
        assert (Hquiet : keepsP same_log (catchP m h)) by silent;
        rewrite (Hquiet p1)
    end.
    reflexivity.
  - intros r H Hr. assert (Hrr : r = response) by congruence. subst r. clear H. split.
    + intros Hj. rewrite Hjson in Hj. injection Hj as ->. reflexivity.
    + intros first others Hj Hfirst. rewrite Hjson in Hj. injection Hj as ->.
      destruct p as [w sent temp].
      unfold catchP, bindP, memberP, lift, member, messageOf, retP, failP, logged.
      cbn -[syncAllData template requests]. rewrite Hfirst. cbn -[syncAllData template requests].
      destruct (syncAllData (base site) (access_token integration)
                            (template (prop first "id")) integrationId w)
        as [[[]|e] w1]; cbn; (split; [reflexivity|]); split; intros H; congruence.
Qed.

(** ** The routes for one kind of data *)

Lemma cases_in_steps (site : Site) (accessToken : option string) (cloudId : string)
      (integrationId : Z) (dataType : string) (step : M unit) (text : string) :
  assoc dataType (Server.cases site accessToken cloudId integrationId)
  = Some (Server.Calls step text) ->
  In step (steps (base site) accessToken cloudId integrationId).
Proof.
  unfold Server.cases, steps. cbn [assoc]. intros H.
  repeat match type of H with
         | (if String.eqb dataType ?n then _ else _) = _ =>
             destruct (String.eqb dataType n);
             [ first [ discriminate H | injection H as <- _; cbn [In]; tauto ] |]
         end.
  discriminate H.
Qed.

Lemma fields_case (site : Site) (accessToken : option string) (cloudId : string)
      (integrationId : Z) :
  assoc "fields" (Server.cases site accessToken cloudId integrationId)
  = Some (Server.Lacks "syncService.syncFields").
Proof. reflexivity. Qed.

Lemma syncIndividualData_returns (site : Site) (integrationId : Z) (dataType : string)
      (p : State) :
  exists result, fst (Server.syncIndividualData site integrationId dataType p) = Done result.
Proof.
  unfold Server.syncIndividualData. apply caught_returns.
  - halting.
  - intros f p0. eexists. reflexivity.
Qed.

Lemma syncIndividualData_accounts (site : Site) (integrationId : Z) (dataType : string) :
  keepsP (lifted same_accounts) (Server.syncIndividualData site integrationId dataType).
Proof.
  unfold Server.syncIndividualData.
  frameL_with same_accounts_refl same_accounts_trans
    ltac:(idtac; match goal with
          | |- keepsP _ (match assoc ?d ?c with _ => _ end) =>
              let E := fresh "E" in destruct (assoc d c) as [[? ?|?]|] eqn:E
          | E : assoc _ (Server.cases _ _ _ _) = Some (Server.Calls ?s _)
            |- keepsP _ (lift ?s) =>
              apply (keepsP_lift same_accounts);
              apply (same_accounts_step _ _ _ _ _ (cases_in_steps _ _ _ _ _ _ _ E))
          end).
Qed.

Lemma same_world_refl (w : World) : (fun a b : World => b = a) w w.
Proof. reflexivity. Qed.

Lemma same_world_trans (a b c : World) :
  (fun x y : World => y = x) a b -> (fun x y : World => y = x) b c ->
  (fun x y : World => y = x) a c.
Proof. cbn. congruence. Qed.

Lemma syncFields_world (site : Site) (integrationId : Z) :
  keepsP (lifted (fun a b : World => b = a)) (Server.syncIndividualData site integrationId "fields").
Proof.
  unfold Server.syncIndividualData.
  frameL_with same_world_refl same_world_trans ltac:(rewrite fields_case).
Qed.

(** X16.  [syncIndividualData] always answers, and its routes always
    answer 200 with that answer, a failure included.  It changes no row
    of [integrations].  For an id that no row has it answers
    'Integration not found' and does nothing else; for an id that a row
    has, active or not, it asks once for the accessible resources with
    the access token stored in that row.  For the data type 'fields' it
    never syncs anything: [ComprehensiveJiraSync] has no method
    [syncFields], so the world is left as it was and the answer is a
    failure. *)
Theorem individual_sync_contract (site : Site) (integrationId : Z) (dataType : string)
        (p : State) :
  let run := Server.syncIndividualData site integrationId dataType p in
  (exists result,
      fst run = Done result /\
      fst (Server.individualRoute site integrationId dataType p)
      = Done (Server.mkAnswer 200 result)) /\
  lifted same_accounts p (snd run) /\
  (row_of (db (world p)) integrationId = None ->
   run = (Done (Server.refusal "Integration not found"), p)) /\
  (forall integration,
      row_of (db (world p)) integrationId = Some integration ->
      site_log (snd run) = site_log p ++ [resources_call p (access_token integration)]) /\
  (let fields := Server.syncIndividualData site integrationId "fields" p in
   world (snd fields) = world p /\
   exists text, fst fields = Done (Server.refusal text)).
Proof.
  cbv zeta. split; [| split; [apply syncIndividualData_accounts | split; [| split]]].
  - destruct (syncIndividualData_returns site integrationId dataType p) as [result Hres].
    exists result. split; [exact Hres|].
    unfold Server.individualRoute, catchP, bindP.
    destruct (Server.syncIndividualData site integrationId dataType p) as [[r|f|] p1];
      cbn in Hres; try discriminate.
    injection Hres as ->. reflexivity.
  - intros Hnone. unfold Server.syncIndividualData. rewrite lift_getDatabase_run, Hnone.
    reflexivity.
  - intros integration Hrow. unfold Server.syncIndividualData.
    rewrite lift_getDatabase_run, Hrow, catch_bind_run, getAccessibleResources_run.
    match goal with
    | |- site_log (snd (match ?o with _ => _ end)) = _ => destruct o as [resources|f|]
    end; [| reflexivity | reflexivity].
    match goal with
    | |- site_log (snd (catchP ?m ?h ?p1)) = _ =>
        assert (Hquiet : keepsP same_log (catchP m h)) by silent;
        rewrite (Hquiet p1)
    end.
    reflexivity.
  - split; [apply (syncFields_world site integrationId p)|].
    unfold Server.syncIndividualData, catchP.
    match goal with
    | |- exists text, fst (match ?m p with _ => _ end) = _ =>
        assert (Hh : halts m) by halting;
        assert (Hcases : forall result, fst (m p) = Done result ->
                                        exists text, result = Server.refusal text);
        [| specialize (Hh p); destruct (m p) as [[result|f|] p1]; cbn in *;
           [ destruct (Hcases result eq_refl) as [text ->]; eauto
           | eexists; reflexivity
           | contradiction ] ]
    end.
    intros result. rewrite bindP_run. unfold lift at 1, getDatabase at 1. cbn [fst snd].
    destruct (row_of (db (world p)) integrationId) as [integration|];
      [| cbn; intros H; injection H as <-; eauto].
    rewrite bindP_run, getAccessibleResources_run.
    match goal with
    | |- fst (match ?o with _ => _ end) = _ -> _ => destruct o as [resources|f|]
    end; [| cbn; discriminate | cbn; discriminate].
    rewrite bindP_run. unfold memberP at 1, lift at 1, member at 1.
    destruct (nullish resources); [cbn; discriminate|]. unfold ret at 1. cbn [fst snd].
    destruct (Json_eqb (prop resources "length") (JNum 0));
      [cbn; intros H; injection H as <-; eauto|].
    rewrite bindP_run. unfold memberP at 1, lift at 1, member at 1.
    destruct (nullish (item0 resources)); [cbn; discriminate|]. unfold ret at 1. cbn [fst snd].
    rewrite fields_case. cbn. discriminate.
Qed.

(** ** The health check *)

Lemma kept_active_refl (x : Integration) : kept_active x x.
Proof. split; [apply updated_row_refl | reflexivity]. Qed.

Lemma kept_active_trans (x y z : Integration) :
  kept_active x y -> kept_active y z -> kept_active x z.
Proof.
  intros [H1 H2] [H3 H4]. split; [apply (updated_row_trans x y z); assumption | congruence].
Qed.

Lemma Forall2_trans {A : Type} (R : A -> A -> Prop) (l1 l2 l3 : list A) :
  (forall x y z, R x y -> R y z -> R x z) ->
  Forall2 R l1 l2 -> Forall2 R l2 l3 -> Forall2 R l1 l3.
Proof.
  intros Ht H12. revert l3. induction H12 as [|x y l1 l2 Hxy H12 IH]; intros l3 H23;
    inversion H23; subst; constructor; eauto.
Qed.

Lemma flags_kept_refl (w : World) : flags_kept w w.
Proof.
  split; [apply Forall2_same; apply kept_active_refl | split; reflexivity].
Qed.

Lemma flags_kept_trans (a b c : World) : flags_kept a b -> flags_kept b c -> flags_kept a c.
Proof.
  intros (H1 & H2 & H3) (H4 & H5 & H6).
  split; [apply (Forall2_trans kept_active _ _ _ kept_active_trans H1 H4) | split; congruence].
Qed.

Lemma flags_kept_update (i : Z) (f : Integration -> Integration) (w : World) (d : Database) :
  (forall x, kept_active x (f x)) ->
  d = update_where_id i f (db w) ->
  Forall2 kept_active (integrations (db w)) (integrations d) /\
  integrations_seq d = integrations_seq (db w) /\ tables d = tables (db w).
Proof.
  intros Hf ->. unfold update_where_id. cbn. split; [| split; reflexivity].
  induction (integrations (db w)) as [|x l IH]; cbn; constructor; [| exact IH].
  destruct (id x =? i); [apply Hf | apply kept_active_refl].
Qed.

Lemma flags_kept_refresh (env : Env) (i : Z) :
  keeps flags_kept (refreshAccessToken env i).
Proof.
  intros w. pose proof (refresh_effect env i w) as [_ Hcases]. cbv zeta in Hcases.
  unfold flags_kept.
  destruct Hcases as [-> | [H | (a & b & c & e & H)]].
  - apply flags_kept_refl.
  - unfold count_failure in H. eapply flags_kept_update; [| exact H].
    intros x. unfold kept_active, updated_row. cbn. repeat split; auto.
  - eapply flags_kept_update; [| exact H].
    intros x. unfold kept_active, updated_row. cbn. repeat split; auto.
Qed.

Lemma healthCheck_returns (site : Site) (p : State) :
  fst (Scheduler.healthCheck site p) = Done tt.
Proof.
  destruct (caught_returns
              (bindP (lift getDatabase)
                     (fun d => forEachP (select_active d) (Scheduler.checkAccount site)))
              (fun error => retP tt) p) as [[] H].
  - unfold Scheduler.checkAccount. halting.
  - intros f p0. exists tt. reflexivity.
  - exact H.
Qed.

Lemma healthCheck_flags (site : Site) : keepsP (lifted flags_kept) (Scheduler.healthCheck site).
Proof.
  unfold Scheduler.healthCheck, Scheduler.checkAccount.
  frameL_with flags_kept_refl flags_kept_trans
              ltac:(apply (keepsP_lift flags_kept); apply flags_kept_refresh).
Qed.

Lemma prefix_append (a b : string) : String.prefix a (String.append a b) = true.
Proof.
  induction a as [|c a IH]; cbn; [destruct b; reflexivity|].
  destruct (ascii_dec c c); [exact IH | contradiction].
Qed.

Lemma includes_prefix (needle hay : string) :
  String.prefix needle hay = true -> includes needle hay = true.
Proof. intros H. destruct hay; cbn in *; rewrite H; reflexivity. Qed.

Lemma includes_after (needle before after : string) :
  includes needle (String.append before (String.append needle after)) = true.
Proof.
  induction before as [|c before IH]; cbn [String.append].
  - apply includes_prefix. apply prefix_append.
  - cbn [includes]. rewrite IH. apply orb_true_r.
Qed.

(** X17.  The health check always returns and never deactivates: after
    it every account has the id, the flags (active and primary), the
    account texts and the timestamps it had, no row is added or removed
    and no other table is written.  For one account: a probe that is
    answered with a body leaves the world as it is; a probe that is
    answered 401 is followed by a call of [refreshAccessToken] for that
    account, whose errors are dropped, so a refused refresh counts one
    more failure and nothing else happens. *)
Theorem health_check_never_deactivates (site : Site) (p : State) :
  fst (Scheduler.healthCheck site p) = Done tt /\
  lifted flags_kept p (snd (Scheduler.healthCheck site p)) /\
  (forall r response,
      accessible_resources site (requests p) (access_token r) = Some response ->
      let run := Scheduler.checkAccount site r p in
      fst run = Done tt /\
      (ok response = true -> json response <> None -> world (snd run) = world p) /\
      (status response = 401 ->
       world (snd run) = snd (refreshAccessToken (base site) (id r) (world p)))).
Proof.
  split; [apply healthCheck_returns|]. split; [apply healthCheck_flags|].
  intros r response Hreply. cbv zeta.
  unfold Scheduler.checkAccount. rewrite catch_bind_run, getAccessibleResources_run, Hreply.
  destruct p as [w sent temp]. cbn [world].
  destruct (ok response) eqn:Hok.
  - destruct (json response) as [resources|] eqn:Hjson.
    + cbn. split; [reflexivity|]. split; [reflexivity|].
      intros H401. unfold ok in Hok. rewrite H401 in Hok. discriminate.
    + unfold bindP, messageOf, catchP, lift, retP, logged, with_world.
      cbn -[refreshAccessToken message includes].
      cbv beta iota delta [world site_log tempAccountInfo].
      split; [| split].
      * destruct (includes "401" _); [| reflexivity].
        destruct (refreshAccessToken (base site) (id r) w) as [[t|e] w1]; reflexivity.
      * intros _ H. contradiction.
      * intros H401. unfold ok in Hok. rewrite H401 in Hok. discriminate.
  - unfold bindP, messageOf, catchP, lift, retP, logged, with_world.
    cbn -[refreshAccessToken message includes].
    cbv beta iota delta [world site_log tempAccountInfo].
    split; [| split].
    + destruct (includes "401" _); [| reflexivity].
      destruct (refreshAccessToken (base site) (id r) w) as [[t|e] w1]; reflexivity.
    + discriminate.
    + intros H401. unfold message. rewrite H401.
      change (decimal 401) with "401".
      rewrite (includes_after "401" "Failed to fetch accessible resources: "
                              (String.append " " (text response))).
      destruct (refreshAccessToken (base site) (id r) w) as [[t|e] w1]; reflexivity.
Qed.

(** ** The hourly sync *)

Section Ends.
Variable I : World -> Prop.

Lemma ends_ret {A : Type} (a : A) : ends_within I (retP a).
Proof. intros p Hp. split; [exact Hp | discriminate]. Qed.

Lemma ends_fail {A : Type} (f : Failure) : ends_within I (@failP A f).
Proof. intros p Hp. split; [exact Hp | discriminate]. Qed.

Lemma ends_bind {A B : Type} (m : P A) (k : A -> P B) :
  ends_within I m -> (forall a, ends_within I (k a)) -> ends_within I (bindP m k).
Proof.
  intros Hm Hk p Hp. unfold bindP. specialize (Hm p Hp).
  destruct (m p) as [[a|f|] p1]; cbn [fst snd] in *.
  - apply Hk, Hm.
  - split; [apply Hm | discriminate].
  - destruct Hm as [_ H]. contradiction.
Qed.

Lemma ends_catch {A : Type} (m : P A) (handler : Failure -> P A) :
  ends_within I m -> (forall f, ends_within I (handler f)) -> ends_within I (catchP m handler).
Proof.
  intros Hm Hh p Hp. unfold catchP. specialize (Hm p Hp).
  destruct (m p) as [[a|f|] p1]; cbn [fst snd] in *.
  - split; [apply Hm | discriminate].
  - apply Hh, Hm.
  - destruct Hm as [_ H]. contradiction.
Qed.

Lemma ends_forEach {A : Type} (l : list A) (body : A -> P unit) :
  (forall x, ends_within I (body x)) -> ends_within I (forEachP l body).
Proof.
  intros Hb. induction l as [|x l IH]; cbn [forEachP]; [apply ends_ret|].
  apply ends_bind; [apply Hb | intros _; exact IH].
Qed.

Lemma ends_forOf (v : Json) (body : Json -> P unit) :
  (forall x, ends_within I (body x)) -> ends_within I (forOfP v body).
Proof.
  intros Hb. unfold forOfP. destruct (iterable v); [apply ends_forEach, Hb | apply ends_fail].
Qed.

Lemma ends_lift {A : Type} (m : M A) :
  (forall w, I w -> I (snd (m w))) -> ends_within I (lift m).
Proof.
  intros Hm p Hp. unfold lift. specialize (Hm (world p) Hp).
  destruct (m (world p)) as [[a|e] w1]; cbn in *; (split; [exact Hm | discriminate]).
Qed.

Lemma ends_loop {A : Type} (m : M (option A)) :
  (forall w, I w -> I (snd (m w)) /\ fst (m w) <> Returned None) -> ends_within I (loop m).
Proof.
  intros Hm p Hp. unfold loop. destruct (Hm (world p) Hp) as [Hi Hsome].
  destruct (m (world p)) as [[[a|]|e] w1]; cbn in *;
    [split; [exact Hi | discriminate] | contradiction | split; [exact Hi | discriminate]].
Qed.

Lemma ends_member (v : Json) (k : string) : ends_within I (memberP v k).
Proof.
  apply ends_lift. intros w Hw. unfold member. destruct (nullish v); exact Hw.
Qed.

Lemma ends_resources (site : Site) (accessToken : option string) :
  ends_within I (JiraApi.getAccessibleResources site accessToken).
Proof.
  intros p Hp. rewrite getAccessibleResources_run. cbn [fst snd]. split; [exact Hp|].
  destruct (accessible_resources site (requests p) accessToken) as [response|]; [| discriminate].
  destruct (ok response); [| discriminate]. destruct (json response); discriminate.
Qed.

End Ends.

Lemma only_projects_refl (w : World) : only_projects w w.
Proof. split; [reflexivity | apply same_accounts_refl]. Qed.

Lemma only_projects_trans (a b c : World) :
  only_projects a b -> only_projects b c -> only_projects a c.
Proof.
  intros [H1 H2] [H3 H4]. split.
  - intros name Hname. rewrite (H3 name Hname). apply H1, Hname.
  - apply (same_accounts_trans a b c); assumption.
Qed.

Lemma only_projects_db (w0 w w' : World) :
  db w' = db w -> only_projects w0 w -> only_projects w0 w'.
Proof. unfold only_projects, same_accounts. intros -> H. exact H. Qed.

Lemma only_projects_insert (how : ConflictClause) (cols : list string)
      (values : list ValueSpec) (args : list SqlValue) (w : World) :
  only_projects w (snd (dbInsert how "jira_projects" cols values args w)).
Proof.
  unfold dbInsert, bind, getDatabase.
  destruct (table (db w) "jira_projects") as [t|]; cbn; [| apply only_projects_refl].
  destruct (insert how cols values args t) as [t'|fault]; cbn; [| apply only_projects_refl].
  split; [| split; reflexivity].
  intros other Hother. apply table_set_other.
  destruct (String.eqb other "jira_projects") eqn:E; [| reflexivity].
  apply String.eqb_eq in E. contradiction.
Qed.

Lemma getProjects_db (site : Site) (accessToken : option string) (cloudId : Json) (w : World) :
  db (snd (JiraApi.getProjects site accessToken cloudId w)) = db w.
Proof.
  unfold JiraApi.getProjects, bind, fetchJira, responseJson.
  destruct (jira_api (base site) (List.length (http_log w))
                     (Get accessToken (template cloudId) EProject)) as [response|];
    cbn; [| reflexivity].
  destruct (ok response); cbn; [| reflexivity].
  destruct (json response); reflexivity.
Qed.

Lemma dbFindProject_world (integrationId : Z) (key : SqlValue) (w : World) :
  snd (Scheduler.dbFindProject integrationId key w) = w.
Proof.
  unfold Scheduler.dbFindProject, bind, getDatabase. cbn.
  destruct (table (db w) "jira_projects"); reflexivity.
Qed.

Lemma no_issue_index_kept (w0 w : World) :
  no_issue_index w0 -> only_projects w0 w -> no_issue_index w.
Proof.
  intros H0 [Ht _] t Hw. apply H0. rewrite <- Hw. symmetry. apply Ht. discriminate.
Qed.

Lemma hourly_sync_ends (site : Site) (fuel : nat) (w0 : World) :
  no_issue_index w0 ->
  ends_within (only_projects w0) (Scheduler.syncAllData site (S fuel)).
Proof.
  intros H0. unfold Scheduler.syncAllData, Scheduler.syncAccount, Scheduler.syncProject.
  apply ends_catch; [| intros f; apply ends_ret].
  apply ends_bind; [apply ends_lift; intros w Hw; exact Hw | intros d].
  apply ends_forEach. intros integration.
  apply ends_catch; [| intros f; apply ends_ret].
  apply ends_bind; [apply ends_resources | intros resources].
  apply ends_forOf. intros resource.
  apply ends_bind; [apply ends_member | intros cloudId].
  apply ends_bind.
  { apply ends_lift. intros w Hw. apply (only_projects_db w0 w); [apply getProjects_db | exact Hw]. }
  intros projects. apply ends_forOf. intros project.
  apply ends_bind; [apply ends_member | intros key].
  apply ends_bind.
  { apply ends_lift. intros w Hw.
    apply (only_projects_trans w0 w); [exact Hw | apply only_projects_insert]. }
  intros _. apply ends_bind.
  { apply ends_lift. intros w Hw. rewrite dbFindProject_world. exact Hw. }
  intros [rowid|]; [| apply ends_ret].
  apply ends_bind; [| intros total; apply ends_ret].
  apply ends_loop. intros w Hw.
  destruct (syncIssues_first_page (base site) (access_token integration) fuel (id integration)
              rowid (template cloudId) (template key) w (no_issue_index_kept w0 w H0 Hw))
    as (Hdb & _ & Hres).
  split.
  - apply (only_projects_db w0 w); assumption.
  - destruct Hres as [H | [e H]]; rewrite H; discriminate.
Qed.

Lemma swallowed_ends (m : P unit) (p : State) :
  fst (catchP m (fun error => retP tt) p) <> Running ->
  fst (catchP m (fun error => retP tt) p) = Done tt.
Proof.
  unfold catchP. destruct (m p) as [[[]|f|] p1]; cbn; [reflexivity | reflexivity | contradiction].
Qed.

(** X18.  On a database whose [jira_issues] lacks the unique index that
    [storeIssue] names (the one [initDatabase] creates), the hourly
    [syncAllData] of the scheduler returns with one turn of fuel for the
    page loop: no error leaves it and no loop of pages goes on.  It
    writes to jira_projects only: every other table, [jira_issues]
    among them, and the accounts are as they were. *)
Theorem hourly_sync_stores_no_issue (site : Site) (fuel : nat) (p : State) :
  no_issue_index (world p) ->
  let run := Scheduler.syncAllData site (S fuel) p in
  fst run = Done tt /\
  (forall name, name <> "jira_projects" ->
                table (db (world (snd run))) name = table (db (world p)) name) /\
  same_accounts (world p) (world (snd run)).
Proof.
  intros H0 run.
  destruct (hourly_sync_ends site fuel (world p) H0 p (only_projects_refl (world p)))
    as [[Htables Hacc] Hend].
  fold run in Htables, Hacc, Hend.
  split; [| split; assumption].
  apply swallowed_ends. exact Hend.
Qed.

(** One active account, one cloud, the projects P and Q, and a search
    that answers 100 issues: the hourly sync lists the projects, stores
    P, searches its issues and is refused the first upsert; it returns
    with [jira_issues] as it was, Q neither stored nor searched. *)
Lemma hourly_sync_stores_no_issue_witness :
  (fst (Scheduler.syncAllData Cases.searched 1 (Cases.started [Scenario.due 1 0 true])) = Done tt /\
   table (db (world (snd (Scheduler.syncAllData Cases.searched 1
                            (Cases.started [Scenario.due 1 0 true])))))
         "jira_issues"
   = table initDatabase "jira_issues") /\
  http_log (world (snd (Scheduler.syncAllData Cases.searched 1
                          (Cases.started [Scenario.due 1 0 true]))))
  = [JiraCall (Get (Some "access-0") "cloud" EProject);
     JiraCall (SearchJql (Some "access-0") "cloud" "P" 100)] /\
  keys_of (db (world (snd (Scheduler.syncAllData Cases.searched 1
                             (Cases.started [Scenario.due 1 0 true])))))
          "jira_projects" "project_key"
  = [(SqlInt 1, SqlText "P")].
Proof.
  split; [| split; vm_compute; reflexivity].
  assert (H : no_issue_index (world (Cases.started [Scenario.due 1 0 true]))).
  { intros t Ht. rewrite (initDatabase_no_unique "jira_issues" t Ht). reflexivity. }
  destruct (hourly_sync_stores_no_issue Cases.searched 0
              (Cases.started [Scenario.due 1 0 true]) H) as (H1 & H2 & _).
  split; [exact H1 | apply H2; discriminate].
Defined.

(** ** The refresh route *)





(** ** The sync routes *)

Lemma syncRoute_returns (site : Site) (i : Z) (p : State) :
  exists answer, fst (Server.syncRoute site i p) = Done answer.
Proof.
  unfold Server.syncRoute. apply caught_returns.
  - unfold Scheduler.manualSync. halting.
  - intros f p0. eexists. reflexivity.
Qed.

Lemma comprehensiveSyncRoute_returns (site : Site) (i : Z) (p : State) :
  exists answer, fst (Server.comprehensiveSyncRoute site i p) = Done answer.
Proof.
  unfold Server.comprehensiveSyncRoute. apply caught_returns.
  - halting.
  - intros f p0. eexists. reflexivity.
Qed.

Lemma comprehensiveSyncRoute_accounts (site : Site) (i : Z) :
  keepsP (lifted same_accounts) (Server.comprehensiveSyncRoute site i).
Proof.
  unfold Server.comprehensiveSyncRoute.
  frameL_with same_accounts_refl same_accounts_trans
              ltac:(apply (keepsP_lift same_accounts); apply same_accounts_sync).
Qed.

(** X20.  The two routes that run the whole sync always answer and leave
    the accounts as they are.  POST .../sync answers 200 exactly when
    [manualSync] succeeds, and in the state [manualSync] ends in; for an
    account that is missing or not active it answers 500 and does
    nothing.  POST .../comprehensive-sync does not ask whether the
    account is active: only a missing row is answered 404; for any row,
    deactivated or not, an empty list of resources is answered 400, and
    otherwise [syncAllData] runs with the stored access token and the id
    of the first resource, the answer being 200 if it returns and 500 if
    it throws. *)
Theorem sync_routes_and_inactive_accounts (site : Site) (i : Z) (p : State) :
  let plain := Server.syncRoute site i p in
  let full := Server.comprehensiveSyncRoute site i p in
  (exists answer, fst plain = Done answer) /\
  (exists answer, fst full = Done answer) /\
  snd plain = snd (Scheduler.manualSync site i p) /\
  (fst plain = Done (Server.mkAnswer 200 (Server.completed "Sync completed successfully"))
   <-> fst (Scheduler.manualSync site i p) = Done Scheduler.Success) /\
  (get_active (db (world p)) i = None ->
   plain = (Done (Server.mkAnswer 500 (Server.failure "Integration not found or inactive")), p)) /\
  lifted same_accounts p (snd full) /\
  (row_of (db (world p)) i = None ->
   full = (Done (Server.mkAnswer 404 (Server.failure "Integration not found")), p)) /\
  (forall r response,
      row_of (db (world p)) i = Some r ->
      accessible_resources site (requests p) (access_token r) = Some response ->
      ok response = true ->
      (json response = Some (JArr []) ->
       full = (Done (Server.mkAnswer 400 (Server.failure "No accessible Jira resources found")),
               logged (AccessibleResources (access_token r)) p)) /\
      (forall first others,
          json response = Some (JArr (first :: others)) ->
          nullish first = false ->
          let inner := syncAllData (base site) (access_token r)
                                   (template (prop first "id")) i (world p) in
          world (snd full) = snd inner /\
          (fst inner = Returned tt ->
           fst full = Done (Server.mkAnswer 200
                              (Server.completed "Comprehensive sync completed successfully"))) /\
          (forall e, fst inner = Thrown e ->
                     exists text, fst full = Done (Server.mkAnswer 500 (Server.failure text))))).
Proof.
  cbv zeta.
  split; [apply syncRoute_returns|]. split; [apply comprehensiveSyncRoute_returns|].
  assert (Hplain : Server.syncRoute site i p
                   = match Scheduler.manualSync site i p with
                     | (Done Scheduler.Success, p1) =>
                         (Done (Server.mkAnswer 200
                                  (Server.completed "Sync completed successfully")), p1)
                     | (Done (Scheduler.Failure error), p1) =>
                         (Done (Server.mkAnswer 500 (Server.failure error)), p1)
                     | (Failed f, p1) =>
                         (Done (Server.mkAnswer 500 (Server.failure (message site p1 f))), p1)
                     | (Running, p1) => (Running, p1)
                     end).
  { unfold Server.syncRoute. rewrite catch_bind_run.
    destruct (Scheduler.manualSync site i p) as [[[|error]|f|] p1]; reflexivity. }
  split; [rewrite Hplain; destruct (Scheduler.manualSync site i p) as [[[|error]|f|] p1];
          reflexivity|].
  split.
  { rewrite Hplain. destruct (Scheduler.manualSync site i p) as [[[|error]|f|] p1]; cbn;
      split; intros H; congruence. }
  split.
  { intros Hnone. rewrite Hplain. unfold Scheduler.manualSync.
    rewrite lift_getDatabase_run, Hnone. reflexivity. }
  split; [apply comprehensiveSyncRoute_accounts|].
  unfold Server.comprehensiveSyncRoute. rewrite lift_getDatabase_run.
  split; [intros Hnone; rewrite Hnone; reflexivity|].
  intros r response Hrow Hreply Hok. rewrite Hrow.
  rewrite catch_bind_run, getAccessibleResources_run, Hreply, Hok.
  split.
  - intros Hj. rewrite Hj. reflexivity.
  - intros first others Hj Hfirst. rewrite Hj. destruct p as [w sent temp].
    unfold catchP, bindP, memberP, lift, member, messageOf, retP, failP, logged.
    cbn -[syncAllData template requests message]. rewrite Hfirst.
    cbn -[syncAllData template requests message].
    destruct (syncAllData (base site) (access_token r) (template (prop first "id")) i w)
      as [[[]|e] w1]; cbn -[message]; (split; [reflexivity|]); split; intros;
      try congruence; first [reflexivity | eexists; reflexivity].
Qed.

(** ** The OAuth callback *)

Lemma halts_getTemp : halts getTemp.
Proof. intros p. discriminate. Qed.

Lemma halts_setTemp (info : option AccountInfo) : halts (setTemp info).
Proof. intros p. discriminate. Qed.

Lemma halts_fetchExchange (site : Site) (code : string) : halts (fetchExchange site code).
Proof.
  intros p. unfold fetchExchange. destruct (token_exchange site (requests p) code); discriminate.
Qed.

Lemma authCallback_returns (site : Site) (code : option string) (p : State) :
  exists answer, fst (Server.authCallback site code p) = Done answer.
Proof.
  unfold Server.authCallback. apply caught_returns.
  - unfold OAuth.exchangeCodeForTokens.
    repeat first [ apply halts_getTemp | apply halts_setTemp | apply halts_fetchExchange
                 | progress halting ].
  - intros f p0. eexists. reflexivity.
Qed.

(** X21.  The OAuth callback always answers.  Without a code (none, or
    an empty one) it answers 400 and does nothing.  With a code it sends
    one request to the token endpoint.  If the exchange is refused the
    answer is 500 with the status and text received, nothing is stored
    and [tempAccountInfo] stays as it was, so the account info given
    before remains for the next callback.  If tokens are granted with a
    lifetime, the account is stored by [storeTokens] under 'web-auth'
    with the expiry computed from the first reading of the clock, an
    absent or empty refresh token being stored as NULL, and with the
    account info of [tempAccountInfo] or, when that is unset, the
    defaults of the route; the answer carries the id [storeTokens]
    returned, and [tempAccountInfo] is cleared. *)
Theorem oauth_callback_contract (site : Site) (code : option string) (p : State) :
  let run := Server.authCallback site code p in
  (exists answer, fst run = Done answer) /\
  (truthy_text code = false ->
   run = (Done (Server.mkAnswer 400 (Server.failure "No authorization code provided")), p)) /\
  (forall c response,
      code = Some c ->
      truthy_text code = true ->
      token_exchange site (requests p) c = Some response ->
      (ok response = false ->
       run = (Done (Server.mkAnswer 500
                      (Server.failure
                         (String.append "Token exchange failed: "
                            (String.append (decimal (status response))
                               (String.append " " (text response)))))),
              logged (ExchangeCode c) p)) /\
      (forall tokenData expires_in,
          ok response = true ->
          json response = Some tokenData ->
          td_expires_in tokenData = Some expires_in ->
          let now := clock (base site) (clock_reads (world p)) in
          validTime (now + expires_in * 1000) = true ->
          let tokens := mkTokens (td_access_token tokenData)
                                 (text_or (td_refresh_token tokenData) None)
                                 (now + expires_in * 1000) in
          let info := match tempAccountInfo p with
                      | Some info => info
                      | None => Server.defaultAccount
                      end in
          let stored := storeTokens (base site) "web-auth" tokens info
                                    (snd (dateNow (base site) (world p))) in
          fst stored = Returned (next_integration_id (db (world p))) /\
          fst run = Done (Server.mkAnswer 200
                            (Server.authenticated (next_integration_id (db (world p))))) /\
          world (snd run) = snd stored /\
          site_log (snd run) = site_log p ++ [(List.length (http_log (world p)), ExchangeCode c)] /\
          tempAccountInfo (snd run) = None)).
Proof.
  cbv zeta. split; [apply authCallback_returns|].
  unfold Server.authCallback. split.
  - intros Hno. destruct code as [c|]; [| reflexivity]. rewrite Hno. reflexivity.
  - intros c response -> Hyes Hreply. rewrite Hyes. cbn [negb].
    unfold OAuth.exchangeCodeForTokens.
    destruct p as [w sent temp].
    unfold catchP, bindP, fetchExchange. rewrite Hreply. split.
    + intros Hok. rewrite Hok. reflexivity.
    + intros tokenData expires_in Hok Hjson Hlife Hvalid. rewrite Hok. cbn [negb].
      unfold lift, responseJson, getTemp, setTemp, retP, failP, logged, with_world, toISOString.
      rewrite Hjson.
      cbn -[storeTokens next_integration_id validTime Z.mul Z.add].
      rewrite Hlife.
      cbn -[storeTokens next_integration_id validTime Z.mul Z.add] in Hvalid |- *.
      rewrite Hvalid.
      cbn -[storeTokens next_integration_id validTime Z.mul Z.add].
      cbv beta iota delta [world site_log tempAccountInfo].
      match goal with
      | |- context [storeTokens ?e ?pr ?t ?a ?w0] =>
          destruct (storeTokens_run e pr t a w0) as (row & Hfst & _ & Hid & _);
          destruct (storeTokens e pr t a w0) as [[j|err] w1] eqn:Hst
      end; cbn [fst snd] in *; [| discriminate].
      assert (Hj : j = next_integration_id (db w)) by (cbn [db] in Hid; congruence).
      subst j. cbn. repeat split; reflexivity.
Qed.

(** ** Labels *)






Lemma filter_all {A : Type} (l : list A) : filter (fun _ => true) l = l.
Proof. induction l as [|x l IH]; cbn; [reflexivity | rewrite IH; reflexivity]. Qed.











(** ** The project loop of the hourly sync *)

(** A search that answers at least one issue, where the index is
    missing: the first upsert is refused. *)
Lemma syncIssues_refused
      (env : Env) (accessToken : option string) (fuel : nat)
      (integrationId projectId : Z) (cloudId projectKey : string) (w : World)
      (response : Response Json) (body issue : Json) (more : list Json) :
  no_issue_index w ->
  jira_api env (List.length (http_log w)) (SearchJql accessToken cloudId projectKey 100)
  = Some response ->
  ok response = true ->
  json response = Some body ->
  prop body "issues" = JArr (issue :: more) ->
  exists e w',
    syncIssuesToDatabase env accessToken (S fuel) integrationId projectId cloudId projectKey w
    = (Thrown e, w') /\
    db w' = db w.
Proof.
  intros Hno Hreply Hok Hjson Hissues.
  unfold syncIssuesToDatabase. cbn [syncLoop]. rewrite bind_run.
  unfold getIssues at 1. rewrite bind_run. unfold fetchJira at 1.
  change maxResults with 100. rewrite Hreply, Hok. cbn [negb].
  unfold responseJson. rewrite Hjson. unfold ret at 1.
  rewrite bind_run. unfold member.
  assert (Hbody : nullish body = false).
  { destruct body; cbn in Hissues; try discriminate; reflexivity. }
  rewrite Hbody. unfold ret at 1. cbv beta iota zeta. rewrite Hissues.
  cbn [or_else truthy js_length List.length]. rewrite Nat2Z.inj_succ.
  destruct (Z.succ (Z.of_nat (List.length more))) eqn:Hlen; [lia | | lia].
  rewrite bind_run. unfold forOf. cbn [iterable forEach]. rewrite bind_run.
  destruct (storeIssue_throws env integrationId projectId issue
              (logCall (JiraCall (SearchJql accessToken cloudId projectKey 100)) w))
    as (e & w2 & -> & Hd2 & _); [exact Hno|].
  exists e, w2. split; [reflexivity | exact Hd2].
Qed.

(** The INSERT OR REPLACE of the hourly sync on the table as created. *)
Lemma insert_project (t : Table) (i : Z) (key name cloud : SqlValue) :
  as_created "jira_projects" t ->
  exists t' row,
    insert OrReplace
           ["integration_id"; "project_key"; "project_name"; "cloud_id"; "is_active"]
           (placeholders 5) [SqlInt i; key; name; cloud; SqlInt 1] t = inl t' /\
    rows t' = rows t ++ [row] /\
    cell row "integration_id" = SqlInt i /\
    cell row "project_key" = key.
Proof.
  intros [Hcols Huq]. destruct t as [cols uq rws sq]. cbn [columns uniques] in *.
  vm_compute in Hcols. injection Hcols as <-. subst uq.
  unfold insert, append_row, violates. cbn. rewrite filter_all.
  eexists. eexists. split; [reflexivity|]. split; [reflexivity|]. cbn. auto.
Qed.

Lemma find_last {A : Type} (f : A -> bool) (l : list A) (x : A) :
  f x = true -> exists y, find f (l ++ [x]) = Some y.
Proof.
  intros Hx. induction l as [|a l IH]; cbn; [rewrite Hx; eauto|].
  destruct (f a); [eauto | exact IH].
Qed.

Lemma lift_run {A : Type} (m : M A) (w : World) (sent : list (nat * SiteRequest))
      (temp : option AccountInfo) :
  lift m (mkState w sent temp)
  = match m w with
    | (Returned a, w') => (Done a, mkState w' sent temp)
    | (Thrown e, w') => (Failed (Inner e), mkState w' sent temp)
    end.
Proof. unfold lift. cbn. destruct (m w) as [[a|e] w']; reflexivity. Qed.

Lemma loop_run {A : Type} (m : M (option A)) (w : World) (sent : list (nat * SiteRequest))
      (temp : option AccountInfo) :
  loop m (mkState w sent temp)
  = match m w with
    | (Returned (Some a), w') => (Done a, mkState w' sent temp)
    | (Returned None, w') => (Running, mkState w' sent temp)
    | (Thrown e, w') => (Failed (Inner e), mkState w' sent temp)
    end.
Proof. unfold loop. cbn. destruct (m w) as [[[a|]|e] w']; reflexivity. Qed.

(** X23.  On the tables as [initDatabase] creates them, the project loop
    of the hourly sync ends at the first project that has an issue.  When
    the search for the first project of the list answers at least one
    issue, that project's row is added to jira_projects, the upsert of
    the issue is refused, and the loop is left with that error: whatever
    projects follow in the list, none of them is stored or searched in
    this run. *)
Theorem hourly_sync_stops_at_first_issue
        (site : Site) (fuel : nat) (integration : Integration) (cloudId project : Json)
        (others : list Json) (k : string) (t : Table)
        (response : Response Json) (body issue : Json) (more : list Json) (p : State) :
  no_issue_index (world p) ->
  table (db (world p)) "jira_projects" = Some t ->
  as_created "jira_projects" t ->
  prop project "key" = JStr k ->
  jira_api (base site) (List.length (http_log (world p)))
           (SearchJql (access_token integration) (template cloudId) k 100) = Some response ->
  ok response = true ->
  json response = Some body ->
  prop body "issues" = JArr (issue :: more) ->
  let run := forOfP (JArr (project :: others))
                    (Scheduler.syncProject site (S fuel) integration cloudId) p in
  (exists e, fst run = Failed (Inner e)) /\
  (exists t' row,
      table (db (world (snd run))) "jira_projects" = Some t' /\
      rows t' = rows t ++ [row] /\
      cell row "integration_id" = SqlInt (id integration) /\
      cell row "project_key" = SqlText k) /\
  http_log (world (snd run))
  = http_log (world p)
    ++ [JiraCall (SearchJql (access_token integration) (template cloudId) k 100)].
Proof.
  intros Hno Ht Hc Hkey Hreply Hok Hjson Hissues run. subst run.
  assert (Hproject : nullish project = false).
  { destruct project; cbn in Hkey; try discriminate; reflexivity. }
  destruct (insert_project t (id integration) (SqlText k) (bindParam (prop project "name"))
              (bindParam cloudId) Hc) as (t1 & row & Hins & Hrows & Hi & Hk).
  destruct (find_last
              (fun r => SqlValue_eqb (cell r "integration_id") (SqlInt (id integration))
                        && SqlValue_eqb (cell r "project_key") (SqlText k)
                        && negb (SqlValue_eqb (SqlText k) SqlNull))
              (rows t) row) as [hit Hhit].
  { rewrite Hi, Hk. cbn. rewrite Z.eqb_refl, String.eqb_refl. reflexivity. }
  destruct p as [w sent temp]. cbn [world] in *.
  set (w1 := mkWorld (set_table (db w) "jira_projects" t1) (clock_reads w) (random_reads w)
                     (http_log w) (isRunning w)).
  assert (Hno1 : no_issue_index w1).
  { intros t0 H0. apply Hno. rewrite <- H0. subst w1. cbn [db]. symmetry.
    apply table_set_other. reflexivity. }
  destruct (syncIssues_refused (base site) (access_token integration) fuel (id integration)
              (rowid hit) (template cloudId) k w1 response body issue more
              Hno1 Hreply Hok Hjson Hissues) as (e & w2 & Hrun & Hdb2).
  pose proof (syncIssues_first_page (base site) (access_token integration) fuel
                (id integration) (rowid hit) (template cloudId) k w1 Hno1) as (_ & Hlog2 & _).
  rewrite Hrun in Hlog2. cbn [snd] in Hlog2.
  assert (Hinsert : dbInsert OrReplace "jira_projects"
                      ["integration_id"; "project_key"; "project_name"; "cloud_id"; "is_active"]
                      (placeholders 5)
                      [SqlInt (id integration); SqlText k; bindParam (prop project "name");
                       bindParam cloudId; SqlInt 1] w = (Returned tt, w1)).
  { unfold dbInsert, bind, getDatabase. rewrite Ht, Hins. reflexivity. }
  assert (Hfind : Scheduler.dbFindProject (id integration) (SqlText k) w1
                  = (Returned (Some (rowid hit)), w1)).
  { unfold Scheduler.dbFindProject, bind, getDatabase.
    replace (table (db w1) "jira_projects") with (Some t1)
      by (subst w1; cbn [db]; symmetry; apply table_set_same).
    unfold Scheduler.find_project. rewrite Hrows, Hhit. reflexivity. }
  assert (Hr : forOfP (JArr (project :: others))
                      (Scheduler.syncProject site (S fuel) integration cloudId)
                      (mkState w sent temp)
               = (Failed (Inner e), mkState w2 sent temp)).
  { unfold forOfP. cbn [iterable forEachP]. unfold Scheduler.syncProject.
    rewrite bindP_run. rewrite bindP_run. unfold memberP. rewrite lift_run. unfold member.
    rewrite Hproject, Hkey. unfold ret at 1. cbn [bindParam template].
    rewrite bindP_run, lift_run, Hinsert.
    rewrite bindP_run, lift_run, Hfind.
    rewrite bindP_run, loop_run, Hrun. reflexivity. }
  rewrite Hr. cbn [fst snd world].
  split; [eauto|]. split.
  - exists t1, row. rewrite Hdb2. subst w1. cbn [db].
    split; [apply table_set_same|]. auto.
  - exact Hlog2.
Qed.

(** Project P, then project Q, of a site that answers every search with
    100 issues, against a new database file. *)
Lemma hourly_sync_stops_at_first_issue_witness :
  exists e,
    fst (forOfP (JArr [Cases.project "P"; Cases.project "Q"])
                (Scheduler.syncProject Cases.busy 1 (Scenario.due 1 0 true) (JStr "cloud"))
                (Cases.started [Scenario.due 1 0 true]))
    = Failed (Inner e).
Proof.
  refine (proj1 (hourly_sync_stops_at_first_issue
                   Cases.busy 0 (Scenario.due 1 0 true) (JStr "cloud") (Cases.project "P")
                   [Cases.project "Q"] "P"
                   (mkTable [col "integration_id"; col "project_key"; col "project_name";
                             col "project_id"; col "project_type"; col "description";
                             col "lead_account_id"; col "lead_display_name"; col "url";
                             col "avatar_urls"; col "project_category"; col "is_private";
                             dflt "is_active" 1; col "cloud_id"; col "raw_data";
                             col "updated_at"] [] [] 0)
                   (mkResponse 200 EmptyString (Some (Scenario.page 0 100)))
                   (Scenario.page 0 100) (Scenario.issue_no 0)
                   (map Scenario.issue_no (List.seq 1 99))
                   (Cases.started [Scenario.due 1 0 true])
                   _ eq_refl _ eq_refl eq_refl eq_refl eq_refl eq_refl)).
  - intros t Ht. rewrite (initDatabase_no_unique "jira_issues" t Ht). reflexivity.
  - split; reflexivity.
Defined.

(** ** Runs of the routes and jobs *)

(** The first callback of a new process stores account 1 as primary,
    with the defaults of the route, and answers with its id. *)
Example callback_stores_first_account :
  let run := Server.authCallback Cases.granting (Some "code") (Cases.started []) in
  fst run = Done (Server.mkAnswer 200 (Server.authenticated 1)) /\
  map (fun r => (id r, account_name r, refresh_token r, is_primary r))
      (integrations (db (world (snd run))))
  = [(1, Some "New Jira Account", None, true)].
Proof. vm_compute. split; reflexivity. Qed.

(** A deactivated account: refused by the sync route and by the refresh
    route, synced by the comprehensive-sync route. *)
Example routes_on_a_deactivated_account :
  let p := Cases.started [Scenario.due 1 0 false] in
  fst (Server.syncRoute Cases.one_cloud 1 p)
  = Done (Server.mkAnswer 500 (Server.failure "Integration not found or inactive")) /\
  fst (Server.comprehensiveSyncRoute Cases.one_cloud 1 p)
  = Done (Server.mkAnswer 200 (Server.completed "Comprehensive sync completed successfully")) /\
  fst (Server.refreshTokenRoute Cases.granting 1 p) = Done Server.NotFound.
Proof. vm_compute. repeat split; reflexivity. Qed.

(** An active account whose token the resources endpoint rejects with
    401: the health check refreshes it. *)
Example health_check_refreshes_on_401 :
  let p := snd (Scheduler.healthCheck Cases.granting (Cases.started [Scenario.due 1 0 true])) in
  map access_token (integrations (db (world p))) = [Some "access-1"] /\
  http_log (world p) = [TokenCall (mkTokenRequest (Some "refresh-0"))].
Proof. vm_compute. split; reflexivity. Qed.

(** One hour granted, on a clock that stands still. *)
Example refresh_route_reports_one_hour :
  fst (Server.refreshTokenRoute Cases.granting 1 (Cases.started [Scenario.due 1 0 true]))
  = Done (Server.Refreshed (Some (Scenario.t0 + 3600000)) (Some Scenario.t0) 1).
Proof. vm_compute. reflexivity. Qed.

(** ** The primary flag when handlers overlap *)

Lemma storeTokens_statements (env : Env) (projectId : string) (tokens : Tokens)
      (accountInfo : AccountInfo) (w : World) :
  storeTokens env projectId tokens accountInfo w
  = (first <- Statements.isFirstIntegration ;;
     Statements.insertIntegration env projectId tokens accountInfo first)%js w.
Proof. reflexivity. Qed.

Lemma flag_neutral_refl (d : Database) : flag_neutral d d.
Proof. apply Forall2_same. apply updated_row_refl. Qed.

Lemma flag_neutral_trans (a b c : Database) :
  flag_neutral a b -> flag_neutral b c -> flag_neutral a c.
Proof. apply Forall2_trans. apply updated_row_trans. Qed.

Lemma flag_neutral_update (i : Z) (f : Integration -> Integration) (d : Database) :
  (forall x, updated_row x (f x)) -> flag_neutral d (update_where_id i f d).
Proof.
  intros Hf. unfold flag_neutral, update_where_id. cbn.
  induction (integrations d) as [|x l IH]; cbn; constructor; [| exact IH].
  destruct (id x =? i); [apply Hf | apply updated_row_refl].
Qed.

Lemma flag_neutral_ids (d d' : Database) :
  flag_neutral d d' -> map id (integrations d') = map id (integrations d).
Proof.
  unfold flag_neutral. induction 1 as [|x y l l' Hxy _ IH]; cbn; [reflexivity|].
  destruct Hxy as (Hid & _). rewrite Hid, IH. reflexivity.
Qed.

(** A property of rows that [updated_row] carries back from the new row
    to the old one holds of no more rows afterwards than before. *)
Lemma flag_neutral_filter (p : Integration -> bool) (d d' : Database) :
  (forall old new, updated_row old new -> p new = true -> p old = true) ->
  flag_neutral d d' ->
  (List.length (filter p (integrations d')) <= List.length (filter p (integrations d)))%nat.
Proof.
  intros Hp. unfold flag_neutral. induction 1 as [|x y l l' Hxy _ IH]; cbn; [lia|].
  destruct (p y) eqn:Ey.
  - rewrite (Hp x y Hxy Ey). cbn. lia.
  - destruct (p x); cbn; lia.
Qed.

Lemma updated_row_active_primary (old new : Integration) :
  updated_row old new -> active_primary new = true -> active_primary old = true.
Proof.
  intros (_ & Hprim & _ & _ & _ & _ & _ & _ & Hact). unfold active_primary.
  intros H. apply andb_true_iff in H. destruct H as [Ha Hp].
  rewrite (Hact Ha). rewrite <- Hprim. exact Hp.
Qed.

Lemma flag_neutral_invariant (d d' : Database) :
  flag_neutral d d' -> at_most_one_primary d -> at_most_one_primary d'.
Proof.
  intros Hn Hd. unfold at_most_one_primary in *.
  etransitivity; [| exact Hd].
  apply flag_neutral_filter; [exact updated_row_active_primary | exact Hn].
Qed.

Lemma flag_neutral_refreshOne (env : Env) (r : Integration) (w : World) :
  flag_neutral (db w) (db (snd (refreshOne env r w))).
Proof.
  destruct (refreshOne_rows env r w) as (f & Hf & Hrows & _).
  unfold flag_neutral. rewrite Hrows. clear Hrows.
  induction (integrations (db w)) as [|x l IH]; cbn; constructor; [| exact IH].
  destruct (id x =? id r); [apply Hf | apply updated_row_refl].
Qed.

Lemma flag_neutral_refresh (env : Env) (i : Z) (w : World) :
  flag_neutral (db w) (db (snd (refreshAccessToken env i w))).
Proof.
  destruct (flags_kept_refresh env i w) as (Hrows & _).
  unfold flag_neutral. revert Hrows.
  generalize (integrations (db w)) (integrations (db (snd (refreshAccessToken env i w)))).
  induction 1 as [|x y l l' [Hxy _] _ IH]; constructor; assumption.
Qed.

Lemma flag_neutral_pass (env : Env) (w : World) :
  flag_neutral (db w) (db (snd (refreshAllTokens env w))).
Proof.
  destruct (refreshAllTokens_db env w) as [-> | ->]; [apply flag_neutral_refl|].
  apply (refreshCycle_keeps env (fun w0 => flag_neutral (db w) (db w0)));
    [| apply flag_neutral_refl].
  intros r w0 H0. apply (flag_neutral_trans _ (db w0)); [exact H0|].
  apply flag_neutral_refreshOne.
Qed.

(** After the first UPDATE of set-primary and any statements that do not
    write the flag, no row is primary. *)
Lemma cleared_stays_cleared (w w1 : World) :
  flag_neutral (db (snd (clearPrimary w))) (db w1) ->
  filter active_primary (integrations (db w1)) = [].
Proof.
  intros Hn.
  pose proof (flag_neutral_filter active_primary _ _ updated_row_active_primary Hn) as Hle.
  rewrite clearPrimary_run in Hle. cbn [snd db] in Hle. rewrite clearPrimary_none in Hle.
  destruct (filter active_primary (integrations (db w1))); [reflexivity | cbn in Hle; lia].
Qed.

Lemma filter_map_length_in {A : Type} (p q : A -> bool) (g : A -> A) (l : list A) :
  (forall x, In x l -> p (g x) = true -> q x = true) ->
  (List.length (filter p (map g l)) <= List.length (filter q l))%nat.
Proof.
  induction l as [|x l IH]; cbn; intros Hp; [lia|].
  assert (Hl : (List.length (filter p (map g l)) <= List.length (filter q l))%nat).
  { apply IH. intros y Hy. apply Hp. right. exact Hy. }
  destruct (p (g x)) eqn:E.
  - rewrite (Hp x (or_introl eq_refl) E). cbn. lia.
  - destruct (q x); cbn; lia.
Qed.

Lemma markPrimary_after_clear (i : Z) (w w1 : World) :
  unique_ids (db w) ->
  flag_neutral (db (snd (clearPrimary w))) (db w1) ->
  at_most_one_primary (db (snd (markPrimary i w1))).
Proof.
  intros Hu Hn.
  assert (Hids : NoDup (map id (integrations (db w1)))).
  { rewrite (flag_neutral_ids _ _ Hn). rewrite clearPrimary_run. cbn [snd db].
    unfold update_all. cbn. rewrite map_map. exact Hu. }
  pose proof (cleared_stays_cleared w w1 Hn) as Hnone.
  unfold markPrimary, bind, getDatabase, setDatabase. cbn [snd db].
  unfold at_most_one_primary, update_where_id. cbn [integrations set_integrations].
  etransitivity; [| apply (filter_id_unique i _ Hids)].
  apply filter_map_length_in. intros x Hin Hx.
  destruct (id x =? i) eqn:E; [reflexivity|].
  exfalso.
  assert (Hf : In x (filter active_primary (integrations (db w1)))).
  { apply filter_In. split; assumption. }
  rewrite Hnone in Hf. exact Hf.
Qed.

(** The INSERT of [storeTokens], run after statements that do not write
    the flag, with the flag its SELECT COUNT gave. *)
Lemma insert_after_count (env : Env) (projectId : string) (tokens : Tokens)
      (accountInfo : AccountInfo) (first : bool) (w w1 : World) :
  at_most_one_primary (db w) ->
  fst (Statements.isFirstIntegration w) = Returned first ->
  flag_neutral (db w) (db w1) ->
  at_most_one_primary
    (db (snd (Statements.insertIntegration env projectId tokens accountInfo first w1))).
Proof.
  intros Hd Hfirst Hn.
  unfold Statements.isFirstIntegration, bind, getDatabase, ret in Hfirst. cbn in Hfirst.
  injection Hfirst as Hfirst.
  unfold Statements.insertIntegration, bind, dateNow, getDatabase, setDatabase, ret.
  cbn -[next_integration_id].
  unfold at_most_one_primary. cbn [integrations].
  rewrite filter_app, length_app. cbn [filter].
  unfold active_primary at 2. cbn [is_active is_primary andb].
  destruct first; cbn [List.length].
  - apply Z.eqb_eq in Hfirst.
    assert (Hnone : List.length (filter is_active (integrations (db w))) = 0%nat).
    { unfold select_active in Hfirst. lia. }
    assert (Hle : (List.length (filter active_primary (integrations (db w1)))
                   <= List.length (filter is_active (integrations (db w))))%nat).
    { etransitivity.
      - apply (flag_neutral_filter active_primary _ _ updated_row_active_primary Hn).
      - apply filter_length_le. intros x Hx. unfold active_primary in Hx.
        apply andb_true_iff in Hx. tauto. }
    lia.
  - pose proof (flag_neutral_invariant _ _ Hn Hd) as Hd1.
    unfold at_most_one_primary in Hd1. lia.
Qed.

(** C7, as the code has it.  At most one active account is primary
    (1) in every world reached from a new database file by the
        operations that write [integrations] (authorisation, set-primary,
        deactivation, refresh, refresh pass), run one after the other;
    (2) [storeTokens] keeps it so;
    (3) the set-primary route keeps it so on a table whose ids are
        distinct (they are a PRIMARY KEY), also between its two
        statements;
    (4) [storeTokens] appends one active row and marks it primary exactly
        when the table had no active row;
    and also while a handler that writes the flag is between its two
    statements, as long as the statements run meanwhile do not write the
    flag:
    (5) the UPDATEs of the DELETE route, of a refresh and of a refresh
        pass do not write it, they keep the ids distinct and they keep
        the invariant;
    (6) after the first UPDATE of set-primary and any such statements,
        no active account is primary, and the second UPDATE marks at
        most one;
    (7) [storeTokens] is its SELECT COUNT followed by its INSERT, and the
        INSERT keeps the invariant when such statements ran between the
        two. *)
Theorem primary_account_invariant (env : Env) (w : World) :
  (reachable env w -> at_most_one_primary (db w)) /\
  (forall projectId tokens accountInfo,
      at_most_one_primary (db w) ->
      at_most_one_primary (db (snd (storeTokens env projectId tokens accountInfo w)))) /\
  (forall i,
      unique_ids (db w) ->
      at_most_one_primary (db (snd (clearPrimary w))) /\
      at_most_one_primary (db (snd (setPrimary i w)))) /\
  (forall projectId tokens accountInfo,
      exists row,
        integrations (db (snd (storeTokens env projectId tokens accountInfo w)))
        = integrations (db w) ++ [row] /\
        is_active row = true /\
        (is_primary row = true <-> select_active (db w) = [])) /\
  ((forall i,
       flag_neutral (db w) (db (snd (deactivateAccount i w))) /\
       flag_neutral (db w) (db (snd (refreshAccessToken env i w)))) /\
   flag_neutral (db w) (db (snd (refreshAllTokens env w))) /\
   (forall r, flag_neutral (db w) (db (snd (refreshOne env r w)))) /\
   (forall w1,
       flag_neutral (db w) (db w1) ->
       (unique_ids (db w) -> unique_ids (db w1)) /\
       (at_most_one_primary (db w) -> at_most_one_primary (db w1)))) /\
  (forall i w1,
      unique_ids (db w) ->
      flag_neutral (db (snd (clearPrimary w))) (db w1) ->
      filter active_primary (integrations (db w1)) = [] /\
      at_most_one_primary (db (snd (markPrimary i w1)))) /\
  (forall projectId tokens accountInfo,
      storeTokens env projectId tokens accountInfo w
      = (first <- Statements.isFirstIntegration ;;
         Statements.insertIntegration env projectId tokens accountInfo first)%js w /\
      forall first w1,
        at_most_one_primary (db w) ->
        fst (Statements.isFirstIntegration w) = Returned first ->
        flag_neutral (db w) (db w1) ->
        at_most_one_primary
          (db (snd (Statements.insertIntegration env projectId tokens accountInfo first w1)))).
Proof.
  split; [| split; [| split; [| split; [| split; [| split]]]]].
  - intros Hreach. apply (reachable_keeps env w Hreach).
  - intros projectId tokens accountInfo. apply storeTokens_keeps_invariant.
  - intros i Hu. split; [| apply setPrimary_keeps_invariant; exact Hu].
    rewrite clearPrimary_run. cbn [snd db]. unfold at_most_one_primary.
    rewrite clearPrimary_none. cbn. lia.
  - intros projectId tokens accountInfo.
    destruct (storeTokens_run env projectId tokens accountInfo w)
      as (row & _ & Hrows & _ & Hact & Hprim & _).
    exists row. split; [exact Hrows|]. split; [exact Hact|].
    rewrite Hprim, Z.eqb_eq. destruct (select_active (db w)); cbn -[Z.of_nat].
    + split; reflexivity.
    + split; [cbn; lia | discriminate].
  - split; [| split; [| split]].
    + intros i. split; [| apply flag_neutral_refresh].
      unfold deactivateAccount, bind, getDatabase, setDatabase. cbn [snd db].
      apply flag_neutral_update. intros x. unfold updated_row. cbn.
      repeat split; try reflexivity. discriminate.
    + apply flag_neutral_pass.
    + intros r. apply flag_neutral_refreshOne.
    + intros w1 Hn. split.
      * unfold unique_ids. rewrite (flag_neutral_ids _ _ Hn). auto.
      * apply flag_neutral_invariant. exact Hn.
  - intros i w1 Hu Hn. split; [apply (cleared_stays_cleared w w1 Hn)|].
    apply (markPrimary_after_clear i w w1 Hu Hn).
  - intros projectId tokens accountInfo. split; [apply storeTokens_statements|].
    intros first w1 Hd Hfirst Hn.
    apply (insert_after_count env projectId tokens accountInfo first w w1 Hd Hfirst Hn).
Qed.

(** C7 as stated fails on the code: "at any time" includes the time
    between the statements of a handler, where other handlers run.  Two
    set-primary requests, for accounts 1 and 2, whose statements
    alternate leave both active accounts primary; two authorisations on a
    new database file whose SELECT COUNTs both come before the INSERTs
    store two active accounts that are both primary. *)
Lemma overlapping_handlers_counterexample :
  reachable (Scenario.env_of Scenario.unauthorized) Cases.two_accounts /\
  ~ at_most_one_primary
      (db (snd ((clearPrimary ;; clearPrimary ;; markPrimary 1 ;; markPrimary 2)%js
                  Cases.two_accounts))) /\
  ~ at_most_one_primary
      (db (snd ((first <- Statements.isFirstIntegration ;;
                 first' <- Statements.isFirstIntegration ;;
                 Statements.insertIntegration (Scenario.env_of Scenario.unauthorized)
                   "web-auth" (mkTokens (Some "a1") (Some "r1") Scenario.t0)
                   (mkAccountInfo None None None) first ;;
                 Statements.insertIntegration (Scenario.env_of Scenario.unauthorized)
                   "web-auth" (mkTokens (Some "a2") (Some "r2") Scenario.t0)
                   (mkAccountInfo None None None) first')%js
                  (Scenario.new_world initDatabase)))).
Proof.
  split; [| split].
  - unfold Cases.two_accounts. apply reach_step, reach_step, reach_new. reflexivity.
  - unfold at_most_one_primary. vm_compute. lia.
  - unfold at_most_one_primary. vm_compute. lia.
Qed.
